(** * Couchbase Lite Core: database handle and BLIP streaming codec

    A shallow embedding of [C/c4Database.cc] and
    [LiteCore/Support/Codec.cc], with the properties of the natural-language
    specification stated and settled against it.

    Conventions.
    - [size_t] is a 64-bit and [unsigned]/[uint32_t] a 32-bit unsigned
      integer; both are carried as [Z] with the truncation of every cast
      written out ([to_size_t], [to_unsigned]).
    - A readable [slice] is the list of the bytes it still covers; its
      [size] is the length of that list.  A writable slice is the room that
      is left together with the bytes already stored in front of its start.
    - C++ exceptions and failed [Assert]s are outcomes of a small
      state-and-exception monad; reference parameters and member variables
      live in its state, so what was mutated before a throw stays mutated. *)

From Stdlib Require Import ZArith Lia Bool List Ascii String.
From Stdlib.Strings Require Import Byte.
From stdpp Require Import base tactics option list strings gmap sets.

Local Open Scope string_scope.
Local Open Scope list_scope.
Local Open Scope Z_scope.

(* ===================================================================== *)
(** * Errors *)
(* ===================================================================== *)

(** The text of a [CorruptData] exception: either a literal, or the
    ["zlib error %d: %s"] format with its two arguments. *)
Inductive message : Type :=
| Msg (text : string)
| ZlibErrorMsg (ret : Z) (zmsg : option string).

(** The error codes that the two files throw or record. *)
Inductive error : Type :=
| CorruptData (msg : message)
| InvalidParameter
| WrongFormat
| Unimplemented
| Busy
| NotInTransaction
| TransactionNotClosed
| AssertionFailed
| IOError
| CantOpenFile.

Inductive outcome (A : Type) : Type :=
| Ok (a : A)
| Throw (e : error)
| Diverge.
Arguments Ok {A} a.
Arguments Throw {A} e.
Arguments Diverge {A}.

(* ===================================================================== *)
(** * Machine integers *)
(* ===================================================================== *)

Definition to_unsigned (x : Z) : Z := x mod 2 ^ 32.
Definition to_size_t (x : Z) : Z := x mod 2 ^ 64.
Definition SIZE_MAX : Z := 2 ^ 64 - 1.

(* ===================================================================== *)
(** * Slices *)
(* ===================================================================== *)

Definition slice : Type := list byte.

Definition size (s : slice) : Z := Z.of_nat (length s).

(** [moveStart(n)]: advance the start by [n] bytes. *)
Definition moveStart (n : Z) (s : slice) : slice := skipn (Z.to_nat n) s.

(** The slice [{s.buf, n}]: the first [n] bytes of [s]. *)
Definition prefix (n : Z) (s : slice) : slice := firstn (Z.to_nat n) s.

(** The slice [{orig.buf, rest.buf}] between the start of [orig] and the
    start of [rest], where [rest] is [orig] after some [moveStart]s. *)
Definition between (orig rest : slice) : slice :=
  firstn (length orig - length rest)%nat orig.

(* ===================================================================== *)
(** * CRC32 (zlib's [crc32]) *)
(* ===================================================================== *)

Definition byte_val (b : byte) : Z := Z.of_N (Byte.to_N b).

Definition crc_poly : Z := 0xEDB88320.

Definition crc_shift (c : Z) : Z :=
  if Z.testbit c 0 then Z.lxor (Z.shiftr c 1) crc_poly else Z.shiftr c 1.

Definition crc_byte (c : Z) (b : byte) : Z :=
  let c0 := Z.lxor c (byte_val b) in
  crc_shift (crc_shift (crc_shift (crc_shift
    (crc_shift (crc_shift (crc_shift (crc_shift c0))))))).

(** [crc32(crc, buf, len)] over the [len] bytes [data]:  the running value
    is complemented on the way in and on the way out. *)
Definition crc32 (crc : Z) (data : list byte) : Z :=
  Z.lxor (fold_left crc_byte data (Z.lxor crc 0xFFFFFFFF)) 0xFFFFFFFF.

(* ===================================================================== *)
(** * Big-endian 32-bit words ([endian::enc32], [endian::dec32]) *)
(* ===================================================================== *)

Definition byte_of_Z (x : Z) : byte :=
  match Byte.of_N (Z.to_N (x mod 256)) with
  | Some b => b
  | None => x00%byte
  end.

(** Modelled from the spec: [endian::enc32] of the absent [Endian.hh]
    puts a 32-bit word in big-endian order; these are the four bytes that
    the encoded word occupies in memory. *)
Definition enc32 (x : Z) : list byte :=
  [byte_of_Z (Z.shiftr x 24); byte_of_Z (Z.shiftr x 16);
   byte_of_Z (Z.shiftr x 8); byte_of_Z x].

(** Modelled from the spec: [endian::dec32], the big-endian value of the
    word that occupies the bytes [bs] in memory. *)
Definition dec32 (bs : list byte) : Z :=
  fold_left (fun acc b => acc * 256 + byte_val b) bs 0.

(* ===================================================================== *)
(** * A state-and-exception monad *)
(* ===================================================================== *)

Definition M (S A : Type) : Type := S -> outcome A * S.

Definition ret {S A} (a : A) : M S A := fun s => (Ok a, s).

Definition bind {S A B} (m : M S A) (k : A -> M S B) : M S B :=
  fun s =>
    match m s with
    | (Ok a, s') => k a s'
    | (Throw e, s') => (Throw e, s')
    | (Diverge, s') => (Diverge, s')
    end.

Definition throw {S A} (e : error) : M S A := fun s => (Throw e, s).
Definition diverge {S A} : M S A := fun s => (Diverge, s).
Definition gets {S A} (f : S -> A) : M S A := fun s => (Ok (f s), s).
Definition modify {S} (f : S -> S) : M S unit := fun s => (Ok tt, f s).

(** [Assert(cond)], a macro of the absent [Error.hh]: a failed assertion
    leaves through an outcome of its own. *)
Definition Assert {S} (cond : bool) : M S unit :=
  if cond then ret tt else throw AssertionFailed.

Notation "'let*' x ':=' c 'in' k" := (bind c (fun x => k))
  (at level 10, x name, c at level 100, k at level 200).

(* ===================================================================== *)
(** * The BLIP codec ([LiteCore/Support/Codec.cc]) *)
(* ===================================================================== *)

Module Blip.

(** ** The zlib interface

    zlib is a dependency of the codec, not part of it.  The codec reaches
    it through [deflate]/[inflate] (one of which a [ZlibCodec] holds as
    [_flate]), [deflateBound] and [deflatePending], all of which act on a
    [z_stream].  One call of [_flate] is given the [avail_in] bytes at
    [next_in] and [avail_out] bytes of room at [next_out]; it answers with
    the new stream state, how many input bytes it read, the bytes it
    wrote, and its return code. *)

Record flate_result (zs : Type) : Type := FlateResult {
  next_state : zs;
  read : Z;
  wrote : list byte;
  result : Z
}.
Arguments FlateResult {zs}.
Arguments next_state {zs}.
Arguments read {zs}.
Arguments wrote {zs}.
Arguments result {zs}.

Class zlib : Type := {
  z_stream : Type;
  deflate : z_stream -> Z -> slice -> Z -> flate_result z_stream;
  inflate : z_stream -> Z -> slice -> Z -> flate_result z_stream;
  (** [deflateBound(strm, sourceLen)] *)
  deflateBound : z_stream -> Z -> Z;
  (** [deflatePending(strm, &bytes, &bits)]: return code, bytes, bits *)
  deflatePending : z_stream -> Z * Z * Z;
  (** the fields [msg] and [adler] of the stream *)
  z_msg : z_stream -> option string;
  z_adler : z_stream -> Z
}.

Definition Z_BUF_ERROR : Z := -5.

(** True to use raw DEFLATE format, false to add the zlib header &
    checksum. *)
Definition kZlibRawDeflate : bool := true.

(** Declared in the absent [Codec.hh]; the [static_assert] of
    [readAndVerifyChecksum] pins it to [sizeof(uint32_t)]. *)
Definition kChecksumSize : Z := 4.

(** Modelled from the spec: the enumeration [Codec::Mode] of [Codec.hh],
    with the four flush modes the specification lists.  The non-raw modes
    are handed to zlib as [(int)mode], so they carry zlib's constants;
    [Raw] lies below them, as [Assert(mode > Mode::Raw)] requires. *)
Inductive Mode : Type := Raw | NoFlush | PartialFlush | SyncFlush.

Definition mode_int (m : Mode) : Z :=
  match m with
  | Raw => -1
  | NoFlush => 0
  | PartialFlush => 1
  | SyncFlush => 2
  end.

Definition mode_eqb (a b : Mode) : bool := mode_int a =? mode_int b.

(** A writable slice: [room] bytes are left, and [stored] holds what has
    been written into the buffer so far. *)
Record wslice : Type := WSlice {
  stored : list byte;
  room : Z
}.

(** The [logInfo] line of [ZlibCodec::_write]. *)
Record zcall : Type := ZCall {
  call_mode : Z;
  call_in : Z;
  call_out : Z;
  call_result : Z;
  call_read : Z;
  call_wrote : Z
}.

Section Codec.
Context {zl : zlib}.

(** The state a [write] call works on: the members [_checksum] and [_z] of
    the codec, the two slices it was handed by reference, and the log. *)
Record io : Type := IO {
  _checksum : Z;
  _z : z_stream;
  input : slice;
  output : wslice;
  calls : list zcall
}.

Definition set_checksum (c : Z) (s : io) : io :=
  IO c (_z s) (input s) (output s) (calls s).
Definition set_z (z : z_stream) (s : io) : io :=
  IO (_checksum s) z (input s) (output s) (calls s).
Definition set_input (i : slice) (s : io) : io :=
  IO (_checksum s) (_z s) i (output s) (calls s).
Definition set_output (o : wslice) (s : io) : io :=
  IO (_checksum s) (_z s) (input s) o (calls s).
Definition log_call (c : zcall) (s : io) : io :=
  IO (_checksum s) (_z s) (input s) (output s) (calls s ++ [c]).

(** [memcpy] into the buffer at the start of the writable slice. *)
Definition store (bytes : list byte) (o : wslice) : wslice :=
  WSlice (stored o ++ bytes) (room o).
(** [moveStart]/[setStart] of the writable slice, [n] bytes forward. *)
Definition advance (n : Z) (o : wslice) : wslice :=
  WSlice (stored o) (room o - n).

(** The initial value of [_checksum]: [crc32(0, nullptr, 0)]. *)
Definition initial_checksum : Z := to_unsigned (crc32 0 []).

Definition addToChecksum (data : slice) : M io unit :=
  modify (fun s =>
    set_checksum
      (to_unsigned (crc32 (_checksum s) (prefix (to_unsigned (size data)) data)))
      s).

(** Modelled from the spec: [slice::writeFrom] of the absent [slice.hh]
    (copy into self, advance self, fail if insufficient room). *)
Definition writeFrom (src : slice) : M io bool :=
  let* out := gets output in
  if room out <? size src then ret false
  else
    let* _ := modify (fun s => set_output (advance (size src) (store src out)) s) in
    ret true.

(** Modelled from the spec: [slice::readInto] of the absent [slice.hh]
    (copy [dst.size] bytes from self, advance self).  The answer is the
    success flag and the bytes that were copied into [dst]. *)
Definition readInto (dst_size : Z) : M io (bool * list byte) :=
  let* inp := gets input in
  if size inp <? dst_size then ret (false, [])
  else
    let* _ := modify (set_input (moveStart dst_size inp)) in
    ret (true, prefix dst_size inp).

Definition writeChecksum : M io unit :=
  let* sum := gets _checksum in
  let chk := enc32 sum in
  let* ok := writeFrom chk in
  Assert ok.

Definition readAndVerifyChecksum : M io unit :=
  let* inp := gets input in
  if size inp <? kChecksumSize then
    throw (CorruptData (Msg "BLIP message ends before checksum"))
  else
    let* chk := readInto 4 in
    let chk := dec32 (snd chk) in
    let* sum := gets _checksum in
    if negb (chk =? sum) then
      throw (CorruptData (Msg "BLIP message invalid checksum"))
    else ret tt.

(** Uncompressed write: just copies input bytes to output (updating
    checksum). *)
Definition _writeRaw : M io unit :=
  let* out := gets output in
  let* _ := Assert (room out >? 0) in
  let* inp := gets input in
  let count := Z.min (size inp) (room out) in
  let* _ := addToChecksum (prefix count inp) in
  let* _ := modify (fun s => set_output (store (prefix count inp) (output s)) s) in
  let* _ := modify (fun s => set_input (moveStart count (input s)) s) in
  modify (fun s => set_output (advance count (output s)) s).

Definition check (ret_code : Z) : M io unit :=
  let* z := gets _z in
  if (ret_code <? 0) && negb (ret_code =? Z_BUF_ERROR) then
    throw (CorruptData (ZlibErrorMsg ret_code (z_msg z)))
  else ret tt.

(** [ZlibCodec::_write].  [_flate] is the function the codec was built
    with.  Modelled from the spec: where the caller leaves [maxInput] out,
    the default of the absent [Codec.hh] puts no limit on the input; it
    is taken to be [SIZE_MAX]. *)
Definition _write (_flate : z_stream -> Z -> slice -> Z -> flate_result z_stream)
    (mode : Mode) (maxInput : Z) : M io unit :=
  let* inp := gets input in
  let inSize := to_unsigned (Z.min (size inp) maxInput) in
  let* out := gets output in
  let outSize := to_unsigned (room out) in
  let* _ := Assert (outSize >? 0) in
  let* _ := Assert (mode_int mode >? mode_int Raw) in
  let* z := gets _z in
  let r := _flate z (mode_int mode) (prefix inSize inp) outSize in
  let* _ := modify (set_z (next_state r)) in
  let* _ := modify (fun s => set_output (store (wrote r) (output s)) s) in
  let* _ := modify (log_call (ZCall (mode_int mode) inSize outSize (result r)
                                    (read r) (size (wrote r)))) in
  let* _ := (if negb kZlibRawDeflate
             then modify (set_checksum (to_unsigned (z_adler (next_state r))))
             else ret tt) in
  let* _ := modify (fun s => set_input (moveStart (read r) (input s)) s) in
  let* _ := modify (fun s => set_output (advance (size (wrote r)) (output s)) s) in
  check (result r).

End Codec.

(** ** Deflater *)

Module Deflater.
Section Deflater.
Context {zl : zlib}.

Definition kHeadroomForFlush : Z := 12.
Definition kStopAtOutputSize : Z := 100.

(** The [while] loop of [_writeAndFlush], with the local [curMode] as its
    argument and its result.  The loop has no bound of its own: it is
    unrolled [fuel] times, and [Diverge] stands for iterations beyond. *)
Fixpoint flush_loop (fuel : nat) (curMode : Mode) : M io Mode :=
  match fuel with
  | O => diverge
  | S fuel' =>
    let* inp := gets input in
    if size inp >? 0 then
      let* out := gets output in
      let* z := gets _z in
      let* curMode' :=
        (if room out >=? deflateBound z (to_unsigned (size inp)) then
           (* Entire input is guaranteed to fit, so write it & flush: *)
           let* _ := _write deflate SyncFlush SIZE_MAX in
           ret SyncFlush
         else
           (* Limit input size to what we know can be compressed into
              output. *)
           let* _ := _write deflate curMode
                       (to_size_t (room out - kHeadroomForFlush)) in
           ret curMode) in
      let* out' := gets output in
      if room out' <=? kStopAtOutputSize then ret curMode'
      else flush_loop fuel' curMode'
    else ret curMode
  end.

(** Iterations that the loop can need when every engine call that is
    given input and room either reads or writes something.  An outcome
    other than [Diverge] is the outcome of the loop itself, whatever the
    engine; with such an engine [Diverge] does not occur, as is proved
    with the properties of the loop. *)
Definition flush_fuel (s : io) : nat :=
  S (Z.to_nat (size (input s) + room (output s))).

Definition _writeAndFlush : M io unit :=
  let* fuel := gets flush_fuel in
  let* curMode := flush_loop fuel PartialFlush in
  if negb (mode_eqb curMode SyncFlush) then
    (* Flush if we haven't yet (consuming no input): *)
    _write deflate SyncFlush 0
  else ret tt.

(** [Deflater::write].  The closing [logInfo] is a macro that evaluates
    its arguments only when the [Zip] domain logs at that level; it is
    left out. *)
Definition write (mode : Mode) : M io unit :=
  if mode_eqb mode Raw then _writeRaw
  else
    let* origInput := gets input in
    let* _ :=
      match mode with
      | NoFlush => _write deflate mode SIZE_MAX
      | SyncFlush => _writeAndFlush
      | _ => throw InvalidParameter
      end in
    if kZlibRawDeflate then
      let* inp := gets input in
      addToChecksum (between origInput inp)
    else ret tt.

(** [Deflater::unflushedBytes], on the path where [deflatePending] is
    available (everywhere but on old Apple systems, where it answers 0). *)
Definition unflushedBytes : M io Z :=
  let* z := gets _z in
  let rc := fst (fst (deflatePending z)) in
  let bytes := snd (fst (deflatePending z)) in
  let bits := snd (deflatePending z) in
  let* _ := check rc in
  ret (to_unsigned (bytes + (if bits >? 0 then 1 else 0))).

End Deflater.
End Deflater.

(** ** Inflater *)

Module Inflater.
Section Inflater.
Context {zl : zlib}.

Definition write (mode : Mode) : M io unit :=
  if mode_eqb mode Raw then _writeRaw
  else
    let* outStart := gets (fun s => length (stored (output s))) in
    let* _ := _write inflate mode SIZE_MAX in
    if kZlibRawDeflate then
      let* out := gets output in
      addToChecksum (skipn outStart (stored out))
    else ret tt.

End Inflater.
End Inflater.

End Blip.

(* ===================================================================== *)
(** * A reference engine *)
(* ===================================================================== *)

(** The simplest engine with the shape of zlib's interface: a byte queue.
    A call takes all the input it is given onto the queue and writes as
    much of the queue as there is room for; what does not fit stays
    pending.  It serves to run the codec on concrete data. *)
Module QueueEngine.

Definition queue_flate (pending : list byte) (flush : Z) (next_in : slice)
    (avail_out : Z) : Blip.flate_result (list byte) :=
  let all := pending ++ next_in in
  Blip.FlateResult (moveStart avail_out all) (size next_in)
                   (prefix avail_out all)
                   (if (size next_in =? 0) && (size (prefix avail_out all) =? 0)
                    then Blip.Z_BUF_ERROR else 0).

#[export] Instance queue_zlib : Blip.zlib := {|
  Blip.z_stream := list byte;
  Blip.deflate := queue_flate;
  Blip.inflate := queue_flate;
  Blip.deflateBound := fun _ sourceLen => sourceLen + 6;
  Blip.deflatePending := fun pending => (0, size pending, 0);
  Blip.z_msg := fun _ => None;
  Blip.z_adler := fun _ => 1
|}.

(** A fresh codec handed [input] and an output slice of [room] bytes. *)
Definition fresh (input : slice) (room : Z) : Blip.io :=
  Blip.IO Blip.initial_checksum ([] : Blip.z_stream) input (Blip.WSlice [] room) [].

(** The same codec handed the next pair of slices. *)
Definition refill (input : slice) (room : Z) (s : Blip.io) : Blip.io :=
  Blip.set_input input (Blip.set_output (Blip.WSlice [] room) s).

End QueueEngine.

(* ===================================================================== *)
(** * The database handle ([C/c4Database.cc]) *)
(* ===================================================================== *)

(** [try { body } catch (e) { handler }] *)
Definition try_catch {S A} (body : M S A) (handler : error -> M S A) : M S A :=
  fun s =>
    match body s with
    | (Throw e, s') => handler e s'
    | other => other
    end.

Module C4.

Definition kC4ForestDBStorageEngine : string := "ForestDB".
Definition kC4SQLiteStorageEngine : string := "SQLite".

Definition kForestDatabaseName : string := "db.forestdb".
Definition kSQLiteDatabaseName : string := "db.sqlite3".

(** [strcmp(a, b) == 0] *)
Definition strcmp0 (a b : string) : bool := String.eqb a b.

(** ** Configuration *)

(** Modelled from the spec: the bits of [C4DatabaseFlags] that the file
    tests ([kC4DB_Create], [kC4DB_ReadOnly], [kC4DB_Bundled],
    [kC4DB_V2Format]), as the option bag of the specification. *)
Record C4DatabaseFlags : Type := Flags {
  kC4DB_Create : bool;
  kC4DB_ReadOnly : bool;
  kC4DB_Bundled : bool;
  kC4DB_V2Format : bool
}.

Record C4EncryptionKey : Type := EncryptionKey {
  algorithm : Z;
  bytes : list byte
}.

(** [storageEngine] is a [const char*]: [None] is the null pointer. *)
Record C4DatabaseConfig : Type := Config {
  flags : C4DatabaseFlags;
  storageEngine : option string;
  encryptionKey : C4EncryptionKey
}.

Definition set_storageEngine (e : option string) (c : C4DatabaseConfig)
  : C4DatabaseConfig :=
  Config (flags c) e (encryptionKey c).

(** ** Paths and the file system *)

(** Modelled from the spec: [FilePath] of the absent [FilePath.hh], a path
    with directory/filename decomposition and a subpath operator. *)
Record FilePath : Type := Path {
  dirName : string;
  fileName : string
}.

(** Modelled from the spec: the subpath operator, [bundle[filename]]. *)
Definition subpath (dir : FilePath) (name : string) : FilePath :=
  Path (dirName dir) name.

(** Modelled from the spec: the separator of the components of a path,
    and the name of the current directory. *)
Definition kSeparatorChar : ascii := "/"%char.
Definition kCurrentDir : string := "./".

Fixpoint ends_with_separator (s : string) : bool :=
  match s with
  | EmptyString => false
  | String c EmptyString => Ascii.eqb c kSeparatorChar
  | String _ rest => ends_with_separator rest
  end.

(** Modelled from the spec: the name of a directory as [FilePath] spells
    it, closed by a separator; the empty name is the current directory. *)
Definition as_dir (dir : string) : string :=
  if String.eqb dir "" then kCurrentDir
  else if ends_with_separator dir then dir
  else dir ++ "/".

(** Modelled from the spec: the conversion [(string)path], the directory
    followed by the file name.  The record keeps the directory under the
    name the caller gave, which is also the name the disk below knows it
    by; the separator that closes it appears here. *)
Definition path_string (p : FilePath) : string :=
  as_dir (dirName p) ++ fileName p.

(** Modelled from the spec: the directory/filename decomposition of a
    path, cut after its last separator; a path without one is a file
    name. *)
Fixpoint splitPath (path : string) : string * string :=
  match path with
  | EmptyString => (EmptyString, EmptyString)
  | String c rest =>
    let (dir, file) := splitPath rest in
    if Ascii.eqb c kSeparatorChar then (String c dir, file)
    else
      match dir with
      | EmptyString => (EmptyString, String c file)
      | _ => (String c dir, file)
      end
  end.

(** Modelled from the spec: [FilePath(pathStr)], the path decomposed. *)
Definition FilePath_of (pathStr : string) : FilePath :=
  Path (fst (splitPath pathStr)) (snd (splitPath pathStr)).

(** What the bundle code can see of the disk: the directories and the
    files (by directory and name) that exist. *)
Record filesystem : Type := FS {
  dirs : gset string;
  files : gset (string * string)
}.

Definition is_dir (fs : filesystem) (p : FilePath) : bool :=
  bool_decide (dirName p ∈ dirs fs).

(** Modelled from the spec: [FilePath::exists]. *)
Definition path_exists (fs : filesystem) (p : FilePath) : bool :=
  if String.eqb (fileName p) "" then is_dir fs p
  else bool_decide ((dirName p, fileName p) ∈ files fs).

(** The state of bundle resolution: the disk, and the configuration that
    [findOrCreateBundle] receives by reference and updates. *)
Record resolving : Type := Resolving {
  disk : filesystem;
  config : C4DatabaseConfig
}.

(** Modelled from the spec: [FilePath::mkdir] returns whether a directory
    was newly created. *)
Definition mkdir (p : FilePath) : M resolving bool :=
  let* fs := gets disk in
  if is_dir fs p then ret false
  else
    let* _ := modify (fun s => Resolving (FS ({[dirName p]} ∪ dirs fs) (files fs))
                                         (config s)) in
    ret true.

(** Modelled from the spec: [FilePath::mustExistAsDir] fails unless the
    path exists as a directory. *)
Definition mustExistAsDir (p : FilePath) : M resolving unit :=
  let* fs := gets disk in
  if is_dir fs p then ret tt else throw IOError.

(** [path] is path to bundle; return value is path to db file.  Updates
    [config.storageEngine]. *)
Definition findOrCreateBundle (path : string) : M resolving FilePath :=
  let bundle := Path path "" in
  let* cfg := gets config in
  let* createdDir :=
    (if kC4DB_Create (flags cfg) then mkdir bundle else ret false) in
  let* _ := (if negb createdDir then mustExistAsDir bundle else ret tt) in
  (* Look for the file corresponding to the requested storage engine
     (defaulting to SQLite): *)
  let* filename :=
    match storageEngine cfg with
    | None => ret kSQLiteDatabaseName
    | Some engine =>
      if strcmp0 engine kC4SQLiteStorageEngine then ret kSQLiteDatabaseName
      else if strcmp0 engine kC4ForestDBStorageEngine then ret kForestDatabaseName
      else throw InvalidParameter
    end in
  let dbFile := subpath bundle filename in
  let* fs := gets disk in
  if createdDir || path_exists fs dbFile then
    let* _ :=
      (match storageEngine cfg with
       | None => modify (fun s => Resolving (disk s)
                   (set_storageEngine (Some kC4SQLiteStorageEngine) (config s)))
       | Some _ => ret tt
       end) in
    ret dbFile
  else
    match storageEngine cfg with
    | Some _ =>
      (* DB exists but not in the format they specified, so fail: *)
      throw WrongFormat
    | None =>
      (* Not found, but they didn't specify a format, so try the
         non-default (ForestDB) format: *)
      let dbFile := subpath bundle kForestDatabaseName in
      if negb (path_exists fs dbFile) then
        (* the bundle exists but doesn't contain either type of database *)
        throw WrongFormat
      else
        let* _ := modify (fun s => Resolving (disk s)
                    (set_storageEngine (Some kC4ForestDBStorageEngine) (config s))) in
        ret dbFile
    end.

(** ** Data files and transactions *)

Inductive backend : Type := ForestDataFile | SQLiteDataFile.

Definition kNoEncryption : Z := 0.

Record KeyStoreCapabilities : Type := Capabilities {
  sequences : bool;
  softDeletes : bool;
  getByOffset : bool
}.

Record Options : Type := MkOptions {
  keyStores : KeyStoreCapabilities;
  create : bool;
  writeable : bool;
  encryptionAlgorithm : Z;
  optEncryptionKey : option (list byte)
}.

Inductive txn_end : Type := Committed | Aborted.

(** Modelled from the spec: the [DataFile] of the absent [DataFile.hh], as
    far as this file drives it: which backend it is and what it was opened
    with, how each of its transactions ended, whether [deleteDataFile] has
    removed it, and a storage fault, if any, that the next storage
    operation raises. *)
Record DataFile : Type := MkDataFile {
  engine : backend;
  filePath : string;
  options : Options;
  ended : list txn_end;
  deleted : bool;
  fault : option error
}.

(** Modelled from the spec: [Transaction] of the absent [DataFile.hh]:
    [abort()] marks for rollback, the destructor commits if not aborted. *)
Record Transaction : Type := MkTransaction {
  aborted : bool
}.

Definition abort (t : Transaction) : Transaction := MkTransaction true.

Definition end_of (t : Transaction) : txn_end :=
  if aborted t then Aborted else Committed.

Definition newDataFile (path : string) (config : C4DatabaseConfig)
    (isMainDB : bool) : outcome DataFile :=
  let ks :=
    if isMainDB
    then Capabilities true true (negb (kC4DB_V2Format (flags config)))
    else Capabilities false false false in
  let alg := algorithm (encryptionKey config) in
  let opts :=
    MkOptions ks (kC4DB_Create (flags config))
              (negb (kC4DB_ReadOnly (flags config)))
              alg
              (if negb (alg =? kNoEncryption)
               then Some (bytes (encryptionKey config)) else None) in
  match storageEngine config with
  | None => Ok (MkDataFile ForestDataFile path opts [] false None)
  | Some name =>
    if strcmp0 name kC4ForestDBStorageEngine then
      Ok (MkDataFile ForestDataFile path opts [] false None)
    else if strcmp0 name kC4SQLiteStorageEngine then
      Ok (MkDataFile SQLiteDataFile path opts [] false None)
    else Throw Unimplemented
  end.

(** Modelled from the spec: the constructor of a data file
    ([new ForestDataFile(path, &options)], [new SQLiteDataFile(path,
    &options)]) opens the backing file at [path]: a file that is absent is
    materialised under [create], and cannot be opened without it.  The
    disk knows the file by the directory and the name of the [FilePath]
    that [path] was converted from. *)
Definition open_file (p : FilePath) (opts : Options) : M filesystem unit :=
  fun fs =>
    if bool_decide ((dirName p, fileName p) ∈ files fs) then (Ok tt, fs)
    else if create opts then
      (Ok tt, FS (dirs fs) ({[(dirName p, fileName p)]} ∪ files fs))
    else (Throw CantOpenFile, fs).

(** ** The handle *)

Record c4Database : Type := Database {
  db_config : C4DatabaseConfig;
  _db : DataFile;
  _transactionLevel : nat;
  _transaction : option Transaction;
  refCount : Z
}.

(** [c4Database::newDatabase]: resolve the path, then construct the handle
    and retain it once.  The constructor [c4Database::c4Database] sets
    [config] and opens [_db] with [newDataFile(path, config, true)]; the
    two subclasses of the absent [c4DatabaseInternal.hh] add nothing that
    is used here.  [newDataFile] answers the data file that is
    constructed; what its constructor does on the disk is [open_file],
    which runs as soon as [newDataFile] has chosen the backend. *)
Definition newDatabase (pathStr : string) (cfg : C4DatabaseConfig)
    (fs : filesystem) : outcome c4Database * filesystem :=
  let resolved :=
    if kC4DB_Bundled (flags cfg)
    then findOrCreateBundle pathStr (Resolving fs cfg)
    else (Ok (FilePath_of pathStr), Resolving fs cfg) in
  match resolved with
  | (Ok path, r) =>
    match newDataFile (path_string path) (config r) true with
    | Ok df =>
      match open_file path (options df) (disk r) with
      | (Ok _, fs') => (Ok (Database (config r) df 0 None 1), fs')
      | (Throw e, fs') => (Throw e, fs')
      | (Diverge, fs') => (Diverge, fs')
      end
    | Throw e => (Throw e, disk r)
    | Diverge => (Diverge, disk r)
    end
  | (Throw e, r) => (Throw e, disk r)
  | (Diverge, r) => (Diverge, disk r)
  end.

(** [c4db_open]: the handle, or null with the error recorded. *)
Definition c4db_open (path : string) (configP : option C4DatabaseConfig)
    (fs : filesystem) : option c4Database * option error * filesystem :=
  match configP with
  | None => (None, Some InvalidParameter, fs)
  | Some cfg =>
    match newDatabase path cfg fs with
    | (Ok db, fs') => (Some db, None, fs')
    | (Throw e, fs') => (None, Some e, fs')
    | (Diverge, fs') => (None, None, fs')
    end
  end.

(** ** Transactions on the handle *)

Definition set_db (df : DataFile) (d : c4Database) : c4Database :=
  Database (db_config d) df (_transactionLevel d) (_transaction d) (refCount d).
Definition set_transactionLevel (n : nat) (d : c4Database) : c4Database :=
  Database (db_config d) (_db d) n (_transaction d) (refCount d).
Definition set_transaction (t : option Transaction) (d : c4Database)
  : c4Database :=
  Database (db_config d) (_db d) (_transactionLevel d) t (refCount d).

(** [_db->...]: an operation on the data file of the handle. *)
Definition on_db {A} (m : M DataFile A) : M c4Database A :=
  fun d => let (r, df) := m (_db d) in (r, set_db df d).

(** Modelled from the spec: [new Transaction(db)] begins a transaction on
    the data file.  It is a storage operation: it raises the fault of the
    data file, if there is one, and no transaction is begun. *)
Definition new_Transaction : M DataFile Transaction :=
  fun df =>
    match fault df with
    | Some e => (Throw e, df)
    | None => (Ok (MkTransaction false), df)
    end.

(** Modelled from the spec: [delete t] runs the destructor of the
    transaction, which commits it, or rolls it back if it was marked by
    [abort()]; the data file records which.  It is a storage operation:
    it raises the fault of the data file, if there is one, and the data
    file records no end.  [delete] of a null pointer does nothing. *)
Definition delete_transaction (t : option Transaction) : M DataFile unit :=
  fun df =>
    match t with
    | Some t =>
      match fault df with
      | Some e => (Throw e, df)
      | None =>
        (Ok tt, MkDataFile (engine df) (filePath df) (options df)
                           (ended df ++ [end_of t]) (deleted df) (fault df))
      end
    | None => (Ok tt, df)
    end.

(** The level is raised before the [Transaction] is constructed: when the
    constructor throws, the level stays raised and [_transaction] is not
    assigned. *)
Definition beginTransaction : M c4Database unit :=
  let* _ := modify (fun d => set_transactionLevel (S (_transactionLevel d)) d) in
  let* level := gets _transactionLevel in
  if Nat.eqb level 1 then
    let* t := on_db new_Transaction in
    modify (set_transaction (Some t))
  else ret tt.

Definition inTransaction (d : c4Database) : bool :=
  Nat.ltb 0 (_transactionLevel d).

(** After a [beginTransaction] whose constructor threw, the level can
    return to zero while [_transaction] is null: [delete] of the null
    pointer does nothing, and [t->abort()] on it, which C++ leaves
    undefined, is given no effect. *)
Definition endTransaction (commit : bool) : M c4Database bool :=
  let* level := gets _transactionLevel in
  if Nat.eqb level 0 then ret false
  else
    let* _ := modify (set_transactionLevel (Nat.pred level)) in
    let* level' := gets _transactionLevel in
    let* _ :=
      (if Nat.eqb level' 0 then
         let* t := gets _transaction in
         let* _ := modify (set_transaction None) in
         let t := if negb commit then option_map abort t else t in
         (* this commits/aborts the transaction *)
         on_db (delete_transaction t)
       else ret tt) in
    ret true.

(** Modelled from the spec: [DataFile::deleteDataFile] removes the
    database, unless the storage fails. *)
Definition deleteDataFile : M c4Database unit :=
  fun d =>
    let df := _db d in
    match fault df with
    | Some e => (Throw e, d)
    | None =>
      (Ok tt, set_db (MkDataFile (engine df) (filePath df) (options df)
                                 (ended df) true None) d)
    end.

(** ** The C API: a handle and the caller's [C4Error]

    Modelled from the spec: [recordError], [catchError] and [checkParam]
    of the absent [c4Internal.hh].  The boundary catches every failure and
    reports it through the out-parameter and a sentinel return value. *)

Record call : Type := Call {
  database : c4Database;
  outError : option error
}.

Definition on_database {A} (m : M c4Database A) : M call A :=
  fun c =>
    let (r, d) := m (database c) in (r, Call d (outError c)).

Definition recordError (e : error) : M call unit :=
  modify (fun c => Call (database c) (Some e)).

(** [} catchError(outError);] *)
Definition catchError {A} (body : M call A) (otherwise : A) : M call A :=
  try_catch body (fun e => let* _ := recordError e in ret otherwise).

Definition mustNotBeInTransaction : M call bool :=
  let* d := gets database in
  if negb (inTransaction d) then ret true
  else
    let* _ := recordError TransactionNotClosed in
    ret false.

Definition c4db_delete : M call bool :=
  let* ok := mustNotBeInTransaction in
  if negb ok then ret false
  else
    catchError
      (let* d := gets database in
       let* _ := (if refCount d >? 1 then recordError Busy else ret tt) in
       let* _ := on_database deleteDataFile in
       ret true)
      false.

Definition c4db_beginTransaction : M call bool :=
  catchError
    (let* _ := on_database beginTransaction in
     ret true)
    false.

Definition c4db_endTransaction (commit : bool) : M call bool :=
  catchError
    (let* ok := on_database (endTransaction commit) in
     let* _ := (if negb ok then recordError NotInTransaction else ret tt) in
     ret ok)
    false.

(** A sequence of transaction calls on one handle. *)
Inductive txn_call : Type :=
| Begin
| End (commit : bool).

Definition do_call (c : txn_call) (d : c4Database) : c4Database :=
  match c with
  | Begin => snd (beginTransaction d)
  | End commit => snd (endTransaction commit d)
  end.

Definition do_calls (cs : list txn_call) (d : c4Database) : c4Database :=
  fold_left (fun d c => do_call c d) cs d.

End C4.

(* ===================================================================== *)
(** * The storage calls of the C API ([C/c4Database.cc]) *)
(* ===================================================================== *)

Module C4Storage.
Import C4.

(** A [C4Slice]; [None] is the slice whose [buf] is null. *)
Definition C4Slice : Type := option (list byte).

Definition has_buf (s : C4Slice) : bool :=
  match s with Some _ => true | None => false end.

(** Modelled from the spec: the operations of the absent [DataFile.hh] and
    [KeyStore.hh] that these calls make on the data file of the handle.
    Each acts on the data file and may throw; the key-store operations are
    handed the open [Transaction]. *)
Class Storage : Type := {
  KeyStore : Type;
  DataFile_close : M DataFile unit;
  DataFile_compact : M DataFile unit;
  DataFile_rekey : Z -> C4Slice -> M DataFile unit;
  getKeyStore : string -> M DataFile KeyStore;
  KeyStore_set : KeyStore -> C4Slice -> C4Slice -> C4Slice -> Transaction
                 -> M DataFile unit;
  KeyStore_del : KeyStore -> C4Slice -> Transaction -> M DataFile bool
}.

(** Modelled from the spec: [c4Database::transaction()] of the absent
    [c4DatabaseInternal.hh] answers the open transaction and asserts that
    there is one. *)
Definition transaction : M c4Database Transaction :=
  let* t := gets _transaction in
  match t with
  | Some t => ret t
  | None => throw AssertionFailed
  end.

(** A handle argument that may be [NULL], and the caller's [C4Error]. *)
Record nullable_call : Type := NullableCall {
  handle : option c4Database;
  error_out : option error
}.

(** [if (database == NULL) return v;] followed by code that uses the
    handle. *)
Definition unless_null {A} (v : A) (body : M call A) : M nullable_call A :=
  fun c =>
    match handle c with
    | None => (Ok v, c)
    | Some d =>
      let (r, c') := body (Call d (error_out c)) in
      (r, NullableCall (Some (database c')) (outError c'))
    end.

Section Calls.
Context {st : Storage}.

Definition c4db_close : M nullable_call bool :=
  unless_null true
    (let* ok := mustNotBeInTransaction in
     if negb ok then ret false
     else
       catchError
         (let* _ := on_database (on_db DataFile_close) in
          ret true)
         false).

Definition c4db_compact : M call bool :=
  let* ok := mustNotBeInTransaction in
  if negb ok then ret false
  else
    catchError
      (let* _ := on_database (on_db DataFile_compact) in
       ret true)
      false.

(** [c4Database::rekey(database, newKey, outError)], for the data file
    [database->db()] of the handle, as [c4db_rekey] calls it.  The key is
    [slice(newKey->bytes, 32)]. *)
Definition rekey (newKey : option C4EncryptionKey) : M call bool :=
  catchError
    (let* _ :=
       (match newKey with
        | Some k =>
          on_database (on_db (DataFile_rekey (algorithm k)
                                             (Some (prefix 32 (bytes k)))))
        | None => on_database (on_db (DataFile_rekey kNoEncryption None))
        end) in
     ret true)
    false.

Definition c4db_rekey (newKey : option C4EncryptionKey) : M call bool :=
  let* ok := mustNotBeInTransaction in
  if negb ok then ret false
  else rekey newKey.

Definition c4raw_put (storeName : string) (key meta body : C4Slice)
    : M call bool :=
  let* began := c4db_beginTransaction in
  if negb began then ret false
  else
    let* commit :=
      catchError
        (let* localDocs := on_database (on_db (getKeyStore storeName)) in
         let* t := on_database transaction in
         let* _ :=
           (if has_buf body || has_buf meta then
              on_database (on_db (KeyStore_set localDocs key meta body t))
            else
              let* _ := on_database (on_db (KeyStore_del localDocs key t)) in
              ret tt) in
         ret true)
        false in
    let* _ := c4db_endTransaction commit in
    ret commit.

End Calls.

End C4Storage.

(** A storage for the samples: a key store is its name; every operation
    raises the fault of the data file, if it has one, and is otherwise
    accepted. *)
Definition faulty {A} (a : A) : M C4.DataFile A :=
  fun df =>
    match C4.fault df with
    | Some e => (Throw e, df)
    | None => (Ok a, df)
    end.

Definition sample_storage : C4Storage.Storage :=
  {| C4Storage.KeyStore := string;
     C4Storage.DataFile_close := faulty tt;
     C4Storage.DataFile_compact := faulty tt;
     C4Storage.DataFile_rekey := fun _ _ => faulty tt;
     C4Storage.getKeyStore := fun name => faulty name;
     C4Storage.KeyStore_set := fun _ _ _ _ _ => faulty tt;
     C4Storage.KeyStore_del := fun _ _ _ => faulty true |}.

(** Sample data: the bytes of "Hello, BLIP!", a configuration, a handle. *)
Definition hello : slice :=
  [x48; x65; x6c; x6c; x6f; x2c; x20; x42; x4c; x49; x50; x21]%byte.

Definition sample_config : C4.C4DatabaseConfig :=
  C4.Config (C4.Flags true false true true) None (C4.EncryptionKey 0 []).

Definition sample_db (rc : Z) : C4.c4Database :=
  C4.Database sample_config
    (C4.MkDataFile C4.SQLiteDataFile "/tmp/db/db.sqlite3"
       (C4.MkOptions (C4.Capabilities true true false) true true 0 None)
       [] false None)
    0 None rc.

(* ===================================================================== *)
(** * The vocabulary of the properties *)
(* ===================================================================== *)

Section DatabaseVocabulary.
Import C4.

(** The balanced sequences of nested [begin]/[end] calls. *)
Inductive balanced : list txn_call -> Prop :=
| balanced_nil : balanced []
| balanced_nest w1 w2 commit :
    balanced w1 -> balanced w2 ->
    balanced (Begin :: w1 ++ End commit :: w2).

(** The bundle directory was newly created, or holds [db.sqlite3]. *)
Definition created_or_found (path : string) (cfg : C4DatabaseConfig)
    (fs : filesystem) : Prop :=
  (kC4DB_Create (flags cfg) = true /\ path ∉ dirs fs) \/
  (path ∈ dirs fs /\ (path, kSQLiteDatabaseName) ∈ files fs).

End DatabaseVocabulary.

Section CodecVocabulary.
Import Blip.
Import Deflater.
Context {zl : zlib}.

Implicit Types (s : io) (mode : Mode).

(** What [_write] hands to [_flate], and the state it leaves. *)
Definition in_size (maxInput : Z) s : Z :=
  to_unsigned (Z.min (size (input s)) maxInput).
Definition out_size s : Z := to_unsigned (room (output s)).

Definition flate_call (_flate : z_stream -> Z -> slice -> Z -> flate_result z_stream)
    mode (maxInput : Z) s : flate_result z_stream :=
  _flate (_z s) (mode_int mode) (prefix (in_size maxInput s) (input s)) (out_size s).

Definition after_call (_flate : z_stream -> Z -> slice -> Z -> flate_result z_stream)
    mode (maxInput : Z) s : io :=
  let r := flate_call _flate mode maxInput s in
  IO (_checksum s) (next_state r) (moveStart (read r) (input s))
     (WSlice (stored (output s) ++ wrote r) (room (output s) - size (wrote r)))
     (calls s ++ [ZCall (mode_int mode) (in_size maxInput s) (out_size s)
                        (result r) (read r) (size (wrote r))]).

Definition zlib_failed (rc : Z) : bool := (rc <? 0) && negb (rc =? Z_BUF_ERROR).

(** [s'] can follow [s] in a [write]: the checksum is untouched, the input
    has only moved forward, and the room has not grown. *)
Definition follows s s' : Prop :=
  _checksum s' = _checksum s /\
  (exists k : nat, input s' = skipn k (input s)) /\
  room (output s') <= room (output s).

(** Whether the iteration in state [s] takes the sync-flush branch. *)
Definition fits s : bool :=
  room (output s) >=? deflateBound (_z s) (to_unsigned (size (input s))).

Definition step_mode (curMode : Mode) s : Mode :=
  if fits s then SyncFlush else curMode.

Definition step_max s : Z :=
  if fits s then SIZE_MAX else to_size_t (room (output s) - kHeadroomForFlush).

(** The engine never writes more than the room it was given. *)
Definition writes_within
    (_flate : z_stream -> Z -> slice -> Z -> flate_result z_stream) : Prop :=
  forall z flush next_in avail_out,
    0 <= avail_out ->
    size (wrote (_flate z flush next_in avail_out)) <= avail_out.






(** zlib's contract for a flush: a sync-flush call that does not fail and
    returns with room left in the output has written all it had pending. *)
Definition flush_complete : Prop :=
  forall z next_in avail_out,
    let r := deflate z (mode_int SyncFlush) next_in avail_out in
    0 < avail_out -> zlib_failed (result r) = false ->
    size (wrote r) < avail_out ->
    deflatePending (next_state r) = (0, 0, 0).

(** The state is the one a sync-flush engine call has left, and that call
    had room for at most [bound] bytes. *)
Definition sync_flushed (bound : Z) s' : Prop :=
  exists z next_in before,
    before <= bound /\
    let r := deflate z (mode_int SyncFlush) next_in (to_unsigned before) in
    zlib_failed (result r) = false /\
    _z s' = next_state r /\
    room (output s') = before - size (wrote r).

(** The loop as the specification describes it (4.I, steps 3a to 3c): a
    sync-flush call with all the remaining input ends the loop; otherwise
    a partial-flush call is limited to the room less 12 bytes, and the
    loop stops once the room is at or below 100 bytes.  The answer tells
    whether a sync-flush step was taken. *)
Fixpoint spec_flush_loop (fuel : nat) : M io bool :=
  match fuel with
  | O => diverge
  | S fuel' =>
    let* inp := gets input in
    if size inp >? 0 then
      let* out := gets output in
      let* z := gets _z in
      if room out >=? deflateBound z (size inp) then
        let* _ := _write deflate SyncFlush (size inp) in
        ret true
      else
        let* _ := _write deflate PartialFlush (room out - 12) in
        let* out' := gets output in
        if room out' <=? 100 then ret false else spec_flush_loop fuel'
    else ret false
  end.

(** Step 4: one final zero-input sync-flush call if none was taken. *)
Definition spec_writeAndFlush : M io unit :=
  let* fuel := gets flush_fuel in
  let* synced := spec_flush_loop fuel in
  if negb synced then _write deflate SyncFlush 0 else ret tt.

Definition mode_of_flag (synced : bool) : Mode :=
  if synced then SyncFlush else PartialFlush.

Definition as_mode (r : outcome bool * io) : outcome Mode * io :=
  match r with
  | (Ok synced, s) => (Ok (mode_of_flag synced), s)
  | (Throw e, s) => (Throw e, s)
  | (Diverge, s) => (Diverge, s)
  end.

(** zlib's contract for [deflateBound]: a sync-flush call with at least
    that much room reads all the input it is given. *)
Definition bound_honoured : Prop :=
  forall z next_in avail_out,
    deflateBound z (size next_in) <= avail_out ->
    read (deflate z (mode_int SyncFlush) next_in avail_out) = size next_in.

(** zlib's contract for progress: a call that is given input and room
    reads or writes at least one byte. *)
Definition makes_progress : Prop :=
  forall z flush next_in avail_out,
    0 < size next_in -> 0 < avail_out ->
    let r := deflate z flush next_in avail_out in
    0 <= read r /\ 0 < read r + size (wrote r).

End CodecVocabulary.

Section SampleCalls.
Import Blip.


End SampleCalls.

Section CodecAtLargeVocabulary.
Import Blip.
Import Deflater.
Context {zl : zlib}.

Implicit Types (s : io) (mode : Mode).

(** The step that [Deflater::write] takes for a mode other than [Raw],
    before it updates the checksum. *)
Definition deflater_step mode : M io unit :=
  match mode with
  | NoFlush => _write deflate mode SIZE_MAX
  | SyncFlush => _writeAndFlush
  | _ => throw InvalidParameter
  end.

(** A logged engine call in partial-flush or in sync-flush mode. *)
Definition flush_call (c : zcall) : Prop :=
  call_mode c = mode_int PartialFlush \/ call_mode c = mode_int SyncFlush.

(** A log of engine calls whose last entry is a sync-flush call. *)
Definition ends_in_sync (l : list zcall) : Prop :=
  exists l0 c, l = l0 ++ [c] /\ call_mode c = mode_int SyncFlush.

End CodecAtLargeVocabulary.

Section DatabaseAtLargeVocabulary.
Import C4.

(** The handle holds a [Transaction] exactly while its level is above
    zero, and a transaction it holds has not been marked by [abort()]. *)
Definition consistent (d : c4Database) : Prop :=
  match _transaction d with
  | None => _transactionLevel d = 0%nat
  | Some t => (0 < _transactionLevel d)%nat /\ aborted t = false
  end.

(** The name of a storage engine and the file it keeps in a bundle. *)
Definition engine_file (name file : string) : Prop :=
  (name = kC4SQLiteStorageEngine /\ file = kSQLiteDatabaseName) \/
  (name = kC4ForestDBStorageEngine /\ file = kForestDatabaseName).

(** The file that [findOrCreateBundle] looks for first: that of the
    requested engine, [db.sqlite3] when none is requested, none for a name
    it does not know. *)
Definition filename_of (cfg : C4DatabaseConfig) : option string :=
  match storageEngine cfg with
  | None => Some kSQLiteDatabaseName
  | Some name =>
    if strcmp0 name kC4SQLiteStorageEngine then Some kSQLiteDatabaseName
    else if strcmp0 name kC4ForestDBStorageEngine then Some kForestDatabaseName
    else None
  end.

(** Whether a path has a separator in it. *)
Fixpoint contains_separator (path : string) : bool :=
  match path with
  | EmptyString => false
  | String c rest => Ascii.eqb c kSeparatorChar || contains_separator rest
  end.

End DatabaseAtLargeVocabulary.

Section StorageVocabulary.
Import C4 C4Storage.
Context {st : Storage}.

(** What [c4raw_put] asks of the storage: the key store of that name,
    and in it a [del] of the key when [meta] and [body] are both null, a
    [set] otherwise. *)
Definition raw_write (storeName : string) (key meta body : C4Slice)
    (t : Transaction) : M DataFile unit :=
  let* localDocs := getKeyStore storeName in
  match body, meta with
  | None, None =>
    let* _ := KeyStore_del localDocs key t in
    ret tt
  | _, _ => KeyStore_set localDocs key meta body t
  end.

(** What [c4db_rekey] asks of the storage: the algorithm and the 32 bytes
    of the new key, or no encryption and the null slice. *)
Definition rekey_request (newKey : option C4EncryptionKey) : M DataFile unit :=
  match newKey with
  | Some k => DataFile_rekey (algorithm k) (Some (prefix 32 (bytes k)))
  | None => DataFile_rekey kNoEncryption None
  end.

(** The data file after a transaction on it has ended. *)
Definition with_end (e : txn_end) (df : DataFile) : DataFile :=
  MkDataFile (engine df) (filePath df) (options df) (ended df ++ [e])
             (deleted df) (fault df).

(** How the outermost [end] leaves the data file and the caller's error:
    the data file records the end of the transaction, unless the storage
    fails, and then the failure is recorded for the caller. *)
Definition settle (e : txn_end) (df : DataFile) (err : option error)
    : DataFile * option error :=
  match fault df with
  | Some f => (df, Some f)
  | None => (with_end e df, err)
  end.

End StorageVocabulary.

(* ===================================================================== *)
(** * Properties *)
(* ===================================================================== *)


Lemma to_unsigned_small x : 0 <= x < 2 ^ 32 -> to_unsigned x = x.
Proof. intros H. unfold to_unsigned. apply Z.mod_small. exact H. Qed.

Lemma to_size_t_small x : 0 <= x < 2 ^ 64 -> to_size_t x = x.
Proof. intros H. unfold to_size_t. apply Z.mod_small. exact H. Qed.

Lemma size_nonneg s : 0 <= size s.
Proof. unfold size. lia. Qed.

Lemma size_app (a b : slice) : size (a ++ b) = size a + size b.
Proof. unfold size. rewrite length_app. lia. Qed.

Lemma prefix_moveStart n s : prefix n s ++ moveStart n s = s.
Proof. apply firstn_skipn. Qed.

Lemma size_moveStart n s :
  0 <= n <= size s -> size (moveStart n s) = size s - n.
Proof.
  unfold size, moveStart. intros H. rewrite length_skipn. lia.
Qed.

Lemma size_prefix n s : 0 <= n <= size s -> size (prefix n s) = n.
Proof.
  unfold size, prefix. intros H. rewrite length_firstn. lia.
Qed.


Example crc32_check_value :
  crc32 0 [x31; x32; x33; x34; x35; x36; x37; x38; x39]%byte = 0xCBF43926.
Proof. vm_compute. reflexivity. Qed.

Lemma lxor_unsigned_range a b :
  0 <= a < 2 ^ 32 -> 0 <= b < 2 ^ 32 -> 0 <= Z.lxor a b < 2 ^ 32.
Proof.
  intros Ha Hb.
  assert (Hnn : 0 <= Z.lxor a b) by (apply Z.lxor_nonneg; lia).
  split; [exact Hnn|].
  destruct (Z.eq_dec (Z.lxor a b) 0) as [->|Hne]; [lia|].
  apply Z.log2_lt_pow2; [lia|].
  eapply Z.le_lt_trans; [apply Z.log2_lxor; lia|].
  apply Z.max_lub_lt.
  - destruct (Z.eq_dec a 0) as [->|]; [simpl; lia|].
    apply Z.log2_lt_pow2; lia.
  - destruct (Z.eq_dec b 0) as [->|]; [simpl; lia|].
    apply Z.log2_lt_pow2; lia.
Qed.

Lemma shiftr1_unsigned_range c :
  0 <= c < 2 ^ 32 -> 0 <= Z.shiftr c 1 < 2 ^ 32.
Proof.
  intros H. rewrite Z.shiftr_div_pow2 by lia.
  change (2 ^ 1) with 2. split.
  - apply Z.div_pos; lia.
  - apply Z.div_lt_upper_bound; lia.
Qed.

Lemma crc_shift_range c : 0 <= c < 2 ^ 32 -> 0 <= crc_shift c < 2 ^ 32.
Proof.
  intros H. unfold crc_shift.
  pose proof (shiftr1_unsigned_range c H).
  destruct (Z.testbit c 0); [|assumption].
  apply lxor_unsigned_range; [assumption|]. unfold crc_poly. lia.
Qed.

Lemma byte_val_range b : 0 <= byte_val b < 256.
Proof.
  unfold byte_val. pose proof (Byte.to_N_bounded b). lia.
Qed.

Lemma crc_byte_range c b : 0 <= c < 2 ^ 32 -> 0 <= crc_byte c b < 2 ^ 32.
Proof.
  intros H. unfold crc_byte. cbv zeta.
  do 8 apply crc_shift_range.
  apply lxor_unsigned_range; [assumption|].
  pose proof (byte_val_range b). lia.
Qed.

Lemma crc_fold_range data : forall c,
  0 <= c < 2 ^ 32 -> 0 <= fold_left crc_byte data c < 2 ^ 32.
Proof.
  induction data as [|b data IH]; intros c H; simpl; [assumption|].
  apply IH. apply crc_byte_range. assumption.
Qed.

Lemma crc32_range c data : 0 <= c < 2 ^ 32 -> 0 <= crc32 c data < 2 ^ 32.
Proof.
  intros H. unfold crc32.
  apply lxor_unsigned_range; [|lia].
  apply crc_fold_range. apply lxor_unsigned_range; lia.
Qed.




Lemma byte_val_of_Z x : byte_val (byte_of_Z x) = x mod 256.
Proof.
  unfold byte_val, byte_of_Z.
  assert (Hr : 0 <= x mod 256 < 256) by (apply Z.mod_pos_bound; lia).
  destruct (Byte.of_N (Z.to_N (x mod 256))) as [b|] eqn:E.
  - apply Byte.to_of_N in E. rewrite E. lia.
  - apply Byte.of_N_None_iff in E. lia.
Qed.

Lemma dec32_enc32 x : 0 <= x < 2 ^ 32 -> dec32 (enc32 x) = x.
Proof.
  intros H. unfold dec32, enc32. simpl.
  rewrite !byte_val_of_Z, !Z.shiftr_div_pow2 by lia.
  change (2 ^ 24) with (256 * 256 * 256). change (2 ^ 16) with (256 * 256).
  change (2 ^ 8) with 256.
  rewrite <- !Z.div_div by lia.
  set (q1 := x / 256). set (q2 := q1 / 256). set (q3 := q2 / 256).
  assert (q3 < 256).
  { subst q3 q2 q1. rewrite !Z.div_div by lia.
    apply Z.div_lt_upper_bound; lia. }
  assert (0 <= q3).
  { subst q3 q2 q1. rewrite !Z.div_div by lia. apply Z.div_pos; lia. }
  rewrite (Z.mod_small q3) by lia.
  pose proof (Z.div_mod x 256 ltac:(lia)).
  pose proof (Z.div_mod q1 256 ltac:(lia)).
  pose proof (Z.div_mod q2 256 ltac:(lia)).
  fold q1 in H2. fold q2 in H3. fold q3 in H4. lia.
Qed.

Lemma dec32_range bs : length bs = 4%nat -> 0 <= dec32 bs < 2 ^ 32.
Proof.
  intros H. destruct bs as [|a [|b [|c [|d [|]]]]]; try discriminate.
  unfold dec32. simpl.
  pose proof (byte_val_range a). pose proof (byte_val_range b).
  pose proof (byte_val_range c). pose proof (byte_val_range d). lia.
Qed.




Lemma mode_eqb_eq a b : Blip.mode_eqb a b = true <-> a = b.
Proof.
  unfold Blip.mode_eqb. rewrite Z.eqb_eq.
  destruct a, b; simpl; split; intros H; try reflexivity; discriminate.
Qed.

(* ===================================================================== *)
(** ** The database handle *)
(* ===================================================================== *)

Ltac run := unfold bind, ret, throw, gets, modify, try_catch; simpl.

Section DatabaseProperties.
Import C4.

(** *** Deleting *)

Lemma c4db_delete_in_transaction d err :
  inTransaction d = true ->
  c4db_delete (Call d err) = (Ok false, Call d (Some TransactionNotClosed)).
Proof.
  intros H. unfold c4db_delete, mustNotBeInTransaction, recordError. run.
  rewrite H. reflexivity.
Qed.

Lemma c4db_delete_shared d err :
  inTransaction d = false -> 1 < refCount d -> fault (_db d) = None ->
  exists d',
    c4db_delete (Call d err) = (Ok true, Call d' (Some Busy)) /\
    deleted (_db d') = true.
Proof.
  intros Ht Hrc Hf.
  unfold c4db_delete, mustNotBeInTransaction, catchError, recordError,
    on_database, deleteDataFile. run.
  rewrite Ht. simpl.
  assert (E : (refCount d >? 1) = true) by lia. rewrite E. simpl.
  rewrite Hf. simpl. eexists. split; reflexivity.
Qed.

Lemma c4db_delete_last_reference d err :
  inTransaction d = false -> refCount d <= 1 -> fault (_db d) = None ->
  exists d',
    c4db_delete (Call d err) = (Ok true, Call d' err) /\
    deleted (_db d') = true.
Proof.
  intros Ht Hrc Hf.
  unfold c4db_delete, mustNotBeInTransaction, catchError, recordError,
    on_database, deleteDataFile. run.
  rewrite Ht. simpl.
  assert (E : (refCount d >? 1) = false) by lia. rewrite E. simpl.
  rewrite Hf. simpl. eexists. split; reflexivity.
Qed.

(** C1.  [c4db_delete] on a handle that is referenced twice and is not in
    a transaction records [Busy] in the caller's error, and then goes on:
    it deletes the data file and returns [true]. *)
Theorem c4db_delete_busy_deletes_anyway :
  let r := c4db_delete (Call (sample_db 2) None) in
  refCount (sample_db 2) = 2 /\
  inTransaction (sample_db 2) = false /\
  deleted (_db (sample_db 2)) = false /\
  fst r = Ok true /\
  outError (snd r) = Some Busy /\
  deleted (_db (database (snd r))) = true.
Proof. vm_compute. repeat split; reflexivity. Qed.

(** *** Nested transactions *)

Lemma do_calls_app w1 w2 d :
  do_calls (w1 ++ w2) d = do_calls w2 (do_calls w1 d).
Proof. unfold do_calls. apply fold_left_app. Qed.

Lemma do_calls_cons c w d : do_calls (c :: w) d = do_calls w (do_call c d).
Proof. reflexivity. Qed.

Lemma begin_nested d :
  (0 < _transactionLevel d)%nat ->
  do_call Begin d = set_transactionLevel (S (_transactionLevel d)) d.
Proof.
  intros H. unfold do_call, beginTransaction. run.
  destruct (_transactionLevel d) as [|n]; [lia|]. reflexivity.
Qed.

Lemma end_nested commit d :
  (1 < _transactionLevel d)%nat ->
  do_call (End commit) d = set_transactionLevel (Nat.pred (_transactionLevel d)) d.
Proof.
  intros H. unfold do_call, endTransaction. run.
  destruct (_transactionLevel d) as [|[|n]]; [lia|lia|]. reflexivity.
Qed.

(** Inside a transaction, a balanced sequence leaves the handle as it
    found it: inner calls only count the level up and down. *)
Lemma balanced_inside w :
  balanced w ->
  forall d, (0 < _transactionLevel d)%nat -> do_calls w d = d.
Proof.
  induction 1 as [|w1 w2 commit _ IH1 _ IH2]; intros d Hd; [reflexivity|].
  rewrite do_calls_cons, do_calls_app, do_calls_cons.
  rewrite begin_nested by exact Hd.
  rewrite IH1 by (simpl; lia).
  rewrite end_nested by (simpl; lia).
  simpl. rewrite IH2.
  - destruct d; reflexivity.
  - destruct d; simpl in *; exact Hd.
Qed.

(** The outermost [begin]: the level goes to one, and the [Transaction]
    is constructed unless the storage fails. *)
Lemma begin_outermost d :
  _transactionLevel d = 0%nat ->
  beginTransaction d =
  match fault (_db d) with
  | Some e => (Throw e, Database (db_config d) (_db d) 1 (_transaction d)
                                 (refCount d))
  | None => (Ok tt, Database (db_config d) (_db d) 1
                             (Some (MkTransaction false)) (refCount d))
  end.
Proof.
  intros H. unfold beginTransaction, on_db, new_Transaction. run.
  rewrite H. simpl. destruct (fault (_db d)); reflexivity.
Qed.

(** The outermost [end] of a transaction that is held: the level goes to
    zero and the handle lets go of the [Transaction], which is committed,
    or rolled back when [commit] is false, unless the storage fails. *)
Lemma end_outermost commit d t :
  _transactionLevel d = 1%nat -> _transaction d = Some t ->
  endTransaction commit d =
  match fault (_db d) with
  | Some e => (Throw e, Database (db_config d) (_db d) 0 None (refCount d))
  | None =>
    (Ok true,
     Database (db_config d)
       (with_end (end_of (if commit then t else abort t)) (_db d))
       0 None (refCount d))
  end.
Proof.
  intros Hl Ht. unfold endTransaction, on_db, delete_transaction. run.
  rewrite Hl. simpl. rewrite Ht. unfold with_end.
  destruct commit; simpl; destruct (fault (_db d)) eqn:Ef; reflexivity.
Qed.

(** C2, as the code has it.  For a balanced sequence of nested calls on a
    handle that is not in a transaction, on storage that does not fail,
    the commit flag of the outermost [end] alone decides the fate of the
    DataFile transaction: it is rolled back exactly when that flag is
    [false], whatever the inner [end]s were given. *)
Theorem outermost_end_decides w commit d :
  balanced w -> _transactionLevel d = 0%nat -> fault (_db d) = None ->
  let d' := do_calls (Begin :: w ++ [End commit]) d in
  _transactionLevel d' = 0%nat /\
  _transaction d' = None /\
  ended (_db d') = ended (_db d) ++ [if commit then Committed else Aborted].
Proof.
  intros Hw Hd Hf. cbv zeta.
  rewrite do_calls_cons, do_calls_app.
  assert (Hb : do_call Begin d =
               Database (db_config d) (_db d) 1 (Some (MkTransaction false))
                        (refCount d)).
  { unfold do_call. rewrite (begin_outermost d Hd), Hf. reflexivity. }
  rewrite Hb. rewrite (balanced_inside w Hw) by (simpl; lia).
  unfold do_calls, fold_left, do_call.
  rewrite (end_outermost commit _ (MkTransaction false)) by reflexivity.
  cbn [_db]. rewrite Hf.
  destruct commit; repeat split; reflexivity.
Qed.

Lemma outermost_end_decides_witness :
  let d' := do_calls (Begin :: [Begin; End false] ++ [End true]) (sample_db 1) in
  _transactionLevel d' = 0%nat /\
  _transaction d' = None /\
  ended (_db d') = ended (_db (sample_db 1)) ++ [Committed].
Proof.
  apply (outermost_end_decides [Begin; End false] true (sample_db 1)).
  - apply (balanced_nest [] [] false); constructor.
  - reflexivity.
  - reflexivity.
Defined.

(** C2, as the specification words it, fails: after an inner [end(false)]
    the outermost [end(true)] still commits. *)
Lemma inner_abort_is_not_sticky :
  In (End false) [Begin; End false] /\
  ended (_db (do_calls [Begin; Begin; End false; End true] (sample_db 1)))
    = [Committed] /\
  ended (_db (do_calls [Begin; Begin; End false; End true] (sample_db 1)))
    <> [Aborted].
Proof.
  split; [right; left; reflexivity|].
  split; [vm_compute; reflexivity|].
  vm_compute. discriminate.
Qed.

(** *** Choosing the storage engine *)

Lemma is_dir_true fs path : path ∈ dirs fs -> is_dir fs (Path path "") = true.
Proof. intros H. unfold is_dir. simpl. apply bool_decide_eq_true_2, H. Qed.

Lemma is_dir_false fs path : path ∉ dirs fs -> is_dir fs (Path path "") = false.
Proof. intros H. unfold is_dir. simpl. apply bool_decide_eq_false_2, H. Qed.

Lemma db_file_exists fs path name :
  name <> "" ->
  path_exists fs (Path path name) = bool_decide ((path, name) ∈ files fs).
Proof.
  intros H. unfold path_exists. simpl.
  apply String.eqb_neq in H. rewrite H. reflexivity.
Qed.

(** The first steps of [findOrCreateBundle] in a directory that exists,
    and in one that is absent and gets created. *)
Lemma bundle_dir_extant path cfg fs name :
  path ∈ dirs fs ->
  (match storageEngine cfg with
   | None => Some kSQLiteDatabaseName
   | Some e => if strcmp0 e kC4SQLiteStorageEngine then Some kSQLiteDatabaseName
               else if strcmp0 e kC4ForestDBStorageEngine
                    then Some kForestDatabaseName else None
   end) = Some name ->
  findOrCreateBundle path (Resolving fs cfg)
  = (if path_exists fs (Path path name) then
       match storageEngine cfg with
       | None => (Ok (Path path name),
                  Resolving fs (set_storageEngine (Some kC4SQLiteStorageEngine) cfg))
       | Some _ => (Ok (Path path name), Resolving fs cfg)
       end
     else
       match storageEngine cfg with
       | Some _ => (Throw WrongFormat, Resolving fs cfg)
       | None =>
         if negb (path_exists fs (Path path kForestDatabaseName))
         then (Throw WrongFormat, Resolving fs cfg)
         else (Ok (Path path kForestDatabaseName),
               Resolving fs (set_storageEngine (Some kC4ForestDBStorageEngine) cfg))
       end).
Proof.
  intros Hd Hn. unfold findOrCreateBundle, mkdir, mustExistAsDir. run.
  destruct (kC4DB_Create (flags cfg)); simpl.
  all: repeat (rewrite (is_dir_true _ _ Hd); simpl).
  all: destruct (storageEngine cfg) as [e|]; simpl in *.
  all: try (destruct (strcmp0 e kC4SQLiteStorageEngine);
            [|destruct (strcmp0 e kC4ForestDBStorageEngine); [|discriminate]]).
  all: injection Hn as <-; unfold subpath; simpl.
  all: repeat match goal with
       | |- context [path_exists ?f ?p] => destruct (path_exists f p); simpl
       end; reflexivity.
Qed.

(** C3, as the code has it.  With [storageEngine] null, bundle resolution
    sets the engine to "SQLite" when it has created the directory or found
    [db.sqlite3], and the data file then constructed from the resolved
    configuration is the SQLite one; [newDataFile] itself, handed a null
    engine, constructs the ForestDB data file. *)
Theorem unspecified_engine path cfg fs :
  storageEngine cfg = None ->
  (created_or_found path cfg fs ->
   exists fs' df,
     findOrCreateBundle path (Resolving fs cfg)
       = (Ok (Path path kSQLiteDatabaseName),
          Resolving fs' (set_storageEngine (Some kC4SQLiteStorageEngine) cfg)) /\
     newDataFile (path_string (Path path kSQLiteDatabaseName))
                 (set_storageEngine (Some kC4SQLiteStorageEngine) cfg) true
       = Ok df /\
     engine df = SQLiteDataFile) /\
  (forall p isMainDB,
     exists df, newDataFile p cfg isMainDB = Ok df /\ engine df = ForestDataFile).
Proof.
  intros He. split.
  - intros [[Hc Hd]|[Hd Hf]].
    + eexists. eexists. split; [|split; [reflexivity|reflexivity]].
      unfold findOrCreateBundle, mkdir, mustExistAsDir. run.
      rewrite Hc. simpl. rewrite (is_dir_false _ _ Hd). simpl.
      rewrite He. simpl. reflexivity.
    + exists fs. eexists. split; [|split; [reflexivity|reflexivity]].
      rewrite (bundle_dir_extant path cfg fs kSQLiteDatabaseName Hd)
        by (rewrite He; reflexivity).
      rewrite db_file_exists by discriminate.
      rewrite (bool_decide_eq_true_2 _ Hf), He. reflexivity.
  - intros p isMainDB. unfold newDataFile. rewrite He.
    eexists. split; reflexivity.
Qed.

Lemma unspecified_engine_witness :
  (exists fs' df,
     findOrCreateBundle "/tmp/db/" (Resolving (FS ∅ ∅) sample_config)
       = (Ok (Path "/tmp/db/" kSQLiteDatabaseName),
          Resolving fs' (set_storageEngine (Some kC4SQLiteStorageEngine)
                                           sample_config)) /\
     newDataFile (path_string (Path "/tmp/db/" kSQLiteDatabaseName))
                 (set_storageEngine (Some kC4SQLiteStorageEngine) sample_config)
                 true = Ok df /\
     engine df = SQLiteDataFile) /\
  (exists df,
     newDataFile "/tmp/db" sample_config true = Ok df /\
     engine df = ForestDataFile).
Proof.
  destruct (unspecified_engine "/tmp/db/" sample_config (FS ∅ ∅) eq_refl)
    as [Hbundle Hplain].
  split.
  - apply Hbundle. left. split; [reflexivity|]. set_solver.
  - apply Hplain.
Defined.

(** C3, as the specification words it, fails: opening a plain path with
    the engine left unspecified constructs the ForestDB data file. *)
Lemma unspecified_engine_plain_path_is_forest :
  let cfg := Config (Flags true false false true) None (EncryptionKey 0 []) in
  storageEngine cfg = None /\
  (exists df, newDataFile "/tmp/db" cfg true = Ok df /\
              engine df = ForestDataFile /\ engine df <> SQLiteDataFile) /\
  (exists d, fst (fst (c4db_open "/tmp/db" (Some cfg) (FS ∅ ∅))) = Some d /\
             engine (_db d) = ForestDataFile /\
             engine (_db d) <> SQLiteDataFile).
Proof.
  cbv zeta. split; [reflexivity|]. split.
  - eexists. split; [reflexivity|]. split; [reflexivity|discriminate].
  - eexists. split; [vm_compute; reflexivity|].
    split; [reflexivity|discriminate].
Qed.

(** C4.  In a bundle directory that exists, with no engine requested and
    no [db.sqlite3], resolution takes [db.forestdb] if it is there and
    sets the engine to "ForestDB"; with neither file it fails with
    [WrongFormat]; and when the file of a requested engine is missing it
    fails with [WrongFormat]. *)
Theorem extant_bundle_resolution path cfg fs :
  path ∈ dirs fs ->
  (storageEngine cfg = None ->
   (path, kSQLiteDatabaseName) ∉ files fs ->
   (path, kForestDatabaseName) ∈ files fs ->
   findOrCreateBundle path (Resolving fs cfg)
     = (Ok (Path path kForestDatabaseName),
        Resolving fs (set_storageEngine (Some kC4ForestDBStorageEngine) cfg))) /\
  (storageEngine cfg = None ->
   (path, kSQLiteDatabaseName) ∉ files fs ->
   (path, kForestDatabaseName) ∉ files fs ->
   findOrCreateBundle path (Resolving fs cfg)
     = (Throw WrongFormat, Resolving fs cfg)) /\
  (forall name,
   storageEngine cfg = Some name ->
   (name = kC4SQLiteStorageEngine /\ (path, kSQLiteDatabaseName) ∉ files fs) \/
   (name = kC4ForestDBStorageEngine /\ (path, kForestDatabaseName) ∉ files fs) ->
   findOrCreateBundle path (Resolving fs cfg)
     = (Throw WrongFormat, Resolving fs cfg)).
Proof.
  intros Hd. repeat split.
  - intros He Hs Hf.
    rewrite (bundle_dir_extant path cfg fs kSQLiteDatabaseName Hd)
      by (rewrite He; reflexivity).
    rewrite !db_file_exists by discriminate.
    rewrite (bool_decide_eq_false_2 _ Hs), (bool_decide_eq_true_2 _ Hf), He.
    reflexivity.
  - intros He Hs Hf.
    rewrite (bundle_dir_extant path cfg fs kSQLiteDatabaseName Hd)
      by (rewrite He; reflexivity).
    rewrite !db_file_exists by discriminate.
    rewrite (bool_decide_eq_false_2 _ Hs), (bool_decide_eq_false_2 _ Hf), He.
    reflexivity.
  - intros name He [[-> Hs]|[-> Hf]].
    + rewrite (bundle_dir_extant path cfg fs kSQLiteDatabaseName Hd)
        by (rewrite He; reflexivity).
      rewrite !db_file_exists by discriminate.
      rewrite (bool_decide_eq_false_2 _ Hs), He. reflexivity.
    + rewrite (bundle_dir_extant path cfg fs kForestDatabaseName Hd)
        by (rewrite He; reflexivity).
      rewrite !db_file_exists by discriminate.
      rewrite (bool_decide_eq_false_2 _ Hf), He. reflexivity.
Qed.

Lemma extant_bundle_resolution_witness :
  let fs := FS {["/tmp/db/"]} {[("/tmp/db/", kForestDatabaseName)]} in
  let cfg := Config (Flags false false true true) None (EncryptionKey 0 []) in
  findOrCreateBundle "/tmp/db/" (Resolving fs cfg)
  = (Ok (Path "/tmp/db/" kForestDatabaseName),
     Resolving fs (set_storageEngine (Some kC4ForestDBStorageEngine) cfg)).
Proof.
  intros fs cfg.
  assert (Hd : "/tmp/db/" ∈ dirs fs) by (subst fs; simpl; set_solver).
  destruct (extant_bundle_resolution "/tmp/db/" cfg fs Hd) as [Hfallback _].
  apply Hfallback.
  - reflexivity.
  - subst fs. simpl. unfold kSQLiteDatabaseName, kForestDatabaseName.
    set_solver.
  - subst fs. simpl. set_solver.
Defined.

(** C5, as the code has it.  For a storage engine that is neither
    "SQLite" nor "ForestDB": bundle resolution fails with
    [InvalidParameter] once the bundle directory exists or may be created;
    [newDataFile] fails with [Unimplemented], and that is the error an
    open of a plain path records. *)
Theorem unknown_engine path cfg fs name :
  storageEngine cfg = Some name ->
  name <> kC4SQLiteStorageEngine -> name <> kC4ForestDBStorageEngine ->
  (path ∈ dirs fs \/ kC4DB_Create (flags cfg) = true ->
   fst (findOrCreateBundle path (Resolving fs cfg)) = Throw InvalidParameter) /\
  (forall p isMainDB, newDataFile p cfg isMainDB = Throw Unimplemented) /\
  (kC4DB_Bundled (flags cfg) = false ->
   c4db_open path (Some cfg) fs = (None, Some Unimplemented, fs)).
Proof.
  intros He Hs Hf.
  apply String.eqb_neq in Hs. apply String.eqb_neq in Hf.
  assert (Hnew : forall p isMainDB, newDataFile p cfg isMainDB = Throw Unimplemented).
  { intros p isMainDB. unfold newDataFile, strcmp0. rewrite He, Hf, Hs.
    reflexivity. }
  repeat split.
  - intros Hdir. unfold findOrCreateBundle, mkdir, mustExistAsDir, strcmp0. run.
    destruct (decide (path ∈ dirs fs)) as [Hd|Hd].
    + destruct (kC4DB_Create (flags cfg)); simpl;
        repeat (rewrite (is_dir_true _ _ Hd); simpl);
        rewrite He, Hs, Hf; reflexivity.
    + destruct Hdir as [Hd'|Hc]; [contradiction|].
      rewrite Hc. simpl. rewrite (is_dir_false _ _ Hd). simpl.
      rewrite He, Hs, Hf. reflexivity.
  - exact Hnew.
  - intros Hb. unfold c4db_open, newDatabase. rewrite Hb. simpl.
    rewrite Hnew. reflexivity.
Qed.

Lemma unknown_engine_witness :
  let cfg := Config (Flags true false false true) (Some "LevelDB")
                    (EncryptionKey 0 []) in
  fst (findOrCreateBundle "/tmp/db/" (Resolving (FS ∅ ∅) cfg))
    = Throw InvalidParameter /\
  newDataFile "/tmp/db" cfg true = Throw Unimplemented /\
  c4db_open "/tmp/db" (Some cfg) (FS ∅ ∅) = (None, Some Unimplemented, FS ∅ ∅).
Proof.
  intros cfg.
  assert (Hs : "LevelDB" <> kC4SQLiteStorageEngine) by discriminate.
  assert (Hf : "LevelDB" <> kC4ForestDBStorageEngine) by discriminate.
  destruct (unknown_engine "/tmp/db/" cfg (FS ∅ ∅) "LevelDB" eq_refl Hs Hf)
    as [Hbundle [Hnew _]].
  destruct (unknown_engine "/tmp/db" cfg (FS ∅ ∅) "LevelDB" eq_refl Hs Hf)
    as [_ [_ Hopen]].
  split; [apply Hbundle; right; reflexivity|].
  split; [apply Hnew|apply Hopen; reflexivity].
Defined.

(** C5, as the specification words it, fails: opening a plain path with an
    unknown engine records [Unimplemented], not [InvalidParameter]. *)
Lemma unknown_engine_plain_path_is_unimplemented :
  let cfg := Config (Flags true false false true) (Some "LevelDB")
                    (EncryptionKey 0 []) in
  snd (fst (c4db_open "/tmp/db" (Some cfg) (FS ∅ ∅))) = Some Unimplemented /\
  snd (fst (c4db_open "/tmp/db" (Some cfg) (FS ∅ ∅))) <> Some InvalidParameter.
Proof.
  cbv zeta. split; [vm_compute; reflexivity|vm_compute; discriminate].
Qed.

End DatabaseProperties.

(* ===================================================================== *)
(** ** The codec *)
(* ===================================================================== *)

Section CodecProperties.
Import Blip.
Context {zl : zlib}.

Implicit Types (s : io) (mode : Mode).

(** *** One engine call *)

Lemma _write_eq _flate mode maxInput s :
  _write _flate mode maxInput s =
  if out_size s >? 0 then
    if mode_int mode >? mode_int Raw then
      let r := flate_call _flate mode maxInput s in
      if zlib_failed (result r) then
        (Throw (CorruptData (ZlibErrorMsg (result r) (z_msg (next_state r)))),
         after_call _flate mode maxInput s)
      else (Ok tt, after_call _flate mode maxInput s)
    else (Throw AssertionFailed, s)
  else (Throw AssertionFailed, s).
Proof.
  unfold _write, Assert, check, after_call, flate_call, in_size, out_size,
    zlib_failed. run.
  destruct (to_unsigned (room (output s)) >? 0); [|reflexivity]. simpl.
  destruct (mode_int mode >? -1); [|reflexivity]. simpl.
  match goal with |- context [(?a <? 0) && negb (?a =? Z_BUF_ERROR)] =>
    destruct ((a <? 0) && negb (a =? Z_BUF_ERROR)) end; reflexivity.
Qed.


Lemma _write_ok _flate mode maxInput s u s' :
  _write _flate mode maxInput s = (Ok u, s') ->
  0 < out_size s /\ s' = after_call _flate mode maxInput s.
Proof.
  rewrite _write_eq.
  destruct (out_size s >? 0) eqn:E; [|discriminate].
  destruct (mode_int mode >? mode_int Raw); [|discriminate].
  cbv zeta. destruct (zlib_failed _); intros [= _ <-].
  split; [lia|reflexivity].
Qed.

Lemma _write_never_diverges _flate mode maxInput s s' :
  _write _flate mode maxInput s <> (Diverge, s').
Proof.
  rewrite _write_eq.
  destruct (out_size s >? 0); [|discriminate].
  destruct (mode_int mode >? mode_int Raw); [|discriminate].
  cbv zeta. destruct (zlib_failed _); discriminate.
Qed.

(** *** The checksum trailer *)

Lemma readAndVerifyChecksum_eq s :
  readAndVerifyChecksum s =
  if size (input s) <? 4 then
    (Throw (CorruptData (Msg "BLIP message ends before checksum")), s)
  else if dec32 (prefix 4 (input s)) =? _checksum s then
    (Ok tt, set_input (moveStart 4 (input s)) s)
  else
    (Throw (CorruptData (Msg "BLIP message invalid checksum")),
     set_input (moveStart 4 (input s)) s).
Proof.
  unfold readAndVerifyChecksum, readInto, kChecksumSize. run.
  destruct (size (input s) <? 4) eqn:E; [reflexivity|]. simpl.
  rewrite E. simpl.
  destruct (dec32 (prefix 4 (input s)) =? _checksum s); reflexivity.
Qed.

(** C8.  [readAndVerifyChecksum] on an input of fewer than four bytes
    throws [CorruptData] ("ends before checksum") and leaves the input
    where it was.  Otherwise it moves the input exactly four bytes
    forward, whatever the outcome, and touches nothing else; it throws
    [CorruptData] ("invalid checksum") when the big-endian value of those
    four bytes differs from [_checksum], and returns when it is equal. *)
Theorem readAndVerifyChecksum_spec s :
  (size (input s) < 4 ->
   readAndVerifyChecksum s
   = (Throw (CorruptData (Msg "BLIP message ends before checksum")), s)) /\
  (4 <= size (input s) ->
   snd (readAndVerifyChecksum s) = set_input (moveStart 4 (input s)) s /\
   size (input (snd (readAndVerifyChecksum s))) = size (input s) - 4 /\
   (dec32 (prefix 4 (input s)) <> _checksum s ->
    fst (readAndVerifyChecksum s)
    = Throw (CorruptData (Msg "BLIP message invalid checksum"))) /\
   (dec32 (prefix 4 (input s)) = _checksum s ->
    fst (readAndVerifyChecksum s) = Ok tt)).
Proof.
  rewrite readAndVerifyChecksum_eq. split.
  - intros H. assert (E : (size (input s) <? 4) = true) by lia.
    rewrite E. reflexivity.
  - intros H. assert (E : (size (input s) <? 4) = false) by lia.
    rewrite E.
    destruct (dec32 (prefix 4 (input s)) =? _checksum s) eqn:Ec; simpl.
    + repeat split.
      * rewrite size_moveStart; lia.
      * intros Hne. apply Z.eqb_eq in Ec. contradiction.
    + repeat split.
      * rewrite size_moveStart; lia.
      * intros Heq. apply Z.eqb_neq in Ec. contradiction.
Qed.

(** What [writeChecksum] stores is accepted by [readAndVerifyChecksum] of
    a codec that holds the same checksum. *)
Lemma written_checksum_verifies s t rest :
  0 <= _checksum s < 2 ^ 32 -> 4 <= room (output s) ->
  _checksum t = _checksum s ->
  let s' := snd (writeChecksum s) in
  fst (writeChecksum s) = Ok tt /\
  stored (output s') = stored (output s) ++ enc32 (_checksum s) /\
  readAndVerifyChecksum (set_input (enc32 (_checksum s) ++ rest) t)
  = (Ok tt, set_input rest t).
Proof.
  intros Hc Hr Ht.
  assert (E : (room (output s) <? size (enc32 (_checksum s))) = false).
  { apply Z.ltb_ge. change (size (enc32 (_checksum s))) with 4. lia. }
  cbv zeta. split; [|split].
  1, 2: unfold writeChecksum, writeFrom, Assert; run; rewrite E; reflexivity.
  rewrite readAndVerifyChecksum_eq.
  change (input (set_input (enc32 (_checksum s) ++ rest) t))
    with (enc32 (_checksum s) ++ rest).
  change (_checksum (set_input (enc32 (_checksum s) ++ rest) t))
    with (_checksum t).
  change (prefix 4 (enc32 (_checksum s) ++ rest)) with (enc32 (_checksum s)).
  change (moveStart 4 (enc32 (_checksum s) ++ rest)) with rest.
  assert (E4 : (size (enc32 (_checksum s) ++ rest) <? 4) = false).
  { apply Z.ltb_ge. rewrite size_app.
    change (size (enc32 (_checksum s))) with 4. pose proof (size_nonneg rest).
    lia. }
  rewrite E4, Ht, dec32_enc32 by exact Hc. rewrite Z.eqb_refl.
  destruct t; reflexivity.
Qed.

(** *** What engine calls preserve *)

Lemma follows_refl s : follows s s.
Proof.
  split; [reflexivity|]. split; [exists 0%nat; reflexivity|lia].
Qed.

Lemma follows_trans s1 s2 s3 : follows s1 s2 -> follows s2 s3 -> follows s1 s3.
Proof.
  intros (Hc1 & [k1 Hi1] & Hr1) (Hc2 & [k2 Hi2] & Hr2).
  split; [congruence|]. split; [|lia].
  exists (k2 + k1)%nat. rewrite Hi2, Hi1. apply skipn_skipn.
Qed.

Lemma after_call_follows _flate mode maxInput s :
  follows s (after_call _flate mode maxInput s).
Proof.
  split; [reflexivity|]. split.
  - eexists. reflexivity.
  - simpl. pose proof (size_nonneg (wrote (flate_call _flate mode maxInput s))).
    lia.
Qed.

Lemma _write_follows _flate mode maxInput s o s' :
  _write _flate mode maxInput s = (o, s') -> follows s s'.
Proof.
  rewrite _write_eq.
  destruct (out_size s >? 0); [|intros [= _ <-]; apply follows_refl].
  destruct (mode_int mode >? mode_int Raw);
    [|intros [= _ <-]; apply follows_refl].
  cbv zeta. destruct (zlib_failed _); intros [= _ <-];
    apply after_call_follows.
Qed.


(** *** The flush loop, one iteration at a time *)

Import Deflater.

Lemma flush_loop_S fuel curMode s :
  flush_loop (S fuel) curMode s =
  if size (input s) >? 0 then
    match _write deflate (step_mode curMode s) (step_max s) s with
    | (Ok _, s1) =>
      if room (output s1) <=? kStopAtOutputSize
      then (Ok (step_mode curMode s), s1)
      else flush_loop fuel (step_mode curMode s) s1
    | (Throw e, s1) => (Throw e, s1)
    | (Diverge, s1) => (Diverge, s1)
    end
  else (Ok curMode, s).
Proof.
  simpl. unfold step_mode, step_max, fits. run.
  destruct (size (input s) >? 0); [|reflexivity]. simpl.
  destruct (room (output s) >=? _); simpl.
  - destruct (_write deflate SyncFlush SIZE_MAX s) as [[u|e|] s1]; try reflexivity.
    simpl. destruct (room (output s1) <=? kStopAtOutputSize); reflexivity.
  - destruct (_write deflate curMode _ s) as [[u|e|] s1]; try reflexivity.
    simpl. destruct (room (output s1) <=? kStopAtOutputSize); reflexivity.
Qed.

Lemma flush_loop_follows fuel : forall curMode s o s',
  flush_loop fuel curMode s = (o, s') -> follows s s'.
Proof.
  induction fuel as [|fuel IH]; intros curMode s o s'.
  - intros [= _ <-]. apply follows_refl.
  - rewrite flush_loop_S.
    destruct (size (input s) >? 0); [|intros [= _ <-]; apply follows_refl].
    destruct (_write deflate _ _ s) as [[u|e|] s1] eqn:Ew;
      apply _write_follows in Ew.
    + destruct (room (output s1) <=? kStopAtOutputSize).
      * intros [= _ <-]. exact Ew.
      * intros H. apply IH in H. eapply follows_trans; eassumption.
    + intros [= _ <-]. exact Ew.
    + intros [= _ <-]. exact Ew.
Qed.

Lemma _writeAndFlush_eq s :
  _writeAndFlush s =
  match flush_loop (flush_fuel s) PartialFlush s with
  | (Ok curMode, s1) =>
    if negb (mode_eqb curMode SyncFlush) then _write deflate SyncFlush 0 s1
    else (Ok tt, s1)
  | (Throw e, s1) => (Throw e, s1)
  | (Diverge, s1) => (Diverge, s1)
  end.
Proof.
  unfold _writeAndFlush, bind, gets, ret.
  destruct (flush_loop (flush_fuel s) PartialFlush s) as [[m|e|] s1];
    try reflexivity.
  destruct (negb (mode_eqb m SyncFlush)); reflexivity.
Qed.

Lemma _writeAndFlush_follows s o s' :
  _writeAndFlush s = (o, s') -> follows s s'.
Proof.
  rewrite _writeAndFlush_eq.
  destruct (flush_loop (flush_fuel s) PartialFlush s) as [[m|e|] s1] eqn:El;
    apply flush_loop_follows in El.
  - destruct (negb (mode_eqb m SyncFlush)).
    + intros H. apply _write_follows in H. eapply follows_trans; eassumption.
    + intros [= _ <-]. exact El.
  - intros [= _ <-]. exact El.
  - intros [= _ <-]. exact El.
Qed.

(** *** The checksum covers the plaintext *)

Lemma addToChecksum_eq data s :
  size data < 2 ^ 32 -> 0 <= _checksum s < 2 ^ 32 ->
  addToChecksum data s = (Ok tt, set_checksum (crc32 (_checksum s) data) s).
Proof.
  intros Hd Hc. unfold addToChecksum, modify.
  pose proof (size_nonneg data).
  rewrite (to_unsigned_small (size data)) by lia.
  unfold prefix, size. rewrite Nat2Z.id, firstn_all.
  rewrite to_unsigned_small by (apply crc32_range; exact Hc).
  reflexivity.
Qed.

Lemma _writeRaw_eq s :
  _writeRaw s =
  if room (output s) >? 0 then
    let count := Z.min (size (input s)) (room (output s)) in
    let data := prefix count (input s) in
    (Ok tt,
     IO (to_unsigned (crc32 (_checksum s) (prefix (to_unsigned (size data)) data)))
        (_z s) (moveStart count (input s))
        (WSlice (stored (output s) ++ data) (room (output s) - count))
        (calls s))
  else (Throw AssertionFailed, s).
Proof.
  unfold _writeRaw, addToChecksum, Assert. run.
  destruct (room (output s) >? 0); reflexivity.
Qed.





(** *** Flushing *)

Lemma sync_flushed_weaken b1 b2 s :
  b1 <= b2 -> sync_flushed b1 s -> sync_flushed b2 s.
Proof.
  intros Hb (z & i & before & Hle & H).
  exists z, i, before. split; [lia|exact H].
Qed.

Lemma _write_ok_result _flate mode maxInput s u s' :
  _write _flate mode maxInput s = (Ok u, s') ->
  zlib_failed (result (flate_call _flate mode maxInput s)) = false.
Proof.
  rewrite _write_eq.
  destruct (out_size s >? 0); [|discriminate].
  destruct (mode_int mode >? mode_int Raw); [|discriminate].
  cbv zeta. destruct (zlib_failed _); [discriminate|reflexivity].
Qed.

Lemma sync_write_flushed maxInput s u s' :
  _write deflate SyncFlush maxInput s = (Ok u, s') ->
  sync_flushed (room (output s)) s'.
Proof.
  intros Hw. pose proof (_write_ok_result _ _ _ _ _ _ Hw) as Hres.
  apply _write_ok in Hw. destruct Hw as [_ ->].
  exists (_z s), (prefix (in_size maxInput s) (input s)), (room (output s)).
  split; [lia|]. cbv zeta. split; [exact Hres|]. split; reflexivity.
Qed.

(** If the loop ends with [curMode] at [SyncFlush], either it made no call
    at all and began that way, or the last call it made was a sync flush. *)
Lemma flush_loop_sync fuel : forall curMode s s',
  flush_loop fuel curMode s = (Ok SyncFlush, s') ->
  (curMode = SyncFlush /\ s' = s) \/ sync_flushed (room (output s)) s'.
Proof.
  induction fuel as [|fuel IH]; intros curMode s s'; [discriminate|].
  rewrite flush_loop_S.
  destruct (size (input s) >? 0);
    [|intros [= -> <-]; left; split; reflexivity].
  destruct (_write deflate _ _ s) as [[u|e|] s1] eqn:Ew; try discriminate.
  assert (Hstep : step_mode curMode s = SyncFlush -> sync_flushed (room (output s)) s1).
  { intros Hm. rewrite Hm in Ew. eapply sync_write_flushed, Ew. }
  destruct (room (output s1) <=? kStopAtOutputSize).
  - intros [= Hm <-]. right. apply Hstep, Hm.
  - intros Hrec. apply IH in Hrec. right.
    destruct Hrec as [[Hm ->]|Hs]; [apply Hstep, Hm|].
    apply _write_follows in Ew. destruct Ew as (_ & _ & Hroom).
    eapply sync_flushed_weaken; eassumption.
Qed.

Lemma _writeAndFlush_sync s s' :
  _writeAndFlush s = (Ok tt, s') -> sync_flushed (room (output s)) s'.
Proof.
  rewrite _writeAndFlush_eq.
  destruct (flush_loop (flush_fuel s) PartialFlush s) as [[m|e|] s1] eqn:El;
    try discriminate.
  destruct (mode_eqb m SyncFlush) eqn:Em; simpl.
  - intros [= <-]. apply mode_eqb_eq in Em. subst m.
    apply flush_loop_sync in El. destruct El as [[Hm _]|Hs]; [discriminate|].
    exact Hs.
  - intros Hw. apply flush_loop_follows in El. destruct El as (_ & _ & Hroom).
    apply sync_write_flushed in Hw.
    eapply sync_flushed_weaken; eassumption.
Qed.

(** C9, as the code has it.  After a [write] in sync-flush mode that
    returns and has left room in an output slice shorter than 2^32 bytes,
    [unflushedBytes] answers zero, on an engine that completes a flush
    whenever it has room left. *)
Theorem sync_flush_write_leaves_nothing_unflushed s s' :
  flush_complete ->
  room (output s) < 2 ^ 32 ->
  Deflater.write SyncFlush s = (Ok tt, s') ->
  0 < room (output s') ->
  unflushedBytes s' = (Ok 0, s').
Proof.
  intros Hflush Hroom Hw Hleft.
  assert (Hs : sync_flushed (room (output s)) s').
  { unfold Deflater.write, kZlibRawDeflate in Hw. simpl in Hw.
    unfold bind, gets in Hw.
    destruct (_writeAndFlush s) as [[[]|e|] s1] eqn:Ef; try discriminate.
    apply _writeAndFlush_sync in Ef.
    unfold addToChecksum, modify in Hw. injection Hw as <-.
    exact Ef. }
  destruct Hs as (z & i & before & Hle & Hres & Hz & Hr).
  pose proof (size_nonneg (wrote (deflate z (mode_int SyncFlush) i (to_unsigned before)))).
  assert (Hb : to_unsigned before = before) by (apply to_unsigned_small; lia).
  rewrite Hb in *.
  assert (Hp : deflatePending (_z s') = (0, 0, 0)).
  { rewrite Hz. apply Hflush; [lia|exact Hres|lia]. }
  unfold unflushedBytes, check. run. rewrite Hp. reflexivity.
Qed.

(** *** The room of the output slice *)

Lemma _write_no_room _flate mode maxInput s :
  room (output s) = 0 ->
  _write _flate mode maxInput s = (Throw AssertionFailed, s).
Proof.
  intros H. rewrite _write_eq. unfold out_size. rewrite H. reflexivity.
Qed.

Lemma flush_loop_no_room fuel curMode s :
  room (output s) = 0 ->
  flush_loop (S fuel) curMode s = (Throw AssertionFailed, s) \/
  flush_loop (S fuel) curMode s = (Ok curMode, s).
Proof.
  intros H. rewrite flush_loop_S.
  destruct (size (input s) >? 0); [|right; reflexivity].
  rewrite _write_no_room by exact H. left. reflexivity.
Qed.

Lemma _writeAndFlush_no_room s :
  room (output s) = 0 -> _writeAndFlush s = (Throw AssertionFailed, s).
Proof.
  intros H. rewrite _writeAndFlush_eq. unfold flush_fuel.
  destruct (flush_loop_no_room (Z.to_nat (size (input s) + room (output s)))
              PartialFlush s H) as [-> | ->]; [reflexivity|].
  simpl. apply _write_no_room, H.
Qed.

Lemma _write_within _flate mode maxInput s o s' :
  writes_within _flate -> 0 <= room (output s) < 2 ^ 32 ->
  _write _flate mode maxInput s = (o, s') ->
  0 <= room (output s') <= room (output s).
Proof.
  intros Hw Hr. rewrite _write_eq.
  destruct (out_size s >? 0); [|intros [= _ <-]; lia].
  destruct (mode_int mode >? mode_int Raw); [|intros [= _ <-]; lia].
  assert (Hafter : 0 <= room (output (after_call _flate mode maxInput s))
                   <= room (output s)).
  { simpl. unfold flate_call.
    pose proof (Hw (_z s) (mode_int mode)
                   (prefix (in_size maxInput s) (input s)) (out_size s)) as Hb.
    pose proof (size_nonneg (wrote (_flate (_z s) (mode_int mode)
                   (prefix (in_size maxInput s) (input s)) (out_size s)))).
    unfold out_size in *. rewrite to_unsigned_small in * by exact Hr. lia. }
  cbv zeta. destruct (zlib_failed _); intros [= _ <-]; exact Hafter.
Qed.

Lemma flush_loop_within fuel : forall curMode s o s',
  writes_within deflate -> 0 <= room (output s) < 2 ^ 32 ->
  flush_loop fuel curMode s = (o, s') ->
  0 <= room (output s') <= room (output s).
Proof.
  induction fuel as [|fuel IH]; intros curMode s o s' Hw Hr.
  - intros [= _ <-]. lia.
  - rewrite flush_loop_S.
    destruct (size (input s) >? 0); [|intros [= _ <-]; lia].
    destruct (_write deflate _ _ s) as [[u|e|] s1] eqn:Ew;
      apply (_write_within _ _ _ _ _ _ Hw Hr) in Ew.
    + destruct (room (output s1) <=? kStopAtOutputSize).
      * intros [= _ <-]. exact Ew.
      * intros H. apply IH in H; [lia|exact Hw|lia].
    + intros [= _ <-]. exact Ew.
    + intros [= _ <-]. exact Ew.
Qed.

Lemma _writeAndFlush_within s o s' :
  writes_within deflate -> 0 <= room (output s) < 2 ^ 32 ->
  _writeAndFlush s = (o, s') ->
  0 <= room (output s') <= room (output s).
Proof.
  intros Hw Hr. rewrite _writeAndFlush_eq.
  destruct (flush_loop (flush_fuel s) PartialFlush s) as [[m|e|] s1] eqn:El;
    apply (flush_loop_within _ _ _ _ _ Hw Hr) in El.
  - destruct (negb (mode_eqb m SyncFlush)).
    + intros H. apply _write_within in H; [lia|exact Hw|lia].
    + intros [= _ <-]. exact El.
  - intros [= _ <-]. exact El.
  - intros [= _ <-]. exact El.
Qed.

(** [write] ends with the outcome of its inner step; the checksum update
    after it neither throws nor touches the slices. *)
Lemma deflater_write_outcome mode s :
  mode <> Raw ->
  let inner : M io unit :=
    match mode with
    | NoFlush => _write deflate mode SIZE_MAX
    | SyncFlush => _writeAndFlush
    | _ => throw InvalidParameter
    end in
  fst (Deflater.write mode s) = fst (inner s) /\
  output (snd (Deflater.write mode s)) = output (snd (inner s)).
Proof.
  intros Hm. cbv zeta. unfold Deflater.write.
  assert (E : mode_eqb mode Raw = false).
  { destruct (mode_eqb mode Raw) eqn:E; [|reflexivity].
    apply mode_eqb_eq in E. contradiction. }
  rewrite E. unfold kZlibRawDeflate, addToChecksum. run.
  match goal with |- context [match ?i s with _ => _ end] =>
    destruct (i s) as [[[]|e|] s1] end; split; reflexivity.
Qed.

Lemma inflater_write_outcome mode s :
  mode <> Raw ->
  fst (Inflater.write mode s) = fst (_write inflate mode SIZE_MAX s) /\
  output (snd (Inflater.write mode s))
  = output (snd (_write inflate mode SIZE_MAX s)).
Proof.
  intros Hm. unfold Inflater.write.
  assert (E : mode_eqb mode Raw = false).
  { destruct (mode_eqb mode Raw) eqn:E; [|reflexivity].
    apply mode_eqb_eq in E. contradiction. }
  rewrite E. unfold kZlibRawDeflate, addToChecksum. run.
  destruct (_write inflate mode SIZE_MAX s) as [[[]|e|] s1]; split; reflexivity.
Qed.

Lemma _writeRaw_room s :
  0 < room (output s) ->
  fst (_writeRaw s) = Ok tt /\
  0 <= room (output (snd (_writeRaw s))) <= room (output s).
Proof.
  intros H. rewrite _writeRaw_eq.
  assert (E : (room (output s) >? 0) = true) by lia. rewrite E.
  cbv zeta. simpl. pose proof (size_nonneg (input s)). split; [reflexivity|lia].
Qed.

Lemma _write_no_assertion _flate mode maxInput s :
  mode <> Raw -> 0 < room (output s) < 2 ^ 32 ->
  fst (_write _flate mode maxInput s) <> Throw AssertionFailed.
Proof.
  intros Hm Hr. rewrite _write_eq. unfold out_size.
  rewrite to_unsigned_small by lia.
  assert (E : (room (output s) >? 0) = true) by lia. rewrite E.
  assert (E' : (mode_int mode >? mode_int Raw) = true)
    by (destruct mode; [contradiction|reflexivity..]).
  rewrite E'. cbv zeta. destruct (zlib_failed _); simpl; discriminate.
Qed.

(** C10, as the code has it.  With no room in the output slice, [write]
    fails its assertion in every mode of the Inflater and in the raw,
    no-flush and sync-flush modes of the Deflater, which turns down
    partial-flush with [InvalidParameter] before any assertion.  With room
    in an output slice shorter than 2^32 bytes, on engines that keep to
    the room they are given, no [write] moves the output further than its
    size, and the assertion is out of reach of the raw mode, of the
    Inflater and of the Deflater's no-flush mode. *)
Theorem output_room_and_assertion mode s :
  (room (output s) = 0 ->
   fst (Inflater.write mode s) = Throw AssertionFailed /\
   (mode <> PartialFlush ->
    fst (Deflater.write mode s) = Throw AssertionFailed)) /\
  fst (Deflater.write PartialFlush s) = Throw InvalidParameter /\
  (0 < room (output s) < 2 ^ 32 ->
   writes_within deflate -> writes_within inflate ->
   fst (Inflater.write mode s) <> Throw AssertionFailed /\
   (mode = Raw \/ mode = NoFlush ->
    fst (Deflater.write mode s) <> Throw AssertionFailed) /\
   0 <= room (output (snd (Inflater.write mode s))) <= room (output s) /\
   0 <= room (output (snd (Deflater.write mode s))) <= room (output s)).
Proof.
  assert (Hinf : forall m, m <> Raw ->
            fst (Inflater.write m s) = fst (_write inflate m SIZE_MAX s) /\
            output (snd (Inflater.write m s))
            = output (snd (_write inflate m SIZE_MAX s)))
    by (intros m Hm; apply inflater_write_outcome, Hm).
  pose proof (deflater_write_outcome NoFlush s ltac:(discriminate)) as [Hn1 Hn2].
  pose proof (deflater_write_outcome PartialFlush s ltac:(discriminate)) as [Hp1 Hp2].
  pose proof (deflater_write_outcome SyncFlush s ltac:(discriminate)) as [Hs1 Hs2].
  cbv zeta in *.
  split; [|split].
  - intros H0.
    assert (Hraw : _writeRaw s = (Throw AssertionFailed, s)).
    { rewrite _writeRaw_eq.
      assert (E : (room (output s) >? 0) = false) by lia. rewrite E.
      reflexivity. }
    split.
    + destruct mode; [unfold Inflater.write; simpl; rewrite Hraw; reflexivity|..].
      all: match goal with |- context [Inflater.write ?m _] =>
             rewrite (proj1 (Hinf m ltac:(discriminate))) end;
        rewrite _write_no_room by exact H0; reflexivity.
    + intros Hm. destruct mode; [| | contradiction |].
      * unfold Deflater.write. simpl. rewrite Hraw. reflexivity.
      * rewrite Hn1. rewrite _write_no_room by exact H0. reflexivity.
      * rewrite Hs1. rewrite _writeAndFlush_no_room by exact H0. reflexivity.
  - rewrite Hp1. reflexivity.
  - intros Hr Hd Hi.
    assert (Hr' : 0 <= room (output s) < 2 ^ 32) by lia.
    destruct (_writeRaw_room s ltac:(lia)) as [Hraw_ok Hraw_room].
    split; [|split; [|split]].
    + destruct mode;
        [unfold Inflater.write; simpl; rewrite Hraw_ok; discriminate|..].
      all: match goal with |- context [Inflater.write ?m _] =>
             rewrite (proj1 (Hinf m ltac:(discriminate))) end;
        apply _write_no_assertion; [discriminate|exact Hr].
    + intros [-> | ->].
      * unfold Deflater.write. simpl. rewrite Hraw_ok. discriminate.
      * rewrite Hn1. apply _write_no_assertion; [discriminate|exact Hr].
    + destruct mode; [unfold Inflater.write; simpl; exact Hraw_room|..].
      all: match goal with |- context [Inflater.write ?m _] =>
             rewrite (proj2 (Hinf m ltac:(discriminate))) end;
        match goal with |- context [_write inflate ?m SIZE_MAX ?t] =>
          destruct (_write inflate m SIZE_MAX t) as [o s1] eqn:Ew end;
        apply (_write_within _ _ _ _ _ _ Hi Hr' Ew).
    + destruct mode; [unfold Deflater.write; simpl; exact Hraw_room|..].
      * rewrite Hn2.
        destruct (_write deflate NoFlush SIZE_MAX s) as [o s1] eqn:Ew.
        apply (_write_within _ _ _ _ _ _ Hd Hr' Ew).
      * rewrite Hp2. simpl. lia.
      * rewrite Hs2. destruct (_writeAndFlush s) as [o s1] eqn:Ew.
        apply (_writeAndFlush_within _ _ _ Hd Hr' Ew).
Qed.

(** *** The flush loop against its description *)

Lemma _write_in_size _flate mode max1 max2 s :
  in_size max1 s = in_size max2 s ->
  _write _flate mode max1 s = _write _flate mode max2 s.
Proof.
  intros H. rewrite !_write_eq. unfold after_call, flate_call.
  rewrite H. reflexivity.
Qed.

Lemma spec_flush_loop_S fuel s :
  spec_flush_loop (S fuel) s =
  if size (input s) >? 0 then
    if room (output s) >=? deflateBound (_z s) (size (input s)) then
      match _write deflate SyncFlush (size (input s)) s with
      | (Ok _, s1) => (Ok true, s1)
      | (Throw e, s1) => (Throw e, s1)
      | (Diverge, s1) => (Diverge, s1)
      end
    else
      match _write deflate PartialFlush (room (output s) - 12) s with
      | (Ok _, s1) =>
        if room (output s1) <=? 100 then (Ok false, s1)
        else spec_flush_loop fuel s1
      | (Throw e, s1) => (Throw e, s1)
      | (Diverge, s1) => (Diverge, s1)
      end
  else (Ok false, s).
Proof.
  simpl. run.
  destruct (size (input s) >? 0); [|reflexivity]. simpl.
  destruct (room (output s) >=? _); simpl.
  - destruct (_write deflate SyncFlush _ s) as [[u|e|] s1]; reflexivity.
  - destruct (_write deflate PartialFlush _ s) as [[u|e|] s1]; try reflexivity.
    simpl. destruct (room (output s1) <=? 100); reflexivity.
Qed.

Lemma size_moveStart_le n (i : slice) : size (moveStart n i) <= size i.
Proof. unfold size, moveStart. rewrite length_skipn. lia. Qed.

Lemma size_moveStart_lt n (i : slice) :
  0 < n -> 0 < size i -> size (moveStart n i) < size i.
Proof. unfold size, moveStart. rewrite length_skipn. lia. Qed.

(** With fuel beyond the bytes of input and room that are left, the loop
    of the code and the loop of the description do the same, and neither
    runs out of fuel. *)
Lemma flush_loop_refines fuel : forall s,
  bound_honoured -> makes_progress ->
  size (input s) < 2 ^ 32 -> 12 <= room (output s) < 2 ^ 32 ->
  size (input s) + room (output s) < Z.of_nat fuel ->
  flush_loop fuel PartialFlush s = as_mode (spec_flush_loop fuel s) /\
  fst (flush_loop fuel PartialFlush s) <> Diverge.
Proof.
  induction fuel as [|fuel IH]; intros s Hb Hp Hi Hr Hfuel.
  { pose proof (size_nonneg (input s)). lia. }
  rewrite flush_loop_S, spec_flush_loop_S.
  pose proof (size_nonneg (input s)) as Hnn.
  destruct (size (input s) >? 0) eqn:Ei; [|split; [reflexivity|discriminate]].
  assert (Hpos : 0 < size (input s)) by lia.
  unfold step_mode, step_max, fits.
  rewrite (to_unsigned_small (size (input s))) by lia.
  destruct (room (output s) >=? deflateBound (_z s) (size (input s))) eqn:Ef.
  - (* the sync-flush step *)
    assert (Hin : in_size SIZE_MAX s = size (input s)).
    { unfold in_size, SIZE_MAX. rewrite Z.min_l by lia.
      apply to_unsigned_small. lia. }
    rewrite (_write_in_size deflate SyncFlush SIZE_MAX (size (input s)) s)
      by (unfold in_size in *; rewrite Hin, Z.min_id; symmetry;
          apply to_unsigned_small; lia).
    destruct (_write deflate SyncFlush (size (input s)) s) as [[u|e|] s1] eqn:Ew;
      [|split; [reflexivity|discriminate]
       |exfalso; eapply _write_never_diverges, Ew].
    apply _write_ok in Ew. destruct Ew as [_ ->].
    assert (Hall : input (after_call deflate SyncFlush (size (input s)) s) = []).
    { simpl. unfold flate_call, in_size. rewrite Z.min_id.
      rewrite (to_unsigned_small (size (input s))) by lia.
      unfold out_size. rewrite (to_unsigned_small (room (output s))) by lia.
      rewrite Hb.
      - rewrite size_prefix by lia. unfold moveStart, size.
        rewrite Nat2Z.id. apply skipn_all.
      - rewrite size_prefix by lia. lia. }
    destruct (room (output _) <=? kStopAtOutputSize);
      [split; [reflexivity|discriminate]|].
    destruct fuel as [|fuel]; [lia|].
    rewrite flush_loop_S, Hall. split; [reflexivity|discriminate].
  - (* a partial-flush step *)
    assert (Hmax : to_size_t (room (output s) - kHeadroomForFlush)
                   = room (output s) - 12).
    { unfold kHeadroomForFlush. apply to_size_t_small. lia. }
    rewrite Hmax.
    destruct (_write deflate PartialFlush (room (output s) - 12) s)
      as [[u|e|] s1] eqn:Ew;
      [|split; [reflexivity|discriminate]
       |exfalso; eapply _write_never_diverges, Ew].
    pose proof (_write_follows _ _ _ _ _ _ Ew) as (_ & [k Hk] & Hroom).
    apply _write_ok in Ew. destruct Ew as [Hout Hs1].
    unfold kStopAtOutputSize.
    destruct (room (output s1) <=? 100) eqn:Estop;
      [split; [reflexivity|discriminate]|].
    assert (Hbig : 100 < room (output s1)) by lia.
    apply IH; try assumption.
    + rewrite Hk. pose proof (size_moveStart_le (Z.of_nat k) (input s)).
      unfold moveStart in *. rewrite Nat2Z.id in *. lia.
    + lia.
    + (* the call made progress *)
      set (r := flate_call deflate PartialFlush (room (output s) - 12) s) in *.
      assert (Hgiven : in_size (room (output s) - 12) s
                       = Z.min (size (input s)) (room (output s) - 12)).
      { unfold in_size. apply to_unsigned_small. lia. }
      destruct (Hp (_z s) (mode_int PartialFlush)
                   (prefix (in_size (room (output s) - 12) s) (input s))
                   (out_size s)) as [Hread Hprog].
      { rewrite size_prefix; rewrite Hgiven; lia. }
      { exact Hout. }
      fold (flate_call deflate PartialFlush (room (output s) - 12) s) in Hread, Hprog.
      fold r in Hread, Hprog.
      subst s1. simpl. fold r.
      pose proof (size_nonneg (wrote r)).
      pose proof (size_moveStart_le (read r) (input s)).
      destruct (Z.eq_dec (read r) 0) as [E0|Hne].
      * lia.
      * pose proof (size_moveStart_lt (read r) (input s) ltac:(lia) Hpos). lia.
Qed.

(** Where the room less 12 bytes does not wrap around.  On an input
    shorter than 2^32 bytes and an output slice of at least 12 and fewer
    than 2^32 bytes, with an engine that honours [deflateBound] and makes
    progress, [_writeAndFlush] is the algorithm of the description, and
    it comes to an end: it loops through partial-flush calls limited to
    the room less 12 bytes until the input is used up, the room is at or
    below 100 bytes, or the rest of the input fits and is written by one
    sync-flush call; and it issues a final zero-input sync-flush call if
    no sync-flush step was taken. *)
Theorem _writeAndFlush_is_described s :
  bound_honoured -> makes_progress ->
  size (input s) < 2 ^ 32 -> 12 <= room (output s) < 2 ^ 32 ->
  _writeAndFlush s = spec_writeAndFlush s /\
  fst (_writeAndFlush s) <> Diverge.
Proof.
  intros Hb Hp Hi Hr.
  destruct (flush_loop_refines (flush_fuel s) s Hb Hp Hi Hr) as [Heq Hnd].
  { unfold flush_fuel. pose proof (size_nonneg (input s)). lia. }
  rewrite _writeAndFlush_eq. unfold spec_writeAndFlush, bind, gets, ret.
  revert Hnd. rewrite Heq.
  destruct (spec_flush_loop (flush_fuel s) s) as [[synced|e|] s1];
    unfold as_mode, fst.
  - intros _. destruct synced; unfold mode_of_flag.
    + split; [reflexivity|discriminate].
    + split; [reflexivity|].
      destruct (_write deflate SyncFlush 0 s1) as [[u|e|] s2] eqn:Ew;
        try discriminate.
      exfalso. eapply _write_never_diverges, Ew.
  - intros _. split; [reflexivity|discriminate].
  - intros Hnd. contradiction.
Qed.

End CodecProperties.

(* ===================================================================== *)
(** ** The codec on the reference engine *)
(* ===================================================================== *)

Section OnTheQueueEngine.
Import Blip QueueEngine.

Lemma queue_bound_honoured : bound_honoured.
Proof. intros z next_in avail_out _. reflexivity. Qed.

Lemma queue_makes_progress : makes_progress.
Proof.
  intros z flush next_in avail_out Hin _. simpl.
  pose proof (size_nonneg (prefix avail_out (z ++ next_in))). lia.
Qed.

Lemma queue_writes_within_deflate : writes_within deflate.
Proof.
  intros z flush next_in avail_out H. simpl.
  unfold size, prefix. rewrite length_firstn. lia.
Qed.

Lemma queue_writes_within_inflate : writes_within inflate.
Proof. exact queue_writes_within_deflate. Qed.

Lemma queue_flush_complete : flush_complete.
Proof.
  intros z next_in avail_out r Hout _ Hless. subst r. simpl in *.
  unfold size, prefix, moveStart in *. rewrite length_firstn in Hless.
  rewrite skipn_all2 by lia. reflexivity.
Qed.

Lemma _writeAndFlush_is_described_witness :
  Deflater._writeAndFlush (fresh hello 13) = spec_writeAndFlush (fresh hello 13) /\
  fst (Deflater._writeAndFlush (fresh hello 13)) <> Diverge.
Proof.
  apply (_writeAndFlush_is_described (fresh hello 13)
           queue_bound_honoured queue_makes_progress).
  - vm_compute. reflexivity.
  - simpl. lia.
Defined.

(** C6.  The code means to limit the input of a partial-flush call to
    the room less 12 bytes, and fails to when the output slice has fewer
    than 12 bytes: the subtraction is done in [size_t] and wraps around.
    A sync-flush write of twelve bytes into five bytes of room hands the
    partial-flush call a limit of 2^64 - 7, so that the call is offered
    all twelve bytes; the loop ends with the room used up, and the final
    flush fails the assertion on the output size. *)
Theorem partial_flush_not_limited_in_small_output :
  step_max (fresh hello 5) = 2 ^ 64 - 7 /\
  (exists c,
     head (calls (snd (Deflater.write SyncFlush (fresh hello 5)))) = Some c /\
     call_mode c = mode_int PartialFlush /\
     call_out c = 5 /\
     call_in c = 12 /\
     ~ (call_in c <= call_out c - 12)) /\
  room (output (snd (Deflater.write SyncFlush (fresh hello 5)))) = 0 /\
  fst (Deflater.write SyncFlush (fresh hello 5)) = Throw AssertionFailed.
Proof.
  split; [vm_compute; reflexivity|]. split.
  - eexists. split; [vm_compute; reflexivity|]. simpl.
    repeat split; try reflexivity. lia.
  - split; vm_compute; reflexivity.
Qed.



Lemma sync_flush_write_leaves_nothing_unflushed_witness :
  exists s',
    Deflater.write SyncFlush (fresh hello 200) = (Ok tt, s') /\
    Deflater.unflushedBytes s' = (Ok 0, s').
Proof.
  eexists. split; [vm_compute; reflexivity|].
  apply (sync_flush_write_leaves_nothing_unflushed (fresh hello 200)).
  - exact queue_flush_complete.
  - simpl. lia.
  - vm_compute. reflexivity.
  - simpl. lia.
Defined.

(** C9, as the specification words it, fails when the call fills the
    output: a no-flush write of twelve bytes into five bytes of room
    leaves seven pending; the sync-flush write that follows, into four
    bytes of room, returns, and three bytes are still unflushed. *)
Lemma sync_flush_write_can_leave_bytes_unflushed :
  exists s1 s2,
    Deflater.write NoFlush (fresh hello 5) = (Ok tt, s1) /\
    Deflater.write SyncFlush (refill [] 4 s1) = (Ok tt, s2) /\
    0 < room (output (refill [] 4 s1)) /\
    Deflater.unflushedBytes s2 = (Ok 3, s2).
Proof.
  eexists. eexists.
  split; [vm_compute; reflexivity|].
  split; [vm_compute; reflexivity|].
  split; [simpl; lia|vm_compute; reflexivity].
Qed.

Lemma output_room_and_assertion_witness :
  (fst (Inflater.write NoFlush (fresh hello 0)) = Throw AssertionFailed /\
   fst (Deflater.write NoFlush (fresh hello 0)) = Throw AssertionFailed) /\
  fst (Deflater.write PartialFlush (fresh hello 0)) = Throw InvalidParameter /\
  (fst (Inflater.write NoFlush (fresh hello 5)) <> Throw AssertionFailed /\
   fst (Deflater.write NoFlush (fresh hello 5)) <> Throw AssertionFailed /\
   0 <= room (output (snd (Inflater.write NoFlush (fresh hello 5)))) <= 5 /\
   0 <= room (output (snd (Deflater.write NoFlush (fresh hello 5)))) <= 5).
Proof.
  destruct (output_room_and_assertion NoFlush (fresh hello 0))
    as (Hnone & Hpartial & _).
  destruct (output_room_and_assertion NoFlush (fresh hello 5))
    as (_ & _ & Hroom).
  assert (H5 : 0 < room (output (fresh hello 5)) < 2 ^ 32)
    by (vm_compute; split; reflexivity).
  destruct (Hnone eq_refl) as [Hi Hd].
  destruct (Hroom H5 queue_writes_within_deflate queue_writes_within_inflate)
    as (Hni & Hnd & Hri & Hrd).
  split; [split; [exact Hi|apply Hd; discriminate]|].
  split; [exact Hpartial|].
  split; [exact Hni|]. split; [apply Hnd; right; reflexivity|].
  split; [exact Hri|exact Hrd].
Defined.

(** C10, as the specification words it, fails: a partial-flush write of
    the Deflater into no room at all is turned down with
    [InvalidParameter], not by the assertion. *)
Lemma partial_flush_without_room_is_turned_down :
  room (output (fresh hello 0)) = 0 /\
  fst (Deflater.write PartialFlush (fresh hello 0)) = Throw InvalidParameter /\
  fst (Deflater.write PartialFlush (fresh hello 0)) <> Throw AssertionFailed.
Proof.
  split; [reflexivity|].
  split; [vm_compute; reflexivity|vm_compute; discriminate].
Qed.

End OnTheQueueEngine.

(* ===================================================================== *)
(** ** The codec at large *)
(* ===================================================================== *)

Section CodecAtLarge.
Import Blip.
Import Deflater.
Context {zl : zlib}.

Implicit Types (s t : io) (mode : Mode).

(** *** Checksums *)

Lemma set_checksum_twice c1 c2 s :
  set_checksum c2 (set_checksum c1 s) = set_checksum c2 s.
Proof. reflexivity. Qed.


(** *** The raw copy *)

(** In raw mode both codecs run [_writeRaw].  With room in the output it
    returns, having moved the first [min(|input|, |output|)] bytes of the
    input, unchanged and in order, behind what the output already holds;
    both slices advance by that count.  The zlib stream is not touched
    and no engine call is made. *)
Theorem raw_write_moves_bytes s :
  0 < room (output s) ->
  Deflater.write Raw s = _writeRaw s /\
  Inflater.write Raw s = _writeRaw s /\
  fst (_writeRaw s) = Ok tt /\
  let s' := snd (_writeRaw s) in
  let count := Z.min (size (input s)) (room (output s)) in
  stored (output s') = stored (output s) ++ prefix count (input s) /\
  input s = prefix count (input s) ++ input s' /\
  size (input s') = size (input s) - count /\
  room (output s') = room (output s) - count /\
  _z s' = _z s /\ calls s' = calls s.
Proof.
  intros Hr. split; [reflexivity|]. split; [reflexivity|].
  rewrite _writeRaw_eq.
  assert (E : (room (output s) >? 0) = true) by lia. rewrite E.
  cbv zeta. simpl. pose proof (size_nonneg (input s)).
  repeat split.
  - symmetry. apply prefix_moveStart.
  - apply size_moveStart. lia.
Qed.

(** *** The checksum trailer and the raw frame *)

Lemma writeChecksum_eq s :
  writeChecksum s =
  if room (output s) <? 4 then (Throw AssertionFailed, s)
  else (Ok tt,
        set_output (WSlice (stored (output s) ++ enc32 (_checksum s))
                           (room (output s) - 4)) s).
Proof.
  unfold writeChecksum, writeFrom, Assert. run.
  change (size (enc32 (_checksum s))) with 4.
  destruct (room (output s) <? 4); reflexivity.
Qed.

Lemma trailer_check t c rest :
  0 <= c < 2 ^ 32 ->
  readAndVerifyChecksum (set_input (enc32 c ++ rest) t) =
  if c =? _checksum t then (Ok tt, set_input rest t)
  else (Throw (CorruptData (Msg "BLIP message invalid checksum")),
        set_input rest t).
Proof.
  intros Hc. rewrite readAndVerifyChecksum_eq.
  change (input (set_input (enc32 c ++ rest) t)) with (enc32 c ++ rest).
  change (_checksum (set_input (enc32 c ++ rest) t)) with (_checksum t).
  change (prefix 4 (enc32 c ++ rest)) with (enc32 c).
  change (moveStart 4 (enc32 c ++ rest)) with rest.
  assert (E4 : (size (enc32 c ++ rest) <? 4) = false).
  { apply Z.ltb_ge. rewrite size_app. change (size (enc32 c)) with 4.
    pose proof (size_nonneg rest). lia. }
  rewrite E4, dec32_enc32 by exact Hc.
  destruct (c =? _checksum t); destruct t; reflexivity.
Qed.

(** [writeChecksum] needs four bytes of room: with less it fails its
    assertion and stores nothing.  With four or more it stores exactly
    the four bytes of the checksum, and [readAndVerifyChecksum] of any
    codec, handed those bytes, accepts them when its own checksum is the
    same and throws "invalid checksum" when it differs; either way it is
    left with exactly what follows the four bytes. *)
Theorem checksum_trailer_round_trip s :
  (room (output s) < 4 -> writeChecksum s = (Throw AssertionFailed, s)) /\
  (4 <= room (output s) -> 0 <= _checksum s < 2 ^ 32 ->
   let s' := snd (writeChecksum s) in
   let trailer := enc32 (_checksum s) in
   fst (writeChecksum s) = Ok tt /\
   stored (output s') = stored (output s) ++ trailer /\
   room (output s') = room (output s) - 4 /\
   forall t rest,
     snd (readAndVerifyChecksum (set_input (trailer ++ rest) t))
       = set_input rest t /\
     (_checksum t = _checksum s ->
      fst (readAndVerifyChecksum (set_input (trailer ++ rest) t)) = Ok tt) /\
     (_checksum t <> _checksum s ->
      fst (readAndVerifyChecksum (set_input (trailer ++ rest) t))
        = Throw (CorruptData (Msg "BLIP message invalid checksum")))).
Proof.
  rewrite writeChecksum_eq. split.
  - intros H. assert (E : (room (output s) <? 4) = true) by lia.
    rewrite E. reflexivity.
  - intros H Hc. assert (E : (room (output s) <? 4) = false) by lia.
    rewrite E. cbv zeta. cbn [fst snd].
    split; [reflexivity|]. split; [reflexivity|]. split; [reflexivity|].
    intros t rest. rewrite trailer_check by exact Hc.
    split; [destruct (_checksum s =? _checksum t); reflexivity|]. split.
    + intros Ht. rewrite Ht, Z.eqb_refl. reflexivity.
    + intros Ht.
      assert (En : (_checksum s =? _checksum t) = false)
        by (apply Z.eqb_neq; congruence).
      rewrite En. reflexivity.
Qed.



(** *** Writes that fail *)

Lemma deflater_write_eq mode s :
  mode <> Raw ->
  Deflater.write mode s =
  match deflater_step mode s with
  | (Ok _, s1) => addToChecksum (between (input s) (input s1)) s1
  | (Throw e, s1) => (Throw e, s1)
  | (Diverge, s1) => (Diverge, s1)
  end.
Proof.
  intros Hm. unfold Deflater.write, deflater_step.
  assert (E : mode_eqb mode Raw = false).
  { destruct (mode_eqb mode Raw) eqn:E; [|reflexivity].
    apply mode_eqb_eq in E. contradiction. }
  rewrite E. unfold kZlibRawDeflate. run.
  match goal with |- context [match ?i ?x with _ => _ end] =>
    destruct (i x) as [[[]|e|] s1] end; reflexivity.
Qed.

Lemma inflater_write_eq mode s :
  mode <> Raw ->
  Inflater.write mode s =
  match _write inflate mode SIZE_MAX s with
  | (Ok _, s1) =>
    addToChecksum (skipn (length (stored (output s))) (stored (output s1))) s1
  | (Throw e, s1) => (Throw e, s1)
  | (Diverge, s1) => (Diverge, s1)
  end.
Proof.
  intros Hm. unfold Inflater.write.
  assert (E : mode_eqb mode Raw = false).
  { destruct (mode_eqb mode Raw) eqn:E; [|reflexivity].
    apply mode_eqb_eq in E. contradiction. }
  rewrite E. unfold kZlibRawDeflate. run.
  destruct (_write inflate mode SIZE_MAX s) as [[[]|e|] s1]; reflexivity.
Qed.

Lemma deflater_step_follows mode s o s' :
  deflater_step mode s = (o, s') -> follows s s'.
Proof.
  destruct mode; simpl.
  - intros [= _ <-]. apply follows_refl.
  - apply _write_follows.
  - intros [= _ <-]. apply follows_refl.
  - apply _writeAndFlush_follows.
Qed.

(** A [write] that throws, of either codec and in any mode, has not
    touched the checksum: whatever the engine read or wrote in that call
    stays out of it.  The input has at most moved forward and the room of
    the output has not grown. *)
Theorem failed_write_keeps_checksum mode s e s' :
  (Deflater.write mode s = (Throw e, s') -> follows s s') /\
  (Inflater.write mode s = (Throw e, s') -> follows s s').
Proof.
  assert (Hraw : _writeRaw s = (Throw e, s') -> follows s s').
  { rewrite _writeRaw_eq. destruct (room (output s) >? 0); [discriminate|].
    intros [= _ <-]. apply follows_refl. }
  split.
  - destruct mode; [exact Hraw|..].
    all: rewrite deflater_write_eq by discriminate.
    all: match goal with |- context [deflater_step ?m ?x] =>
           destruct (deflater_step m x) as [[[]|e1|] s1] eqn:Es end;
         try discriminate.
    all: intros [= _ <-]; eapply deflater_step_follows, Es.
  - destruct mode; [exact Hraw|..].
    all: rewrite inflater_write_eq by discriminate.
    all: match goal with |- context [_write inflate ?m SIZE_MAX ?x] =>
           destruct (_write inflate m SIZE_MAX x) as [[[]|e1|] s1] eqn:Es end;
         try discriminate.
    all: intros [= _ <-]; eapply _write_follows, Es.
Qed.

(** *** What the engine answers *)

(** The Inflater, in any mode but raw and with room in an output shorter
    than 2^32 bytes, makes one engine call.  It returns when the engine
    answers a code that is not negative, or [Z_BUF_ERROR]; on any other
    negative code it throws [CorruptData] with the code and the message
    of the stream, after both slices were moved over what the engine read
    and wrote, and without the bytes written entering the checksum. *)
Theorem inflater_answers mode s :
  mode <> Raw -> 0 < room (output s) < 2 ^ 32 ->
  let r := flate_call inflate mode SIZE_MAX s in
  let s1 := after_call inflate mode SIZE_MAX s in
  (0 <= result r \/ result r = Z_BUF_ERROR ->
   fst (Inflater.write mode s) = Ok tt /\
   calls (snd (Inflater.write mode s)) = calls s1 /\
   input (snd (Inflater.write mode s)) = input s1 /\
   output (snd (Inflater.write mode s)) = output s1) /\
  (result r < 0 -> result r <> Z_BUF_ERROR ->
   Inflater.write mode s
   = (Throw (CorruptData (ZlibErrorMsg (result r) (z_msg (next_state r)))), s1) /\
   _checksum s1 = _checksum s /\
   stored (output s1) = stored (output s) ++ wrote r).
Proof.
  intros Hm Hr. cbv zeta.
  rewrite inflater_write_eq by exact Hm. rewrite _write_eq.
  unfold out_size. rewrite to_unsigned_small by lia.
  assert (E : (room (output s) >? 0) = true) by lia. rewrite E.
  assert (E' : (mode_int mode >? mode_int Raw) = true)
    by (destruct mode; [contradiction|reflexivity..]).
  rewrite E'. cbv zeta. unfold zlib_failed, Z_BUF_ERROR. split.
  - intros Hcode.
    assert (Ef : ((result (flate_call inflate mode SIZE_MAX s) <? 0)
                  && negb (result (flate_call inflate mode SIZE_MAX s) =? -5))
                 = false).
    { destruct Hcode as [Hc|Hc].
      - apply andb_false_iff. left. lia.
      - unfold Z_BUF_ERROR in Hc. rewrite Hc. reflexivity. }
    rewrite Ef. unfold addToChecksum, modify. cbn [fst snd].
    repeat split.
  - intros Hneg Hne.
    assert (Ef : ((result (flate_call inflate mode SIZE_MAX s) <? 0)
                  && negb (result (flate_call inflate mode SIZE_MAX s) =? -5))
                 = true).
    { apply andb_true_iff. split; [lia|].
      apply negb_true_iff, Z.eqb_neq. exact Hne. }
    rewrite Ef. repeat split.
Qed.

(** *** The calls of a sync-flush write *)

Lemma _write_logs _flate mode maxInput s o s' :
  _write _flate mode maxInput s = (o, s') ->
  calls s' = calls s \/
  exists c, calls s' = calls s ++ [c] /\ call_mode c = mode_int mode.
Proof.
  rewrite _write_eq.
  destruct (out_size s >? 0); [|intros [= _ <-]; left; reflexivity].
  destruct (mode_int mode >? mode_int Raw);
    [|intros [= _ <-]; left; reflexivity].
  cbv zeta. destruct (zlib_failed _); intros [= _ <-]; right;
    eexists; split; reflexivity.
Qed.

Lemma _write_ok_logs _flate mode maxInput s u s' :
  _write _flate mode maxInput s = (Ok u, s') ->
  exists c, calls s' = calls s ++ [c] /\ call_mode c = mode_int mode.
Proof.
  intros H. apply _write_ok in H. destruct H as [_ ->].
  eexists. split; reflexivity.
Qed.

Lemma step_mode_flush curMode s :
  curMode = PartialFlush \/ curMode = SyncFlush ->
  step_mode curMode s = PartialFlush \/ step_mode curMode s = SyncFlush.
Proof.
  intros H. unfold step_mode. destruct (fits s); [right; reflexivity|exact H].
Qed.

Lemma ends_in_sync_app l1 l2 : ends_in_sync l2 -> ends_in_sync (l1 ++ l2).
Proof.
  intros (l0 & c & -> & Hc). exists (l1 ++ l0), c.
  split; [apply app_assoc|exact Hc].
Qed.

Lemma flush_loop_logs fuel : forall curMode s o s',
  curMode = PartialFlush \/ curMode = SyncFlush ->
  flush_loop fuel curMode s = (o, s') ->
  exists l,
    calls s' = calls s ++ l /\ Forall flush_call l /\
    (o = Ok SyncFlush -> (curMode = SyncFlush /\ l = []) \/ ends_in_sync l).
Proof.
  induction fuel as [|fuel IH]; intros curMode s o s' Hcm.
  { intros [= <- <-]. exists []. rewrite app_nil_r.
    split; [reflexivity|]. split; [constructor|discriminate]. }
  rewrite flush_loop_S.
  destruct (size (input s) >? 0).
  2:{ intros [= <- <-]. exists []. rewrite app_nil_r.
      split; [reflexivity|]. split; [constructor|].
      intros [= ->]. left. split; reflexivity. }
  pose proof (step_mode_flush curMode s Hcm) as Hsm.
  assert (Hfc : forall c, call_mode c = mode_int (step_mode curMode s) ->
                          flush_call c).
  { intros c Hc. unfold flush_call. destruct Hsm as [E|E]; rewrite E in Hc;
      [left|right]; exact Hc. }
  destruct (_write deflate _ _ s) as [[u|e|] s1] eqn:Ew.
  - destruct (_write_ok_logs _ _ _ _ _ _ Ew) as (c & Hc & Hmode).
    destruct (room (output s1) <=? kStopAtOutputSize).
    + intros [= <- <-]. exists [c]. split; [exact Hc|].
      split; [constructor; [apply Hfc, Hmode|constructor]|].
      intros [= Hs]. right. exists [], c. rewrite Hs in Hmode.
      split; [reflexivity|exact Hmode].
    + intros Hrec. destruct (IH _ _ _ _ Hsm Hrec) as (l & Hl & Hall & Hlast).
      exists (c :: l). split; [rewrite Hl, Hc, <- app_assoc; reflexivity|].
      split; [constructor; [apply Hfc, Hmode|exact Hall]|].
      intros Ho. right. destruct (Hlast Ho) as [[Hs ->]|Hends].
      * exists [], c. rewrite Hs in Hmode. split; [reflexivity|exact Hmode].
      * apply (ends_in_sync_app [c]), Hends.
  - intros [= <- <-].
    destruct (_write_logs _ _ _ _ _ _ Ew) as [Hc|(c & Hc & Hmode)].
    + exists []. rewrite app_nil_r. split; [exact Hc|].
      split; [constructor|discriminate].
    + exists [c]. split; [exact Hc|].
      split; [constructor; [apply Hfc, Hmode|constructor]|discriminate].
  - exfalso. eapply _write_never_diverges, Ew.
Qed.

(** Every engine call that a sync-flush [write] of the Deflater makes is
    a partial-flush or a sync-flush call, whatever comes of the write;
    and when the write returns, it has made at least one call and the
    last one was a sync flush. *)
Theorem sync_flush_write_calls s o s' :
  Deflater.write SyncFlush s = (o, s') ->
  exists l,
    calls s' = calls s ++ l /\ Forall flush_call l /\
    (o = Ok tt -> ends_in_sync l).
Proof.
  rewrite deflater_write_eq by discriminate. simpl deflater_step.
  rewrite _writeAndFlush_eq.
  destruct (flush_loop (flush_fuel s) PartialFlush s) as [[m|e|] s1] eqn:El.
  - destruct (flush_loop_logs _ _ _ _ _ (or_introl eq_refl) El)
      as (l & Hl & Hall & Hlast).
    destruct (mode_eqb m SyncFlush) eqn:Em; simpl.
    + apply mode_eqb_eq in Em. subst m. unfold addToChecksum, modify.
      intros [= <- <-]. exists l. split; [exact Hl|]. split; [exact Hall|].
      intros _. destruct (Hlast eq_refl) as [[Hno _]|He];
        [discriminate|exact He].
    + destruct (_write deflate SyncFlush 0 s1) as [[u|e|] s2] eqn:Ew.
      * destruct (_write_ok_logs _ _ _ _ _ _ Ew) as (c & Hc & Hmode).
        unfold addToChecksum, modify. intros [= <- <-]. simpl.
        exists (l ++ [c]). split; [rewrite Hc, Hl, app_assoc; reflexivity|].
        split.
        { apply Forall_app. split; [exact Hall|].
          constructor; [right; exact Hmode|constructor]. }
        intros _. exists l, c. split; [reflexivity|exact Hmode].
      * intros [= <- <-].
        destruct (_write_logs _ _ _ _ _ _ Ew) as [Hc|(c & Hc & Hmode)].
        { exists l. rewrite Hc. split; [exact Hl|].
          split; [exact Hall|discriminate]. }
        { exists (l ++ [c]). split; [rewrite Hc, Hl, app_assoc; reflexivity|].
          split; [|discriminate].
          apply Forall_app. split; [exact Hall|].
          constructor; [right; exact Hmode|constructor]. }
      * exfalso. eapply _write_never_diverges, Ew.
  - destruct (flush_loop_logs _ _ _ _ _ (or_introl eq_refl) El)
      as (l & Hl & Hall & _).
    intros [= <- <-]. exists l. split; [exact Hl|].
    split; [exact Hall|discriminate].
  - destruct (flush_loop_logs _ _ _ _ _ (or_introl eq_refl) El)
      as (l & Hl & Hall & _).
    intros [= <- <-]. exists l. split; [exact Hl|].
    split; [exact Hall|discriminate].
Qed.

Lemma flush_loop_done fuel curMode s :
  input s = [] -> flush_loop (S fuel) curMode s = (Ok curMode, s).
Proof. intros H. rewrite flush_loop_S, H. reflexivity. Qed.

(** A sync-flush [write] with no input at all skips the loop and makes
    exactly one engine call: a sync flush that is offered no input and
    all the room.  It returns unless the engine fails. *)
Theorem sync_flush_of_nothing s :
  input s = [] -> 0 < room (output s) < 2 ^ 32 ->
  let r := deflate (_z s) (mode_int SyncFlush) [] (room (output s)) in
  let s' := snd (Deflater.write SyncFlush s) in
  calls s' = calls s ++ [ZCall (mode_int SyncFlush) 0 (room (output s))
                               (result r) (read r) (size (wrote r))] /\
  _z s' = next_state r /\
  (zlib_failed (result r) = false -> fst (Deflater.write SyncFlush s) = Ok tt) /\
  (zlib_failed (result r) = true ->
   fst (Deflater.write SyncFlush s)
   = Throw (CorruptData (ZlibErrorMsg (result r) (z_msg (next_state r))))).
Proof.
  intros Hin Hr. cbv zeta.
  rewrite deflater_write_eq by discriminate. simpl deflater_step.
  rewrite _writeAndFlush_eq. unfold flush_fuel.
  rewrite flush_loop_done by exact Hin. simpl negb. cbv iota.
  rewrite _write_eq. unfold out_size. rewrite to_unsigned_small by lia.
  assert (E : (room (output s) >? 0) = true) by lia. rewrite E.
  cbv zeta. simpl (mode_int SyncFlush >? mode_int Raw). cbv iota.
  assert (Hcall : flate_call deflate SyncFlush 0 s
                  = deflate (_z s) (mode_int SyncFlush) [] (room (output s))).
  { unfold flate_call, in_size, out_size. rewrite Hin.
    rewrite (to_unsigned_small (room (output s))) by lia. reflexivity. }
  assert (Hlog : calls (after_call deflate SyncFlush 0 s)
                 = calls s ++ [ZCall (mode_int SyncFlush) 0 (room (output s))
                     (result (flate_call deflate SyncFlush 0 s))
                     (read (flate_call deflate SyncFlush 0 s))
                     (size (wrote (flate_call deflate SyncFlush 0 s)))]).
  { unfold after_call. cbv zeta. simpl calls. unfold in_size, out_size.
    rewrite Hin. rewrite (to_unsigned_small (room (output s))) by lia.
    reflexivity. }
  rewrite <- Hcall.
  destruct (zlib_failed (result (flate_call deflate SyncFlush 0 s)));
    unfold addToChecksum, modify; cbn [fst snd].
  - split; [exact Hlog|]. split; [reflexivity|].
    split; [discriminate|reflexivity].
  - split; [exact Hlog|]. split; [reflexivity|].
    split; [reflexivity|discriminate].
Qed.

(** The fast path.  When the room is at least [deflateBound] of a
    non-empty input shorter than 2^32 bytes, and the engine honours that
    bound, a sync-flush [write] that returns has made one engine call
    only, a sync flush that was offered and read the whole input; the
    input is used up and the whole of it entered the checksum. *)
Theorem sync_flush_fast_path s s' :
  bound_honoured ->
  0 < size (input s) < 2 ^ 32 -> 0 < room (output s) < 2 ^ 32 ->
  deflateBound (_z s) (size (input s)) <= room (output s) ->
  0 <= _checksum s < 2 ^ 32 ->
  Deflater.write SyncFlush s = (Ok tt, s') ->
  input s' = [] /\
  _checksum s' = crc32 (_checksum s) (input s) /\
  exists c,
    calls s' = calls s ++ [c] /\
    call_mode c = mode_int SyncFlush /\
    call_in c = size (input s) /\ call_read c = size (input s).
Proof.
  intros Hb Hi Hr Hfit Hc.
  rewrite deflater_write_eq by discriminate. simpl deflater_step.
  rewrite _writeAndFlush_eq. unfold flush_fuel.
  rewrite flush_loop_S.
  assert (Ei : (size (input s) >? 0) = true) by lia. rewrite Ei.
  assert (Efit : fits s = true).
  { unfold fits. rewrite to_unsigned_small by lia. lia. }
  unfold step_mode, step_max. rewrite Efit.
  assert (Hin : in_size SIZE_MAX s = size (input s)).
  { unfold in_size, SIZE_MAX. rewrite Z.min_l by lia.
    apply to_unsigned_small. lia. }
  assert (Hout : out_size s = room (output s))
    by (apply to_unsigned_small; lia).
  destruct (_write deflate SyncFlush SIZE_MAX s) as [[u|e|] s1] eqn:Ew;
    try discriminate.
  apply _write_ok in Ew. destruct Ew as [_ ->].
  set (s1 := after_call deflate SyncFlush SIZE_MAX s).
  assert (Hread : read (flate_call deflate SyncFlush SIZE_MAX s)
                  = size (input s)).
  { unfold flate_call. rewrite Hin, Hout.
    rewrite Hb; rewrite size_prefix by lia; lia. }
  assert (Hall : input s1 = []).
  { subst s1. simpl. rewrite Hread. unfold moveStart, size.
    rewrite Nat2Z.id. apply skipn_all. }
  assert (Hloop :
    (if room (output s1) <=? kStopAtOutputSize then (Ok SyncFlush, s1)
     else flush_loop (Z.to_nat (size (input s) + room (output s)))
            SyncFlush s1) = (Ok SyncFlush, s1)).
  { destruct (room (output s1) <=? kStopAtOutputSize); [reflexivity|].
    destruct (Z.to_nat (size (input s) + room (output s))) as [|n] eqn:En;
      [lia|].
    apply flush_loop_done, Hall. }
  rewrite Hloop. simpl negb. cbv iota.
  rewrite Hall.
  assert (Hbetween : between (input s) [] = input s).
  { unfold between. simpl. rewrite Nat.sub_0_r. apply firstn_all. }
  rewrite Hbetween, addToChecksum_eq by (subst s1; simpl; (assumption || lia)).
  intros [= <-].
  split; [exact Hall|]. split; [reflexivity|].
  eexists. split; [reflexivity|].
  split; [reflexivity|]. split; [exact Hin|exact Hread].
Qed.

(** *** The loop comes to an end *)

Lemma flush_loop_terminates fuel : forall curMode s,
  makes_progress ->
  size (input s) < 2 ^ 32 -> 0 <= room (output s) < 2 ^ 32 ->
  size (input s) + room (output s) < Z.of_nat fuel ->
  fst (flush_loop fuel curMode s) <> Diverge.
Proof.
  induction fuel as [|fuel IH]; intros curMode s Hp Hi Hr Hfuel.
  { pose proof (size_nonneg (input s)). lia. }
  rewrite flush_loop_S.
  pose proof (size_nonneg (input s)) as Hnn.
  destruct (size (input s) >? 0) eqn:Ei; [|discriminate].
  destruct (_write deflate _ _ s) as [[u|e|] s1] eqn:Ew;
    [|discriminate|exfalso; eapply _write_never_diverges, Ew].
  pose proof (_write_follows _ _ _ _ _ _ Ew) as (_ & [k Hk] & Hroom).
  apply _write_ok in Ew. destruct Ew as [Hout Hs1].
  destruct (room (output s1) <=? kStopAtOutputSize) eqn:Estop; [discriminate|].
  unfold kStopAtOutputSize in Estop.
  assert (Hbig : 100 < room (output s)) by lia.
  assert (Hosz : out_size s = room (output s))
    by (apply to_unsigned_small; lia).
  assert (Hgiven : 0 < in_size (step_max s) s <= size (input s)).
  { unfold in_size, step_max.
    destruct (fits s).
    - unfold SIZE_MAX. rewrite Z.min_l by lia.
      rewrite to_unsigned_small by lia. lia.
    - unfold kHeadroomForFlush. rewrite to_size_t_small by lia.
      rewrite to_unsigned_small by lia. lia. }
  apply IH; try assumption.
  - rewrite Hk. pose proof (size_moveStart_le (Z.of_nat k) (input s)).
    unfold moveStart in *. rewrite Nat2Z.id in *. lia.
  - lia.
  - set (r := flate_call deflate (step_mode curMode s) (step_max s) s) in *.
    destruct (Hp (_z s) (mode_int (step_mode curMode s))
                 (prefix (in_size (step_max s) s) (input s))
                 (out_size s)) as [Hread Hprog].
    { rewrite size_prefix; lia. }
    { exact Hout. }
    fold (flate_call deflate (step_mode curMode s) (step_max s) s) in Hread, Hprog.
    fold r in Hread, Hprog.
    subst s1. simpl. fold r.
    pose proof (size_nonneg (wrote r)).
    pose proof (size_moveStart_le (read r) (input s)).
    destruct (Z.eq_dec (read r) 0) as [E0|Hne].
    + lia.
    + pose proof (size_moveStart_lt (read r) (input s) ltac:(lia) ltac:(lia)).
      lia.
Qed.

(** With an engine that makes progress, no [write] of the Deflater loops
    for ever, in any mode and whatever the room: on an input and an
    output shorter than 2^32 bytes the loop of the sync-flush mode ends
    within the fuel it is given. *)
Theorem deflater_write_terminates mode s :
  makes_progress ->
  size (input s) < 2 ^ 32 -> 0 <= room (output s) < 2 ^ 32 ->
  fst (Deflater.write mode s) <> Diverge.
Proof.
  intros Hp Hi Hr.
  destruct mode.
  - change (Deflater.write Raw s) with (_writeRaw s). rewrite _writeRaw_eq.
    destruct (room (output s) >? 0); discriminate.
  - rewrite deflater_write_eq by discriminate. simpl deflater_step.
    destruct (_write deflate NoFlush SIZE_MAX s) as [[u|e|] s1] eqn:Ew;
      [discriminate|discriminate|].
    exfalso. eapply _write_never_diverges, Ew.
  - rewrite deflater_write_eq by discriminate. discriminate.
  - rewrite deflater_write_eq by discriminate. simpl deflater_step.
    rewrite _writeAndFlush_eq.
    pose proof (flush_loop_terminates (flush_fuel s) PartialFlush s Hp Hi
                  Hr) as Hloop.
    destruct (flush_loop (flush_fuel s) PartialFlush s) as [[m|e|] s1].
    + destruct (negb (mode_eqb m SyncFlush)); [|discriminate].
      destruct (_write deflate SyncFlush 0 s1) as [[u|e|] s2] eqn:Ew;
        [discriminate|discriminate|].
      exfalso. eapply _write_never_diverges, Ew.
    + discriminate.
    + exfalso. apply Hloop; [|reflexivity].
      unfold flush_fuel. pose proof (size_nonneg (input s)). lia.
Qed.

End CodecAtLarge.

(* ===================================================================== *)
(** ** More of the codec on the reference engine *)
(* ===================================================================== *)

Section MoreOnTheQueueEngine.
Import Blip QueueEngine.

Ltac by_eval := vm_compute; repeat split; (reflexivity || discriminate).


Lemma raw_write_moves_bytes_witness :
  let s := fresh hello 5 in
  let s' := snd (_writeRaw s) in
  fst (_writeRaw s) = Ok tt /\
  stored (output s') = prefix 5 hello /\
  input s = prefix 5 hello ++ input s' /\
  room (output s') = 0.
Proof.
  destruct (raw_write_moves_bytes (fresh hello 5) ltac:(by_eval))
    as (_ & _ & Hok & Hst & Hin & _ & Hroom & _).
  cbv zeta. split; [exact Hok|]. split; [exact Hst|].
  split; [exact Hin|exact Hroom].
Defined.


Lemma inflater_answers_witness :
  fst (Inflater.write NoFlush (fresh hello 5)) = Ok tt /\
  stored (output (snd (Inflater.write NoFlush (fresh hello 5))))
  = prefix 5 hello.
Proof.
  destruct (inflater_answers NoFlush (fresh hello 5) ltac:(discriminate)
              ltac:(by_eval)) as [Hok _].
  destruct Hok as (Hfst & _ & _ & Hout).
  { left. by_eval. }
  split; [exact Hfst|]. rewrite Hout. reflexivity.
Defined.

Lemma sync_flush_write_calls_witness :
  exists l,
    calls (snd (Deflater.write SyncFlush (fresh hello 13))) = [] ++ l /\
    Forall flush_call l /\ ends_in_sync l.
Proof.
  destruct (sync_flush_write_calls (fresh hello 13) (Ok tt)
              (snd (Deflater.write SyncFlush (fresh hello 13))))
    as (l & Hl & Hall & Hlast).
  { by_eval. }
  exists l. split; [exact Hl|]. split; [exact Hall|apply Hlast; reflexivity].
Defined.

Lemma sync_flush_of_nothing_witness :
  calls (snd (Deflater.write SyncFlush (fresh [] 50)))
  = [ZCall 2 0 50 Z_BUF_ERROR 0 0] /\
  fst (Deflater.write SyncFlush (fresh [] 50)) = Ok tt.
Proof.
  destruct (sync_flush_of_nothing (fresh [] 50) eq_refl ltac:(by_eval))
    as (Hcalls & _ & Hok & _).
  split; [exact Hcalls|apply Hok; reflexivity].
Defined.

Lemma sync_flush_fast_path_witness :
  let s' := snd (Deflater.write SyncFlush (fresh hello 200)) in
  input s' = [] /\
  _checksum s' = crc32 0 hello /\
  exists c,
    calls s' = [] ++ [c] /\
    call_mode c = mode_int SyncFlush /\
    call_in c = 12 /\ call_read c = 12.
Proof.
  apply (sync_flush_fast_path (fresh hello 200)).
  - exact queue_bound_honoured.
  - by_eval.
  - by_eval.
  - by_eval.
  - by_eval.
  - by_eval.
Defined.

Lemma deflater_write_terminates_witness :
  fst (Deflater.write SyncFlush (fresh hello 5)) <> Diverge.
Proof.
  apply (deflater_write_terminates SyncFlush (fresh hello 5)).
  - exact queue_makes_progress.
  - by_eval.
  - by_eval.
Defined.

End MoreOnTheQueueEngine.

(* ===================================================================== *)
(** ** The database handle at large *)
(* ===================================================================== *)

Section DatabaseAtLarge.
Import C4.

(** *** Transactions *)

Lemma do_call_fault c d : fault (_db (do_call c d)) = fault (_db d).
Proof.
  destruct c as [|commit]; unfold do_call.
  - unfold beginTransaction, on_db, new_Transaction. run.
    destruct (_transactionLevel d) as [|[|n]]; simpl; try reflexivity.
    destruct (fault (_db d)) eqn:Ef; simpl; congruence.
  - unfold endTransaction, on_db, delete_transaction. run.
    destruct (_transactionLevel d) as [|[|n]]; simpl; try reflexivity.
    destruct (if negb commit then option_map abort (_transaction d)
              else _transaction d) as [t|]; simpl; [|reflexivity].
    destruct (fault (_db d)) eqn:Ef; simpl; congruence.
Qed.

Lemma do_call_consistent c d :
  fault (_db d) = None -> consistent d -> consistent (do_call c d).
Proof.
  unfold consistent. intros Hf H. destruct c as [|commit].
  - destruct (_transactionLevel d) as [|n] eqn:En.
    + unfold do_call. rewrite (begin_outermost d En), Hf. simpl.
      split; [lia|reflexivity].
    + rewrite begin_nested by lia. simpl.
      destruct (_transaction d) as [t|]; [|discriminate].
      destruct H as [_ Ht]. split; [lia|exact Ht].
  - destruct (_transactionLevel d) as [|[|n]] eqn:En.
    + unfold do_call, endTransaction. run. rewrite En. simpl. rewrite En.
      exact H.
    + destruct (_transaction d) as [t|] eqn:Et; [|discriminate].
      unfold do_call. rewrite (end_outermost commit d t En Et), Hf.
      reflexivity.
    + rewrite end_nested by lia. simpl.
      destruct (_transaction d) as [t|]; [|discriminate].
      destruct H as [_ Ht]. rewrite En. split; [simpl; lia|exact Ht].
Qed.

(** While the storage does not fail, whatever sequence of [begin] and
    [end] calls is made, balanced or not, the handle holds a
    [Transaction] exactly while its level is above zero, and never one
    that is already marked for rollback.  A failing storage breaks this
    at the first outermost [begin]: the constructor of the [Transaction]
    throws after the level was raised, so that [c4db_beginTransaction]
    returns [false] with the error recorded and leaves the handle at
    level one, [inTransaction()] true, with no [Transaction]. *)
Theorem transaction_held_while_nested calls d :
  consistent d ->
  (fault (_db d) = None ->
   consistent (do_calls calls d) /\
   (inTransaction (do_calls calls d) = true <->
    _transaction (do_calls calls d) <> None)) /\
  (forall e err,
     fault (_db d) = Some e -> _transactionLevel d = 0%nat ->
     c4db_beginTransaction (Call d err)
     = (Ok false, Call (set_transactionLevel 1 d) (Some e)) /\
     inTransaction (set_transactionLevel 1 d) = true /\
     _transaction (set_transactionLevel 1 d) = None).
Proof.
  intros H. split.
  - intros Hf.
    assert (Hc : consistent (do_calls calls d)).
    { revert d H Hf. induction calls as [|c calls IH]; intros d H Hf; [exact H|].
      rewrite do_calls_cons. apply IH.
      - apply do_call_consistent; assumption.
      - rewrite do_call_fault. exact Hf. }
    split; [exact Hc|].
    unfold consistent, inTransaction in *.
    destruct (_transaction (do_calls calls d)) as [t|].
    + destruct Hc as [Hl _]. split; [discriminate|].
      intros _. apply Nat.ltb_lt. exact Hl.
    + rewrite Hc. split; [discriminate|]. intros Hn. contradiction.
  - intros e err Hf Hl.
    unfold consistent in H. rewrite Hl in H.
    destruct (_transaction d) as [t|] eqn:Et; [lia|].
    split; [|split; [reflexivity|exact Et]].
    unfold c4db_beginTransaction, catchError, recordError, on_database. run.
    rewrite (begin_outermost d Hl), Hf, Et. simpl.
    destruct d; simpl in *; subst; reflexivity.
Qed.

Lemma transaction_held_while_nested_witness :
  consistent (do_calls [Begin; End true; End false; Begin; Begin] (sample_db 1)).
Proof.
  apply (transaction_held_while_nested
           [Begin; End true; End false; Begin; Begin] (sample_db 1)).
  - reflexivity.
  - reflexivity.
Defined.

(** [c4db_endTransaction] outside a transaction changes nothing, records
    [NotInTransaction] and returns [false].  Above level one it returns
    [true] and only lowers the level: the [commit] flag of an inner [end]
    is dropped.  At level one, holding a [Transaction], it leaves the
    transaction whatever the storage does: with healthy storage the
    transaction is committed, or rolled back when [commit] is false, the
    call returns [true] and the caller's error is left alone; when the
    storage fails, the call returns [false] with the failure recorded and
    the data file records no end. *)
Theorem c4db_endTransaction_returns commit d err :
  (_transactionLevel d = 0%nat ->
   c4db_endTransaction commit (Call d err)
   = (Ok false, Call d (Some NotInTransaction))) /\
  ((1 < _transactionLevel d)%nat ->
   c4db_endTransaction commit (Call d err)
   = (Ok true, Call (set_transactionLevel (Nat.pred (_transactionLevel d)) d) err)) /\
  (forall t, _transactionLevel d = 1%nat -> _transaction d = Some t ->
   let left (df : DataFile) : c4Database :=
     Database (db_config d) df 0 None (refCount d) in
   (fault (_db d) = None ->
    c4db_endTransaction commit (Call d err)
    = (Ok true,
       Call (left (with_end (if commit then end_of t else Aborted) (_db d)))
            err)) /\
   (forall e, fault (_db d) = Some e ->
    c4db_endTransaction commit (Call d err)
    = (Ok false, Call (left (_db d)) (Some e)))).
Proof.
  split; [|split].
  - intros H.
    unfold c4db_endTransaction, catchError, on_database, recordError,
      endTransaction. run.
    rewrite H. simpl. destruct d; simpl in *; subst; reflexivity.
  - intros H.
    unfold c4db_endTransaction, catchError, on_database, recordError,
      endTransaction. run.
    destruct (_transactionLevel d) as [|[|n]]; [lia|lia|]. reflexivity.
  - intros t Hl Ht. cbv zeta.
    unfold c4db_endTransaction, catchError, on_database, recordError. run.
    rewrite (end_outermost commit d t Hl Ht).
    split.
    + intros Hf. rewrite Hf. destruct commit; reflexivity.
    + intros e Hf. rewrite Hf. reflexivity.
Qed.

Lemma c4db_endTransaction_returns_witness :
  c4db_endTransaction false (Call (do_calls [Begin] (sample_db 1)) None)
  = (Ok true,
     Call (Database sample_config (with_end Aborted (_db (sample_db 1)))
                    0 None 1) None).
Proof.
  destruct (c4db_endTransaction_returns false (do_calls [Begin] (sample_db 1))
              None) as (_ & _ & Hone).
  destruct (Hone (MkTransaction false) eq_refl eq_refl) as [Hok _].
  apply Hok. reflexivity.
Defined.

(** *** Deleting *)

(** [c4db_delete], apart from the shared handle: in a transaction it
    refuses with [TransactionNotClosed] and touches nothing; when the
    storage fails it returns [false], records the storage error and the
    file stays; on the last reference with healthy storage it deletes the
    file, returns [true] and leaves the caller's error alone. *)
Theorem c4db_delete_outcomes d err :
  (inTransaction d = true ->
   c4db_delete (Call d err) = (Ok false, Call d (Some TransactionNotClosed))) /\
  (forall e, inTransaction d = false -> fault (_db d) = Some e ->
   c4db_delete (Call d err) = (Ok false, Call d (Some e))) /\
  (inTransaction d = false -> fault (_db d) = None -> refCount d <= 1 ->
   fst (c4db_delete (Call d err)) = Ok true /\
   outError (snd (c4db_delete (Call d err))) = err /\
   deleted (_db (database (snd (c4db_delete (Call d err))))) = true).
Proof.
  split; [|split].
  - apply c4db_delete_in_transaction.
  - intros e Ht Hf.
    unfold c4db_delete, mustNotBeInTransaction, catchError, recordError,
      on_database, deleteDataFile. run.
    rewrite Ht. simpl. destruct (refCount d >? 1); simpl; rewrite Hf; reflexivity.
  - intros Ht Hf Hrc.
    destruct (c4db_delete_last_reference d err Ht Hrc Hf) as (d' & -> & Hd).
    repeat split. exact Hd.
Qed.

(** *** Bundle resolution *)

Lemma strcmp0_eq a b : strcmp0 a b = true -> a = b.
Proof. apply String.eqb_eq. Qed.

Lemma set_storageEngine_same cfg e :
  storageEngine cfg = Some e -> set_storageEngine (Some e) cfg = cfg.
Proof. destruct cfg. simpl. intros ->. reflexivity. Qed.

(** [findOrCreateBundle] in a directory that is there, in one that it
    creates, and in one that is missing and stays so. *)
Lemma bundle_present path fs cfg :
  path ∈ dirs fs ->
  findOrCreateBundle path (Resolving fs cfg) =
  match filename_of cfg with
  | None => (Throw InvalidParameter, Resolving fs cfg)
  | Some file =>
    if path_exists fs (Path path file) then
      (Ok (Path path file),
       Resolving fs (match storageEngine cfg with
                     | None => set_storageEngine (Some kC4SQLiteStorageEngine) cfg
                     | Some _ => cfg
                     end))
    else
      match storageEngine cfg with
      | Some _ => (Throw WrongFormat, Resolving fs cfg)
      | None =>
        if path_exists fs (Path path kForestDatabaseName) then
          (Ok (Path path kForestDatabaseName),
           Resolving fs (set_storageEngine (Some kC4ForestDBStorageEngine) cfg))
        else (Throw WrongFormat, Resolving fs cfg)
      end
  end.
Proof.
  intros Hd. unfold findOrCreateBundle, mkdir, mustExistAsDir, filename_of. run.
  destruct (kC4DB_Create (flags cfg)); simpl.
  all: repeat (rewrite (is_dir_true _ _ Hd); simpl).
  all: destruct (storageEngine cfg) as [e|]; simpl.
  all: try (destruct (strcmp0 e kC4SQLiteStorageEngine);
            [|destruct (strcmp0 e kC4ForestDBStorageEngine)]); simpl.
  all: unfold subpath; simpl.
  all: repeat match goal with
       | |- context [path_exists ?f ?p] => destruct (path_exists f p); simpl
       end; reflexivity.
Qed.

Lemma bundle_created path fs cfg :
  path ∉ dirs fs -> kC4DB_Create (flags cfg) = true ->
  findOrCreateBundle path (Resolving fs cfg) =
  let fs' := FS ({[path]} ∪ dirs fs) (files fs) in
  match filename_of cfg with
  | None => (Throw InvalidParameter, Resolving fs' cfg)
  | Some file =>
    (Ok (Path path file),
     Resolving fs' (match storageEngine cfg with
                    | None => set_storageEngine (Some kC4SQLiteStorageEngine) cfg
                    | Some _ => cfg
                    end))
  end.
Proof.
  intros Hd Hc. unfold findOrCreateBundle, mkdir, mustExistAsDir, filename_of. run.
  rewrite Hc. simpl. rewrite (is_dir_false _ _ Hd). simpl.
  destruct (storageEngine cfg) as [e|]; simpl; [|reflexivity].
  destruct (strcmp0 e kC4SQLiteStorageEngine); simpl; [reflexivity|].
  destruct (strcmp0 e kC4ForestDBStorageEngine); reflexivity.
Qed.

Lemma bundle_missing path fs cfg :
  path ∉ dirs fs -> kC4DB_Create (flags cfg) = false ->
  findOrCreateBundle path (Resolving fs cfg) = (Throw IOError, Resolving fs cfg).
Proof.
  intros Hd Hc. unfold findOrCreateBundle, mkdir, mustExistAsDir. run.
  rewrite Hc. simpl. rewrite (is_dir_false _ _ Hd). reflexivity.
Qed.

Lemma filename_of_engine cfg file :
  filename_of cfg = Some file ->
  match storageEngine cfg with
  | None => file = kSQLiteDatabaseName
  | Some name => engine_file name file
  end.
Proof.
  unfold filename_of. destruct (storageEngine cfg) as [e|].
  - destruct (strcmp0 e kC4SQLiteStorageEngine) eqn:E1.
    + apply strcmp0_eq in E1. intros [= <-]. left. split; [exact E1|reflexivity].
    + destruct (strcmp0 e kC4ForestDBStorageEngine) eqn:E2; [|discriminate].
      apply strcmp0_eq in E2. intros [= <-]. right. split; [exact E2|reflexivity].
  - intros [= <-]. reflexivity.
Qed.

(** All the ways [findOrCreateBundle] can end. *)
Lemma resolution_cases path fs cfg o r :
  findOrCreateBundle path (Resolving fs cfg) = (o, r) ->
  (disk r = fs \/
   (kC4DB_Create (flags cfg) = true /\ (path ∉ dirs fs) /\
    disk r = FS ({[path]} ∪ dirs fs) (files fs))) /\
  ((exists e, o = Throw e /\ config r = cfg) \/
   (exists name file,
      o = Ok (Path path file) /\ engine_file name file /\
      config r = set_storageEngine (Some name) cfg /\
      (forall name0, storageEngine cfg = Some name0 -> name0 = name))).
Proof.
  assert (Hsql : engine_file kC4SQLiteStorageEngine kSQLiteDatabaseName)
    by (left; split; reflexivity).
  assert (Hfdb : engine_file kC4ForestDBStorageEngine kForestDatabaseName)
    by (right; split; reflexivity).
  assert (Hfound : forall file fs',
    filename_of cfg = Some file ->
    exists name,
      engine_file name file /\
      config (Resolving fs' (match storageEngine cfg with
                | None => set_storageEngine (Some kC4SQLiteStorageEngine) cfg
                | Some _ => cfg
                end)) = set_storageEngine (Some name) cfg /\
      (forall name0, storageEngine cfg = Some name0 -> name0 = name)).
  { intros file fs' Hf. apply filename_of_engine in Hf.
    destruct (storageEngine cfg) as [e|] eqn:Ee.
    - exists e. split; [exact Hf|]. simpl.
      split; [symmetry; apply set_storageEngine_same, Ee|].
      intros name0 [= ->]. reflexivity.
    - subst file. exists kC4SQLiteStorageEngine. split; [exact Hsql|].
      split; [reflexivity|discriminate]. }
  destruct (decide (path ∈ dirs fs)) as [Hd|Hd].
  - rewrite (bundle_present path fs cfg Hd).
    destruct (filename_of cfg) as [file|] eqn:Ef.
    2:{ intros [= <- <-]. split; [left; reflexivity|].
        left. eexists. split; reflexivity. }
    destruct (path_exists fs (Path path file)).
    { intros [= <- <-]. split; [left; reflexivity|]. right.
      destruct (Hfound file fs eq_refl) as (name & H1 & H2 & H3).
      exists name, file. repeat split; assumption. }
    destruct (storageEngine cfg) as [e|] eqn:Ee.
    { intros [= <- <-]. split; [left; reflexivity|].
      left. eexists. split; reflexivity. }
    destruct (path_exists fs (Path path kForestDatabaseName)).
    + intros [= <- <-]. split; [left; reflexivity|]. right.
      exists kC4ForestDBStorageEngine, kForestDatabaseName.
      split; [reflexivity|]. split; [exact Hfdb|].
      split; [reflexivity|discriminate].
    + intros [= <- <-]. split; [left; reflexivity|].
      left. eexists. split; reflexivity.
  - destruct (kC4DB_Create (flags cfg)) eqn:Ec.
    + rewrite (bundle_created path fs cfg Hd Ec). cbv zeta.
      destruct (filename_of cfg) as [file|] eqn:Ef.
      * intros [= <- <-].
        split; [right; split; [reflexivity|]; split; [exact Hd|reflexivity]|].
        right. destruct (Hfound file (FS ({[path]} ∪ dirs fs) (files fs)) eq_refl)
          as (name & H1 & H2 & H3).
        exists name, file. repeat split; assumption.
      * intros [= <- <-].
        split; [right; split; [reflexivity|]; split; [exact Hd|reflexivity]|].
        left. eexists. split; reflexivity.
    + rewrite (bundle_missing path fs cfg Hd Ec).
      intros [= <- <-]. split; [left; reflexivity|].
      left. eexists. split; reflexivity.
Qed.

(** Bundle resolution leaves no trace but the bundle directory.  However
    it ends, it has created, removed or renamed no file; the one
    directory it can add is the bundle directory itself, and only under
    [kC4DB_Create] when it was absent; of the configuration it changes
    nothing but a null storage engine, and that only when it succeeds. *)
Theorem bundle_resolution_footprint path fs cfg o r :
  findOrCreateBundle path (Resolving fs cfg) = (o, r) ->
  files (disk r) = files fs /\
  (dirs (disk r) = dirs fs \/
   (kC4DB_Create (flags cfg) = true /\ (path ∉ dirs fs) /\
    dirs (disk r) = {[path]} ∪ dirs fs)) /\
  flags (config r) = flags cfg /\
  encryptionKey (config r) = encryptionKey cfg /\
  (forall e, o = Throw e -> config r = cfg) /\
  (forall name, storageEngine cfg = Some name -> config r = cfg) /\
  o <> Diverge.
Proof.
  intros H. destruct (resolution_cases _ _ _ _ _ H) as [Hdisk Hout].
  split; [destruct Hdisk as [->|(_ & _ & ->)]; reflexivity|].
  split.
  { destruct Hdisk as [->|(Hc & Hd & ->)]; [left; reflexivity|].
    right. split; [exact Hc|]. split; [exact Hd|reflexivity]. }
  destruct Hout as [(e & -> & ->)|(name & file & -> & _ & -> & Hsame)].
  - repeat split; try reflexivity. discriminate.
  - repeat split; try reflexivity; try discriminate.
    intros name0 Hn. rewrite <- (Hsame _ Hn).
    apply set_storageEngine_same, Hn.
Qed.

Lemma bundle_resolution_footprint_witness :
  let cfg := Config (Flags true false true true) (Some "LevelDB")
                    (EncryptionKey 0 []) in
  let r := Resolving (FS ({["/tmp/db/"]} ∪ ∅) ∅) cfg in
  findOrCreateBundle "/tmp/db/" (Resolving (FS ∅ ∅) cfg)
    = (Throw InvalidParameter, r) /\
  files (disk r) = ∅ /\ config r = cfg.
Proof.
  intros cfg r.
  assert (Hrun : findOrCreateBundle "/tmp/db/" (Resolving (FS ∅ ∅) cfg)
                 = (Throw InvalidParameter, r))
    by (vm_compute; reflexivity).
  destruct (bundle_resolution_footprint _ _ _ _ _ Hrun)
    as (Hfiles & _ & _ & _ & Hcfg & _).
  split; [exact Hrun|].
  split; [exact Hfiles|apply (Hcfg InvalidParameter); reflexivity].
Defined.

(** When bundle resolution succeeds, the file it returns lies in the
    bundle and is the file of the engine that the configuration then
    names: the engine is never left null, and a requested engine is never
    replaced by the other one. *)
Theorem resolved_file_matches_engine path fs cfg file r :
  findOrCreateBundle path (Resolving fs cfg) = (Ok file, r) ->
  dirName file = path /\
  exists name,
    storageEngine (config r) = Some name /\
    engine_file name (fileName file) /\
    (forall name0, storageEngine cfg = Some name0 -> name0 = name).
Proof.
  intros H. destruct (resolution_cases _ _ _ _ _ H) as [_ Hout].
  destruct Hout as [(e & [=] & _)|(name & f & [= ->] & Hf & -> & Hsame)].
  split; [reflexivity|]. exists name.
  split; [reflexivity|]. split; [exact Hf|exact Hsame].
Qed.

Lemma resolved_file_matches_engine_witness :
  let file := Path "/tmp/db/" kSQLiteDatabaseName in
  let r := Resolving (FS ({["/tmp/db/"]} ∪ ∅) ∅)
             (set_storageEngine (Some kC4SQLiteStorageEngine) sample_config) in
  findOrCreateBundle "/tmp/db/" (Resolving (FS ∅ ∅) sample_config) = (Ok file, r) /\
  dirName file = "/tmp/db/" /\
  exists name,
    storageEngine (config r) = Some name /\
    engine_file name (fileName file) /\
    (forall name0, storageEngine sample_config = Some name0 -> name0 = name).
Proof.
  intros file r.
  assert (Hrun : findOrCreateBundle "/tmp/db/" (Resolving (FS ∅ ∅) sample_config)
                 = (Ok file, r)) by (vm_compute; reflexivity).
  split; [exact Hrun|].
  exact (resolved_file_matches_engine _ _ _ _ _ Hrun).
Defined.

(** A bundle directory that is missing.  Without [kC4DB_Create] the
    resolution fails and changes nothing.  With it the directory is
    created before the engine is looked at: for an engine that is not
    known the call fails with [InvalidParameter] and the new directory
    stays behind; for a known or a null engine it succeeds with a file
    that does not exist yet. *)
Theorem missing_bundle_directory path fs cfg :
  path ∉ dirs fs ->
  let fs' := FS ({[path]} ∪ dirs fs) (files fs) in
  (kC4DB_Create (flags cfg) = false ->
   exists e, findOrCreateBundle path (Resolving fs cfg)
             = (Throw e, Resolving fs cfg)) /\
  (kC4DB_Create (flags cfg) = true ->
   forall name, storageEngine cfg = Some name ->
   name <> kC4SQLiteStorageEngine -> name <> kC4ForestDBStorageEngine ->
   findOrCreateBundle path (Resolving fs cfg)
   = (Throw InvalidParameter, Resolving fs' cfg)) /\
  (kC4DB_Create (flags cfg) = true ->
   forall file, filename_of cfg = Some file ->
   fst (findOrCreateBundle path (Resolving fs cfg)) = Ok (Path path file) /\
   disk (snd (findOrCreateBundle path (Resolving fs cfg))) = fs' /\
   path_exists fs' (Path path file) = path_exists fs (Path path file)).
Proof.
  intros Hd. cbv zeta. split; [|split].
  - intros Hc. exists IOError. apply bundle_missing; assumption.
  - intros Hc name He Hs Hf. rewrite bundle_created by assumption.
    cbv zeta. unfold filename_of, strcmp0. rewrite He.
    apply String.eqb_neq in Hs. apply String.eqb_neq in Hf.
    rewrite Hs, Hf. reflexivity.
  - intros Hc file Hfile. rewrite bundle_created by assumption.
    cbv zeta. rewrite Hfile. cbn [fst snd disk].
    split; [reflexivity|]. split; [reflexivity|].
    unfold path_exists, is_dir. cbn [fileName dirName files dirs].
    destruct (String.eqb file ""%string) eqn:E; [|reflexivity].
    apply String.eqb_eq in E. subst file.
    apply filename_of_engine in Hfile.
    destruct (storageEngine cfg); [destruct Hfile as [[_ ?]|[_ ?]]|];
      discriminate.
Qed.

Lemma missing_bundle_directory_witness :
  let cfg := Config (Flags true false true true) (Some "LevelDB")
                    (EncryptionKey 0 []) in
  findOrCreateBundle "/tmp/db/" (Resolving (FS ∅ ∅) cfg)
  = (Throw InvalidParameter, Resolving (FS ({["/tmp/db/"]} ∪ ∅) ∅) cfg).
Proof.
  intros cfg.
  assert (Hd : "/tmp/db/" ∉ dirs (FS ∅ ∅)) by (simpl; set_solver).
  destruct (missing_bundle_directory "/tmp/db/" (FS ∅ ∅) cfg Hd)
    as (_ & Hunknown & _).
  apply (Hunknown eq_refl "LevelDB" eq_refl); discriminate.
Defined.

Lemma engine_file_filename cfg name file :
  engine_file name file ->
  filename_of (set_storageEngine (Some name) cfg) = Some file /\
  file <> ""%string.
Proof.
  intros [[-> ->]|[-> ->]]; split; (reflexivity || discriminate).
Qed.

(** Resolution is stable.  Once it has succeeded and the file it returned
    exists, resolving the same bundle again with the configuration it
    left gives the same file and leaves that configuration as it is,
    whatever else has appeared in the bundle in between. *)
Theorem resolution_is_stable path fs cfg file r fs2 :
  findOrCreateBundle path (Resolving fs cfg) = (Ok file, r) ->
  path ∈ dirs fs2 ->
  (dirName file, fileName file) ∈ files fs2 ->
  findOrCreateBundle path (Resolving fs2 (config r))
  = (Ok file, Resolving fs2 (config r)).
Proof.
  intros H Hd Hf. destruct (resolution_cases _ _ _ _ _ H) as [_ Hout].
  destruct Hout as [(e & [=] & _)|(name & f & [= ->] & Hname & -> & _)].
  destruct (engine_file_filename cfg name f Hname) as [Hfile Hne].
  rewrite (bundle_present path fs2 _ Hd), Hfile.
  rewrite db_file_exists by exact Hne.
  simpl in Hf. rewrite (bool_decide_eq_true_2 _ Hf). reflexivity.
Qed.

Lemma resolution_is_stable_witness :
  let file := Path "/tmp/db/" kSQLiteDatabaseName in
  let cfg' := set_storageEngine (Some kC4SQLiteStorageEngine) sample_config in
  let fs2 := FS {["/tmp/db/"]}
                {[("/tmp/db/", kSQLiteDatabaseName);
                  ("/tmp/db/", kForestDatabaseName)]} in
  findOrCreateBundle "/tmp/db/" (Resolving fs2 cfg')
  = (Ok file, Resolving fs2 cfg').
Proof.
  intros file cfg' fs2.
  assert (Hrun : findOrCreateBundle "/tmp/db/" (Resolving (FS ∅ ∅) sample_config)
                 = (Ok file, Resolving (FS ({["/tmp/db/"]} ∪ ∅) ∅) cfg'))
    by (vm_compute; reflexivity).
  apply (resolution_is_stable _ _ _ _ _ fs2 Hrun).
  - subst fs2. simpl. set_solver.
  - subst fs2. simpl. set_solver.
Defined.

(** *** Opening *)

Lemma append_cons c (a b : string) :
  (String c a ++ b)%string = String c (a ++ b)%string.
Proof. reflexivity. Qed.

Lemma splitPath_plain path :
  contains_separator path = false -> splitPath path = (EmptyString, path).
Proof.
  induction path as [|c rest IH]; [reflexivity|]. simpl.
  intros H. apply orb_false_iff in H. destruct H as [Hc Hrest].
  rewrite (IH Hrest), Hc. reflexivity.
Qed.

Lemma splitPath_cut path :
  contains_separator path = true ->
  ends_with_separator (fst (splitPath path)) = true /\
  (fst (splitPath path) ++ snd (splitPath path))%string = path.
Proof.
  induction path as [|c rest IH]; [discriminate|]. simpl.
  destruct (contains_separator rest) eqn:Hrest.
  - intros _. destruct (IH eq_refl) as [Hend Hjoin].
    destruct (splitPath rest) as [dir file]. simpl in Hend, Hjoin.
    destruct dir as [|c' dir]; [discriminate|].
    destruct (Ascii.eqb c kSeparatorChar); simpl;
      (split; [exact Hend|rewrite append_cons, Hjoin; reflexivity]).
  - rewrite orb_false_r. intros Hc.
    rewrite (splitPath_plain rest Hrest), Hc. simpl.
    split; [exact Hc|reflexivity].
Qed.

(** The string of [FilePath(path)] is [path] itself when it has a
    separator, and [path] in the current directory when it has none. *)
Lemma path_string_of path :
  path_string (FilePath_of path)
  = if contains_separator path then path else (kCurrentDir ++ path)%string.
Proof.
  unfold path_string, FilePath_of. cbn [dirName fileName].
  destruct (contains_separator path) eqn:H.
  - destruct (splitPath_cut path H) as [Hend Hjoin].
    destruct (splitPath path) as [dir file]. simpl in *.
    unfold as_dir. rewrite Hend.
    destruct dir as [|c dir]; [discriminate|]. simpl. exact Hjoin.
  - rewrite (splitPath_plain path H). reflexivity.
Qed.

Lemma newDataFile_opens p cfg isMainDB df :
  newDataFile p cfg isMainDB = Ok df ->
  filePath df = p /\ ended df = [] /\ deleted df = false /\ fault df = None /\
  create (options df) = kC4DB_Create (flags cfg) /\
  match storageEngine cfg with
  | None => engine df = ForestDataFile
  | Some name =>
    (name = kC4SQLiteStorageEngine /\ engine df = SQLiteDataFile) \/
    (name = kC4ForestDBStorageEngine /\ engine df = ForestDataFile)
  end.
Proof.
  unfold newDataFile. destruct (storageEngine cfg) as [name|].
  - destruct (strcmp0 name kC4ForestDBStorageEngine) eqn:E1.
    + apply strcmp0_eq in E1. intros [= <-]. simpl. repeat split.
      right. split; [exact E1|reflexivity].
    + destruct (strcmp0 name kC4SQLiteStorageEngine) eqn:E2; [|discriminate].
      apply strcmp0_eq in E2. intros [= <-]. simpl. repeat split.
      left. split; [exact E2|reflexivity].
  - intros [= <-]. simpl. repeat split.
Qed.

(** What the constructor of the data file does on the disk. *)
Lemma open_file_cases p opts fs o fs' :
  open_file p opts fs = (o, fs') ->
  dirs fs' = dirs fs /\ (files fs ⊆ files fs') /\
  ((o = Ok tt /\ ((dirName p, fileName p) ∈ files fs) /\ fs' = fs) \/
   (o = Ok tt /\ ((dirName p, fileName p) ∉ files fs) /\ create opts = true /\
    files fs' = {[(dirName p, fileName p)]} ∪ files fs) \/
   (o = Throw CantOpenFile /\ ((dirName p, fileName p) ∉ files fs) /\
    create opts = false /\ fs' = fs)).
Proof.
  unfold open_file.
  destruct (decide ((dirName p, fileName p) ∈ files fs)) as [Hin|Hout].
  - rewrite (bool_decide_eq_true_2 _ Hin). intros [= <- <-].
    split; [reflexivity|]. split; [set_solver|]. left. repeat split. exact Hin.
  - rewrite (bool_decide_eq_false_2 _ Hout).
    destruct (create opts); intros [= <- <-]; simpl.
    + split; [reflexivity|]. split; [set_solver|].
      right. left. repeat split. exact Hout.
    + split; [reflexivity|]. split; [set_solver|].
      right. right. repeat split. exact Hout.
Qed.

(** A bundle that resolves was either there with the file that is
    returned, or has just been created. *)
Lemma resolved_on_disk path fs cfg f r :
  findOrCreateBundle path (Resolving fs cfg) = (Ok f, r) ->
  ((path ∈ dirs fs) /\ ((path, fileName f) ∈ files fs) /\ disk r = fs) \/
  ((path ∉ dirs fs) /\ kC4DB_Create (flags cfg) = true /\
   disk r = FS ({[path]} ∪ dirs fs) (files fs)).
Proof.
  destruct (decide (path ∈ dirs fs)) as [Hd|Hd].
  - rewrite (bundle_present path fs cfg Hd).
    destruct (filename_of cfg) as [file|] eqn:Ef; [|discriminate].
    assert (Hne : file <> ""%string).
    { apply filename_of_engine in Ef.
      destruct (storageEngine cfg); [destruct Ef as [[_ ->]|[_ ->]]|subst file];
        discriminate. }
    rewrite (db_file_exists fs path file Hne).
    destruct (bool_decide ((path, file) ∈ files fs)) eqn:Hb.
    + intros [= <- <-]. left. apply bool_decide_eq_true_1 in Hb.
      split; [exact Hd|]. split; [exact Hb|reflexivity].
    + destruct (storageEngine cfg); [discriminate|].
      rewrite (db_file_exists fs path kForestDatabaseName) by discriminate.
      destruct (bool_decide ((path, kForestDatabaseName) ∈ files fs)) eqn:Hb2;
        [|discriminate].
      intros [= <- <-]. left. apply bool_decide_eq_true_1 in Hb2.
      split; [exact Hd|]. split; [exact Hb2|reflexivity].
  - destruct (kC4DB_Create (flags cfg)) eqn:Ec.
    + rewrite (bundle_created path fs cfg Hd Ec). cbv zeta.
      destruct (filename_of cfg); [|discriminate].
      intros [= <- <-]. right. split; [exact Hd|]. split; reflexivity.
    + rewrite (bundle_missing path fs cfg Hd Ec). discriminate.
Qed.

Lemma resolution_grows path fs cfg o r :
  findOrCreateBundle path (Resolving fs cfg) = (o, r) ->
  dirs fs ⊆ dirs (disk r) /\ files (disk r) = files fs.
Proof.
  intros H. destruct (resolution_cases _ _ _ _ _ H) as [[->|(_ & _ & ->)] _];
    simpl; split; (reflexivity || set_solver).
Qed.

Lemma newDatabase_grows path cfg fs o fs' :
  newDatabase path cfg fs = (o, fs') ->
  dirs fs ⊆ dirs fs' /\ files fs ⊆ files fs'.
Proof.
  unfold newDatabase.
  assert (Hstep : forall p c (r : resolving),
    dirs fs ⊆ dirs (disk r) -> files (disk r) = files fs ->
    match newDataFile (path_string p) c true with
    | Ok df =>
      match open_file p (options df) (disk r) with
      | (Ok _, f1) => (Ok (Database c df 0 None 1), f1)
      | (Throw e, f1) => (Throw e, f1)
      | (Diverge, f1) => (Diverge, f1)
      end
    | Throw e => (Throw e, disk r)
    | Diverge => (Diverge, disk r)
    end = (o, fs') ->
    dirs fs ⊆ dirs fs' /\ files fs ⊆ files fs').
  { intros p c r Hd Hf.
    destruct (newDataFile _ _ true) as [df|e|].
    - destruct (open_file p (options df) (disk r)) as [o1 f1] eqn:Eo.
      destruct (open_file_cases _ _ _ _ _ Eo) as (Hdirs & Hfiles & _).
      rewrite Hf in Hfiles. rewrite <- Hdirs in Hd.
      destruct o1; intros [= _ <-]; split; assumption.
    - intros [= _ <-]. rewrite Hf. split; [exact Hd|reflexivity].
    - intros [= _ <-]. rewrite Hf. split; [exact Hd|reflexivity]. }
  destruct (kC4DB_Bundled (flags cfg)).
  - destruct (findOrCreateBundle path (Resolving fs cfg)) as [o1 r] eqn:H.
    destruct (resolution_grows _ _ _ _ _ H) as [Hd Hf].
    destruct o1 as [f|e|].
    + apply Hstep; assumption.
    + intros [= _ <-]. rewrite Hf. split; [exact Hd|reflexivity].
    + intros [= _ <-]. rewrite Hf. split; [exact Hd|reflexivity].
  - apply (Hstep _ _ (Resolving fs cfg)); reflexivity.
Qed.

Lemma newDatabase_bundle path cfg fs d fs' :
  kC4DB_Bundled (flags cfg) = true ->
  newDatabase path cfg fs = (Ok d, fs') ->
  exists name file df,
    d = Database (set_storageEngine (Some name) cfg) df 0 None 1 /\
    engine_file name file /\
    newDataFile (path_string (Path path file))
                (set_storageEngine (Some name) cfg) true = Ok df /\
    (path ∈ dirs fs') /\ ((path, file) ∈ files fs') /\
    (kC4DB_Create (flags cfg) = false -> fs' = fs).
Proof.
  intros Hb. unfold newDatabase. rewrite Hb.
  destruct (findOrCreateBundle path (Resolving fs cfg)) as [o r] eqn:H.
  destruct (resolution_cases _ _ _ _ _ H)
    as [_ [(e & -> & _)|(name & file & -> & Hname & Hcfg & _)]];
    [discriminate|].
  rewrite Hcfg.
  destruct (newDataFile _ _ true) as [df|e|] eqn:En; try discriminate.
  destruct (open_file _ _ _) as [[u|e|] f1] eqn:Eo; try discriminate.
  intros [= <- <-]. exists name, file, df.
  split; [reflexivity|]. split; [exact Hname|]. split; [exact En|].
  apply newDataFile_opens in En. destruct En as (_ & _ & _ & _ & Hcreate & _).
  destruct (open_file_cases _ _ _ _ _ Eo) as (Hdirs & _ & Hopen).
  cbn [dirName fileName flags set_storageEngine] in *.
  destruct (resolved_on_disk _ _ _ _ _ H) as [(Hd & Hf & Hr)|(Hd & Hc & Hr)];
    cbn [fileName] in *; rewrite Hr in *.
  - destruct Hopen as [(_ & _ & ->)|[(_ & Hout & _)|(Hx & _)]];
      [|contradiction|discriminate].
    split; [exact Hd|]. split; [exact Hf|reflexivity].
  - split; [rewrite Hdirs; simpl; apply elem_of_union_l, elem_of_singleton;
             reflexivity|].
    split; [|congruence].
    destruct Hopen as [(_ & Hin & ->)|[(_ & _ & _ & ->)|(Hx & _)]];
      [exact Hin|apply elem_of_union_l, elem_of_singleton; reflexivity
      |discriminate].
Qed.

Lemma newDatabase_plain path cfg fs d fs' :
  kC4DB_Bundled (flags cfg) = false ->
  newDatabase path cfg fs = (Ok d, fs') ->
  exists df,
    d = Database cfg df 0 None 1 /\
    newDataFile (path_string (FilePath_of path)) cfg true = Ok df /\
    dirs fs' = dirs fs /\
    ((dirName (FilePath_of path), fileName (FilePath_of path)) ∈ files fs') /\
    (kC4DB_Create (flags cfg) = false -> fs' = fs).
Proof.
  intros Hb. unfold newDatabase. rewrite Hb. cbn [config disk].
  destruct (newDataFile _ _ true) as [df|e|] eqn:En; try discriminate.
  destruct (open_file _ _ _) as [[u|e|] f1] eqn:Eo; try discriminate.
  intros [= <- <-]. exists df.
  split; [reflexivity|]. split; [reflexivity|].
  apply newDataFile_opens in En. destruct En as (_ & _ & _ & _ & Hcreate & _).
  destruct (open_file_cases _ _ _ _ _ Eo) as (Hdirs & _ & Hopen).
  split; [exact Hdirs|].
  destruct Hopen as [(_ & Hin & ->)|[(_ & _ & Hc & ->)|(Hx & _)]];
    [|split; [apply elem_of_union_l, elem_of_singleton; reflexivity|congruence]
     |discriminate].
  split; [exact Hin|reflexivity].
Qed.

Lemma newDatabase_never_diverges path cfg fs fs' :
  newDatabase path cfg fs <> (Diverge, fs').
Proof.
  assert (Hnew : forall p c, newDataFile p c true <> Diverge).
  { intros p c. unfold newDataFile. destruct (storageEngine c) as [n|];
      [|discriminate].
    destruct (strcmp0 n kC4ForestDBStorageEngine); [discriminate|].
    destruct (strcmp0 n kC4SQLiteStorageEngine); discriminate. }
  assert (Hstep : forall p c f,
    match newDataFile (path_string p) c true with
    | Ok df =>
      match open_file p (options df) f with
      | (Ok _, f1) => (Ok (Database c df 0 None 1), f1)
      | (Throw e, f1) => (Throw e, f1)
      | (Diverge, f1) => (Diverge, f1)
      end
    | Throw e => (Throw e, f)
    | Diverge => (Diverge, f)
    end <> (Diverge, fs')).
  { intros p c f. destruct (newDataFile _ _ true) as [df|e|] eqn:En.
    - destruct (open_file p (options df) f) as [o1 f1] eqn:Eo.
      destruct (open_file_cases _ _ _ _ _ Eo)
        as (_ & _ & [(-> & _)|[(-> & _)|(-> & _)]]); discriminate.
    - discriminate.
    - exfalso. eapply Hnew, En. }
  unfold newDatabase.
  destruct (kC4DB_Bundled (flags cfg)).
  - destruct (findOrCreateBundle path (Resolving fs cfg)) as [o r] eqn:H.
    destruct (resolution_cases _ _ _ _ _ H)
      as [_ [(e & -> & _)|(name & file & -> & _)]]; [discriminate|].
    apply Hstep.
  - apply Hstep.
Qed.

(** [c4db_open] answers with a handle or with an error, never with both
    and never with neither; without a configuration the error is
    [InvalidParameter] and the disk is left alone.  An open removes
    nothing from the disk, and without [kC4DB_Create] a successful one
    does not change it.  A handle that is returned has one reference and
    is not in a transaction; its data file is fresh and carries the flags
    that were asked for.  For a bundle the handle's configuration names
    the engine that was chosen, the data file is of that engine, its path
    is the bundle directory, closed by a separator, followed by that
    engine's file name, and the directory and that file are on the disk
    afterwards.  For a plain path the configuration is the caller's, the
    path of the data file is the given one (in the current directory when
    it has no separator), no directory is made and the file is on the
    disk afterwards. *)
Theorem c4db_open_handle path configP fs :
  let handle := fst (fst (c4db_open path configP fs)) in
  let err := snd (fst (c4db_open path configP fs)) in
  let fs' := snd (c4db_open path configP fs) in
  (handle = None <-> err <> None) /\
  (configP = None -> err = Some InvalidParameter /\ fs' = fs) /\
  (dirs fs ⊆ dirs fs' /\ files fs ⊆ files fs') /\
  (forall d cfg, handle = Some d -> configP = Some cfg ->
   refCount d = 1 /\ consistent d /\ inTransaction d = false /\
   ended (_db d) = [] /\ deleted (_db d) = false /\
   flags (db_config d) = flags cfg /\
   (kC4DB_Create (flags cfg) = false -> fs' = fs) /\
   (kC4DB_Bundled (flags cfg) = true ->
    exists name file,
      storageEngine (db_config d) = Some name /\
      engine_file name file /\
      filePath (_db d) = (as_dir path ++ file)%string /\
      ((name = kC4SQLiteStorageEngine /\ engine (_db d) = SQLiteDataFile) \/
       (name = kC4ForestDBStorageEngine /\ engine (_db d) = ForestDataFile)) /\
      (path ∈ dirs fs') /\ ((path, file) ∈ files fs')) /\
   (kC4DB_Bundled (flags cfg) = false ->
    db_config d = cfg /\
    filePath (_db d)
    = (if contains_separator path then path else (kCurrentDir ++ path)%string) /\
    dirs fs' = dirs fs /\
    ((dirName (FilePath_of path), fileName (FilePath_of path)) ∈ files fs'))).
Proof.
  cbv zeta. destruct configP as [cfg|]; simpl.
  2:{ split; [split; [discriminate|reflexivity]|].
      split; [intros _; split; reflexivity|].
      split; [split; reflexivity|discriminate]. }
  destruct (newDatabase path cfg fs) as [[d|e|] fs1] eqn:Hn; simpl.
  3:{ exfalso. eapply newDatabase_never_diverges, Hn. }
  2:{ split; [split; [discriminate|reflexivity]|]. split; [discriminate|].
      split; [exact (newDatabase_grows _ _ _ _ _ Hn)|discriminate]. }
  split; [split; [discriminate|intros H; contradiction]|].
  split; [discriminate|].
  split; [exact (newDatabase_grows _ _ _ _ _ Hn)|].
  intros d0 cfg0 [= <-] [= <-].
  destruct (kC4DB_Bundled (flags cfg)) eqn:Eb.
  - destruct (newDatabase_bundle _ _ _ _ _ Eb Hn)
      as (name & file & df & -> & Hname & En & Hdir & Hfile & Hsame).
    apply newDataFile_opens in En.
    destruct En as (Hp & He & Hdel & _ & _ & Heng).
    cbn [refCount _db db_config set_storageEngine flags storageEngine] in *.
    split; [reflexivity|]. split; [reflexivity|]. split; [reflexivity|].
    split; [exact He|]. split; [exact Hdel|]. split; [reflexivity|].
    split; [exact Hsame|]. split; [|discriminate].
    intros _. exists name, file. split; [reflexivity|].
    split; [exact Hname|]. split; [exact Hp|]. split; [exact Heng|].
    split; assumption.
  - destruct (newDatabase_plain _ _ _ _ _ Eb Hn)
      as (df & -> & En & Hdirs & Hfile & Hsame).
    apply newDataFile_opens in En.
    destruct En as (Hp & He & Hdel & _ & _ & _).
    cbn [refCount _db db_config] in *.
    split; [reflexivity|]. split; [reflexivity|]. split; [reflexivity|].
    split; [exact He|]. split; [exact Hdel|]. split; [reflexivity|].
    split; [exact Hsame|]. split; [discriminate|].
    intros _. split; [reflexivity|].
    split; [rewrite Hp; apply path_string_of|].
    split; assumption.
Qed.

Lemma fallback_means path fs cfg f r :
  findOrCreateBundle path (Resolving fs cfg) = (Ok f, r) ->
  storageEngine cfg = None -> fileName f = kForestDatabaseName ->
  (path ∈ dirs fs) /\ ((path, kSQLiteDatabaseName) ∉ files fs).
Proof.
  intros H He Hf. destruct (decide (path ∈ dirs fs)) as [Hd|Hd].
  - split; [exact Hd|]. revert H.
    rewrite (bundle_present path fs cfg Hd). unfold filename_of. rewrite He.
    rewrite (db_file_exists fs path kSQLiteDatabaseName) by discriminate.
    destruct (bool_decide ((path, kSQLiteDatabaseName) ∈ files fs)) eqn:Hb.
    + intros [= <- _]. discriminate.
    + intros _. apply bool_decide_eq_false_1 in Hb. exact Hb.
  - exfalso. revert H. destruct (kC4DB_Create (flags cfg)) eqn:Ec.
    + rewrite (bundle_created path fs cfg Hd Ec). cbv zeta.
      unfold filename_of. rewrite He. intros [= <- _]. discriminate.
    + rewrite (bundle_missing path fs cfg Hd Ec). discriminate.
Qed.

Lemma resolve_again path fs cfg f r fs2 :
  findOrCreateBundle path (Resolving fs cfg) = (Ok f, r) ->
  path ∈ dirs fs2 -> (path, fileName f) ∈ files fs2 ->
  (storageEngine cfg = None -> fileName f = kForestDatabaseName ->
   (path, kSQLiteDatabaseName) ∉ files fs2) ->
  findOrCreateBundle path (Resolving fs2 cfg) = (Ok f, Resolving fs2 (config r)).
Proof.
  intros H Hd Hf Hfall.
  destruct (resolution_cases _ _ _ _ _ H)
    as [_ [(e & [=] & _)|(name & file & [= ->] & Hname & -> & Hsame)]].
  cbn [fileName config] in *.
  rewrite (bundle_present path fs2 cfg Hd).
  destruct (storageEngine cfg) as [name0|] eqn:Ee.
  - rewrite <- (Hsame name0 eq_refl) in *.
    assert (Hfile : filename_of cfg = Some file).
    { rewrite <- (set_storageEngine_same cfg name0 Ee).
      apply (engine_file_filename cfg name0 file Hname). }
    rewrite Hfile.
    rewrite (db_file_exists fs2 path file)
      by (apply (engine_file_filename cfg name0 file Hname)).
    rewrite (bool_decide_eq_true_2 _ Hf).
    rewrite (set_storageEngine_same cfg name0 Ee). reflexivity.
  - unfold filename_of. rewrite Ee.
    rewrite (db_file_exists fs2 path kSQLiteDatabaseName) by discriminate.
    destruct Hname as [[-> ->]|[-> ->]].
    + rewrite (bool_decide_eq_true_2 _ Hf). reflexivity.
    + rewrite (bool_decide_eq_false_2 _ (Hfall eq_refl eq_refl)).
      rewrite (db_file_exists fs2 path kForestDatabaseName) by discriminate.
      rewrite (bool_decide_eq_true_2 _ Hf). reflexivity.
Qed.

Lemma open_file_found p opts fs :
  (dirName p, fileName p) ∈ files fs -> open_file p opts fs = (Ok tt, fs).
Proof.
  intros H. unfold open_file. rewrite (bool_decide_eq_true_2 _ H). reflexivity.
Qed.

(** What was opened can be opened again.  After a successful [c4db_open],
    a second one of the same path with the same configuration, or with
    the configuration that the handle carries, succeeds with an equal
    handle and leaves the disk as the first open left it: a bundle or a
    file that [kC4DB_Create] made is found. *)
Theorem c4db_open_again path cfg fs d fs' :
  c4db_open path (Some cfg) fs = (Some d, None, fs') ->
  c4db_open path (Some cfg) fs' = (Some d, None, fs') /\
  c4db_open path (Some (db_config d)) fs' = (Some d, None, fs').
Proof.
  unfold c4db_open.
  destruct (newDatabase path cfg fs) as [[d0|e|] fs1] eqn:Hn; try discriminate.
  intros [= -> ->].
  assert (Hboth : newDatabase path cfg fs' = (Ok d, fs') /\
                  newDatabase path (db_config d) fs' = (Ok d, fs'));
    [|destruct Hboth as [-> ->]; split; reflexivity].
  destruct (kC4DB_Bundled (flags cfg)) eqn:Eb.
  - destruct (newDatabase_bundle _ _ _ _ _ Eb Hn)
      as (name & file & df & -> & Hname & En & Hdir & Hfile & _).
    cbn [db_config].
    unfold newDatabase in Hn. rewrite Eb in Hn.
    destruct (findOrCreateBundle path (Resolving fs cfg)) as [o r] eqn:H.
    destruct (resolution_cases _ _ _ _ _ H)
      as [_ [(e & -> & _)|(name1 & file1 & -> & Hname1 & Hcfg & _)]];
      [discriminate|].
    rewrite Hcfg in Hn.
    destruct (newDataFile (path_string (Path path file1)) _ true)
      as [df1|e|] eqn:En1; try discriminate.
    destruct (open_file _ _ _) as [[u|e|] f1] eqn:Eo; try discriminate.
    injection Hn as Hcfg1 Hdf Hfs. subst df1 f1.
    assert (name1 = name) by (destruct cfg; simpl in Hcfg1; congruence).
    subst name1.
    assert (file1 = file).
    { destruct Hname as [[-> ->]|[-> ->]], Hname1 as [[E ->]|[E ->]];
        (reflexivity || discriminate). }
    subst file1.
    assert (Hfall : storageEngine cfg = None ->
                    fileName (Path path file) = kForestDatabaseName ->
                    (path, kSQLiteDatabaseName) ∉ files fs').
    { intros He Hf.
      destruct (fallback_means _ _ _ _ _ H He Hf) as [Hd Hno].
      destruct (resolved_on_disk _ _ _ _ _ H) as [(_ & Hin & Hr)|(Hx & _)];
        [|contradiction].
      rewrite Hr in Eo.
      rewrite (open_file_found (Path path file) _ fs Hin) in Eo.
      assert (Hfs : fs' = fs) by congruence.
      rewrite Hfs. exact Hno. }
    split.
    + unfold newDatabase. rewrite Eb.
      rewrite (resolve_again _ _ _ _ _ fs' H Hdir Hfile Hfall).
      cbn [config disk]. rewrite Hcfg, En.
      rewrite (open_file_found (Path path file) _ fs' Hfile). reflexivity.
    + unfold newDatabase. cbn [flags set_storageEngine]. rewrite Eb.
      rewrite (bundle_present path fs' _ Hdir).
      destruct (engine_file_filename cfg name file Hname) as [Hfn Hne].
      rewrite Hfn. rewrite (db_file_exists fs' path file Hne).
      rewrite (bool_decide_eq_true_2 _ Hfile).
      cbn [storageEngine set_storageEngine config disk].
      rewrite En. rewrite (open_file_found (Path path file) _ fs' Hfile).
      reflexivity.
  - destruct (newDatabase_plain _ _ _ _ _ Eb Hn)
      as (df & -> & En & _ & Hfile & _).
    cbn [db_config].
    assert (Hre : newDatabase path cfg fs' = (Ok (Database cfg df 0 None 1), fs')).
    { unfold newDatabase. rewrite Eb. cbn [config disk]. rewrite En.
      rewrite (open_file_found _ _ _ Hfile). reflexivity. }
    split; exact Hre.
Qed.

Lemma c4db_open_again_witness :
  let d := Database (set_storageEngine (Some kC4SQLiteStorageEngine) sample_config)
             (MkDataFile SQLiteDataFile "/tmp/db/db.sqlite3"
                (MkOptions (Capabilities true true false) true true 0 None)
                [] false None)
             0 None 1 in
  let fs' := FS ({["/tmp/db"]} ∪ ∅) ({[("/tmp/db", kSQLiteDatabaseName)]} ∪ ∅) in
  c4db_open "/tmp/db" (Some sample_config) (FS ∅ ∅) = (Some d, None, fs') /\
  c4db_open "/tmp/db" (Some sample_config) fs' = (Some d, None, fs').
Proof.
  intros d fs'.
  assert (Hrun : c4db_open "/tmp/db" (Some sample_config) (FS ∅ ∅)
                 = (Some d, None, fs')) by (vm_compute; reflexivity).
  split; [exact Hrun|].
  exact (proj1 (c4db_open_again _ _ _ _ _ Hrun)).
Defined.

End DatabaseAtLarge.

(* ===================================================================== *)
(** ** The storage calls of the C API *)
(* ===================================================================== *)

Section StorageCalls.
Import C4 C4Storage.
Context {st : Storage}.

Lemma guarded_in_transaction d err (body : M call bool) :
  inTransaction d = true ->
  (let* ok := mustNotBeInTransaction in
   if negb ok then ret false else body) (Call d err)
  = (Ok false, Call d (Some TransactionNotClosed)).
Proof.
  intros H. unfold mustNotBeInTransaction, recordError. run.
  rewrite H. reflexivity.
Qed.

Lemma guarded_outside_transaction d err (body : M call bool) :
  inTransaction d = false ->
  (let* ok := mustNotBeInTransaction in
   if negb ok then ret false else body) (Call d err)
  = body (Call d err).
Proof.
  intros H. unfold mustNotBeInTransaction, recordError. run.
  rewrite H. reflexivity.
Qed.

Lemma storage_call_reports (op : M DataFile unit) d err :
  catchError (let* _ := on_database (on_db op) in ret true) false (Call d err)
  = match op (_db d) with
    | (Ok _, df) => (Ok true, Call (set_db df d) err)
    | (Throw e, df) => (Ok false, Call (set_db df d) (Some e))
    | (Diverge, df) => (Diverge, Call (set_db df d) err)
    end.
Proof.
  unfold catchError, recordError, on_database, on_db. run.
  destruct (op (_db d)) as [[u|e|] df]; reflexivity.
Qed.

(** While the handle is in a transaction, [c4db_close], [c4db_compact]
    and [c4db_rekey] are refused: each returns [false], records
    [TransactionNotClosed] and leaves the handle and its data file as they
    were; no storage operation is called. *)
Theorem storage_calls_refused_in_transaction d err :
  inTransaction d = true ->
  c4db_close (NullableCall (Some d) err)
  = (Ok false, NullableCall (Some d) (Some TransactionNotClosed)) /\
  c4db_compact (Call d err) = (Ok false, Call d (Some TransactionNotClosed)) /\
  forall newKey,
    c4db_rekey newKey (Call d err)
    = (Ok false, Call d (Some TransactionNotClosed)).
Proof.
  intros H. split; [|split].
  - unfold c4db_close, unless_null. cbn [handle error_out].
    rewrite (guarded_in_transaction d err _ H). reflexivity.
  - apply guarded_in_transaction, H.
  - intros newKey. apply guarded_in_transaction, H.
Qed.

(** Outside a transaction [c4db_close], [c4db_compact] and [c4db_rekey]
    make their one storage call and report on it: [true] with the caller's
    error untouched when it returns, [false] with its exception recorded
    when it throws.  [c4db_rekey] asks for the algorithm and the 32 bytes
    of the new key, or for no encryption when the key is null.  The
    handle changes in its data file only.  [c4db_close] of a null handle
    returns [true] and does nothing. *)
Theorem storage_calls_outside_transaction d err :
  inTransaction d = false ->
  let report (op : M DataFile unit) : outcome bool * call :=
    match op (_db d) with
    | (Ok _, df) => (Ok true, Call (set_db df d) err)
    | (Throw e, df) => (Ok false, Call (set_db df d) (Some e))
    | (Diverge, df) => (Diverge, Call (set_db df d) err)
    end in
  c4db_compact (Call d err) = report DataFile_compact /\
  (forall newKey, c4db_rekey newKey (Call d err) = report (rekey_request newKey)) /\
  c4db_close (NullableCall (Some d) err)
  = (fst (report DataFile_close),
     NullableCall (Some (database (snd (report DataFile_close))))
                  (outError (snd (report DataFile_close)))) /\
  c4db_close (NullableCall None err) = (Ok true, NullableCall None err).
Proof.
  intros H. cbv zeta. split; [|split; [|split]].
  - unfold c4db_compact. rewrite (guarded_outside_transaction d err _ H).
    apply storage_call_reports.
  - intros newKey. unfold c4db_rekey.
    rewrite (guarded_outside_transaction d err _ H).
    unfold rekey, rekey_request.
    destruct newKey as [k|]; apply storage_call_reports.
  - unfold c4db_close, unless_null. cbn [handle error_out].
    rewrite (guarded_outside_transaction d err _ H).
    rewrite storage_call_reports.
    destruct (DataFile_close (_db d)) as [[u|e|] df]; reflexivity.
  - reflexivity.
Qed.

(** *** Raw documents *)

Lemma raw_body_eq storeName key meta body t d err :
  _transaction d = Some t ->
  catchError
    (let* localDocs := on_database (on_db (getKeyStore storeName)) in
     let* t := on_database transaction in
     let* _ :=
       (if has_buf body || has_buf meta then
          on_database (on_db (KeyStore_set localDocs key meta body t))
        else
          let* _ := on_database (on_db (KeyStore_del localDocs key t)) in
          ret tt) in
     ret true)
    false (Call d err)
  = match raw_write storeName key meta body t (_db d) with
    | (Ok _, df) => (Ok true, Call (set_db df d) err)
    | (Throw e, df) => (Ok false, Call (set_db df d) (Some e))
    | (Diverge, df) => (Diverge, Call (set_db df d) err)
    end.
Proof.
  intros Ht.
  unfold catchError, recordError, on_database, on_db, transaction, raw_write.
  run.
  destruct (getKeyStore storeName (_db d)) as [[ks|e|] df0]; simpl;
    try reflexivity.
  rewrite Ht. simpl.
  destruct body as [b|], meta as [m|]; simpl.
  1-3: match goal with |- context [KeyStore_set ?x1 ?x2 ?x3 ?x4 ?x5 ?x6] =>
         destruct (KeyStore_set x1 x2 x3 x4 x5 x6) as [[?|?|] ?] end;
       reflexivity.
  destruct (KeyStore_del ks key t df0) as [[?|?|] ?]; reflexivity.
Qed.

Lemma c4db_begin_outermost d err :
  _transactionLevel d = 0%nat ->
  c4db_beginTransaction (Call d err) =
  match fault (_db d) with
  | Some f =>
    (Ok false, Call (Database (db_config d) (_db d) 1 (_transaction d)
                              (refCount d)) (Some f))
  | None =>
    (Ok true, Call (Database (db_config d) (_db d) 1
                             (Some (MkTransaction false)) (refCount d)) err)
  end.
Proof.
  intros Hl.
  unfold c4db_beginTransaction, catchError, recordError, on_database. run.
  rewrite (begin_outermost d Hl). destruct (fault (_db d)); reflexivity.
Qed.

Lemma c4db_end_outermost commit d err t :
  _transactionLevel d = 1%nat -> _transaction d = Some t ->
  c4db_endTransaction commit (Call d err) =
  match fault (_db d) with
  | Some f =>
    (Ok false, Call (Database (db_config d) (_db d) 0 None (refCount d))
                    (Some f))
  | None =>
    (Ok true,
     Call (Database (db_config d)
             (with_end (end_of (if commit then t else abort t)) (_db d))
             0 None (refCount d)) err)
  end.
Proof.
  intros Hl Ht.
  unfold c4db_endTransaction, catchError, recordError, on_database. run.
  rewrite (end_outermost commit d t Hl Ht).
  destruct (fault (_db d)); reflexivity.
Qed.

(** [c4raw_put] on a handle that is not in a transaction.  When the
    storage cannot begin a transaction, the call returns [false] with the
    failure recorded, writes nothing, and leaves the level at one with no
    [Transaction].  Otherwise it runs in a transaction of its own and
    asks the storage for a [del] when [meta] and [body] are both null and
    for a [set] otherwise.  When the storage returns, the call returns
    [true] and the transaction is committed; a commit that fails is
    recorded in the caller's error, and the call returns [true] all the
    same.  When the storage throws, the call returns [false] and the
    transaction is rolled back; the caller's error records the
    exception, or the failure of the rollback.  After a [begin] that
    succeeded the handle is out of the transaction again. *)
Theorem c4raw_put_standalone storeName key meta body d err :
  _transactionLevel d = 0%nat ->
  let left (x : DataFile * option error) : call :=
    Call (Database (db_config d) (fst x) 0 None (refCount d)) (snd x) in
  c4raw_put storeName key meta body (Call d err)
  = match fault (_db d) with
    | Some f =>
      (Ok false, Call (Database (db_config d) (_db d) 1 (_transaction d)
                                (refCount d)) (Some f))
    | None =>
      match raw_write storeName key meta body (MkTransaction false) (_db d) with
      | (Ok _, df) => (Ok true, left (settle Committed df err))
      | (Throw e, df) => (Ok false, left (settle Aborted df (Some e)))
      | (Diverge, df) =>
        (Diverge, Call (Database (db_config d) df 1
                                 (Some (MkTransaction false)) (refCount d)) err)
      end
    end.
Proof.
  intros Hl. cbv zeta. unfold c4raw_put.
  unfold bind at 1. rewrite (c4db_begin_outermost d err Hl).
  destruct (fault (_db d)) as [f|]; [reflexivity|]. cbn [negb].
  unfold bind at 1. rewrite (raw_body_eq _ _ _ _ (MkTransaction false))
    by reflexivity.
  cbn [_db].
  destruct (raw_write storeName key meta body (MkTransaction false) (_db d))
    as [[u|e|] df]; [| |reflexivity].
  - unfold bind at 1.
    rewrite (c4db_end_outermost true _ _ (MkTransaction false))
      by reflexivity.
    unfold settle. simpl. destruct (fault df); reflexivity.
  - unfold bind at 1.
    rewrite (c4db_end_outermost false _ _ (MkTransaction false))
      by reflexivity.
    unfold settle. simpl. destruct (fault df); reflexivity.
Qed.

(** [c4raw_put] on a handle that is in a transaction works inside it.
    The storage is handed the open transaction; afterwards the nesting
    level is what it was and the transaction is still open, neither
    committed nor rolled back.  A put that fails returns [false] with the
    exception recorded, and does not mark the enclosing transaction for
    rollback. *)
Theorem c4raw_put_nested storeName key meta body d err t :
  (0 < _transactionLevel d)%nat -> _transaction d = Some t ->
  c4raw_put storeName key meta body (Call d err)
  = match raw_write storeName key meta body t (_db d) with
    | (Ok _, df) => (Ok true, Call (set_db df d) err)
    | (Throw e, df) => (Ok false, Call (set_db df d) (Some e))
    | (Diverge, df) =>
      (Diverge, Call (set_transactionLevel (S (_transactionLevel d))
                                           (set_db df d)) err)
    end.
Proof.
  intros Hl Ht. unfold c4raw_put.
  destruct d as [cfg df0 level tr rc]. simpl in Hl, Ht. subst tr.
  destruct level as [|n]; [lia|].
  assert (Hb : c4db_beginTransaction (Call (Database cfg df0 (S n) (Some t) rc) err)
               = (Ok true, Call (Database cfg df0 (S (S n)) (Some t) rc) err)).
  { reflexivity. }
  unfold bind at 1. rewrite Hb. cbn [negb].
  unfold bind at 1. rewrite (raw_body_eq _ _ _ _ t) by reflexivity.
  cbn [_db].
  destruct (raw_write storeName key meta body t df0) as [[u|e|] df]; reflexivity.
Qed.

End StorageCalls.

Section StorageSamples.
Import C4 C4Storage.

Lemma storage_calls_refused_in_transaction_witness :
  @c4db_compact sample_storage (Call (do_calls [Begin] (sample_db 1)) None)
  = (Ok false, Call (do_calls [Begin] (sample_db 1)) (Some TransactionNotClosed)).
Proof.
  apply (@storage_calls_refused_in_transaction sample_storage
           (do_calls [Begin] (sample_db 1)) None).
  reflexivity.
Defined.

Lemma storage_calls_outside_transaction_witness :
  @c4db_compact sample_storage (Call (sample_db 1) None)
  = (Ok true, Call (sample_db 1) None).
Proof.
  apply (@storage_calls_outside_transaction sample_storage (sample_db 1) None).
  reflexivity.
Defined.

Lemma c4raw_put_standalone_witness :
  @c4raw_put sample_storage "info" (Some hello) None (Some hello)
             (Call (sample_db 1) None)
  = (Ok true,
     Call (Database sample_config
             (with_end Committed (_db (sample_db 1))) 0 None 1) None).
Proof.
  rewrite (@c4raw_put_standalone sample_storage "info" (Some hello) None
             (Some hello) (sample_db 1) None eq_refl).
  reflexivity.
Defined.

Lemma c4raw_put_nested_witness :
  let d := Database sample_config
             (MkDataFile SQLiteDataFile "/tmp/db/db.sqlite3"
                (MkOptions (Capabilities true true false) true true 0 None)
                [] false (Some IOError))
             1 (Some (MkTransaction false)) 1 in
  @c4raw_put sample_storage "info" (Some hello) None None (Call d None)
  = (Ok false, Call d (Some IOError)).
Proof.
  intros d.
  apply (@c4raw_put_nested sample_storage "info" (Some hello) None None d None
           (MkTransaction false)).
  - simpl. lia.
  - reflexivity.
Defined.

End StorageSamples.
